(** * nakodx-file-retriever: cache store, request coalescer and sf result
      interpreter of [src/extension.ts], embedded and verified.

    Conventions of the embedding.
    - A JavaScript string is a Rocq [string]; one [ascii] stands for one
      UTF-16 code unit below 256.
    - A value produced by [JSON.parse] is a [JsValue]; JSON numbers are the
      integers ([Z]) that a double holds exactly and that JavaScript prints
      with all their digits, those below 10^21 in magnitude.
    - [Date.now()] is passed in as an integer number of milliseconds.
    - A function that can throw returns [option]; [None] is the exception.
    - A directory is a finite map from file names to file contents;
      [readdir], [unlink] and [writeFile] on an existing directory succeed
      (the handlers of their failures log or report and do nothing else).
    - A workspace folder is open.
    - The event loop is a transition system: one event runs one synchronous
      segment of the code, from a resumption to the next [await]. *)

From Stdlib Require Import ZArith Lia Bool Ascii String List.
From stdpp Require Import base option strings list gmap pretty.

Local Open Scope string_scope.
Local Open Scope Z_scope.

(** ** JavaScript strings *)

Module JsString.

(** [s.startsWith(p)] *)
Fixpoint startsWith (p s : string) : bool :=
  match p, s with
  | EmptyString, _ => true
  | String a p', String b s' => if Ascii.eqb a b then startsWith p' s' else false
  | String _ _, EmptyString => false
  end.

(** [s.endsWith(p)] *)
Definition endsWith (p s : string) : bool :=
  startsWith (String.rev p) (String.rev s).

(** The characters kept by the regular expression [/[^a-zA-Z0-9]/g]. *)
Definition isAlnum (a : ascii) : bool :=
  let n := N_of_ascii a in
  ((48 <=? n) && (n <=? 57) || (65 <=? n) && (n <=? 90) || (97 <=? n) && (n <=? 122))%N.

(** [s.replace(/[^a-zA-Z0-9]/g, '_')] *)
Fixpoint sanitize (s : string) : string :=
  match s with
  | EmptyString => EmptyString
  | String a s' => String (if isAlnum a then a else "_"%char) (sanitize s')
  end.

(** White space and line terminators of ECMAScript below code unit 256:
    TAB, LF, VT, FF, CR, SP and NBSP. *)
Definition isWhite (a : ascii) : bool :=
  let n := N_of_ascii a in
  ((9 <=? n) && (n <=? 13) || (n =? 32) || (n =? 160))%N.

Fixpoint trimStart (s : string) : string :=
  match s with
  | String a s' => if isWhite a then trimStart s' else s
  | EmptyString => EmptyString
  end.

(** [s.trim()] *)
Definition trim (s : string) : string :=
  String.rev (trimStart (String.rev (trimStart s))).

(** [parts.join(sep)] on strings that are already converted. *)
Fixpoint join (sep : string) (parts : list string) : string :=
  match parts with
  | [] => ""
  | [x] => x
  | x :: rest => x ++ sep ++ join sep rest
  end.

(** A string is truthy when it is not empty. *)
Definition nonEmpty (s : string) : bool :=
  match s with EmptyString => false | _ => true end.

End JsString.

(** ** Values of [JSON.parse] and the JavaScript operations used on them *)

#[local] Set Warnings "-register-all".

Inductive JsValue : Type :=
| VUndef
| VNull
| VBool (b : bool)
| VNum (n : Z)
| VStr (s : string)
| VArr (items : list JsValue)
| VObj (fields : list (string * JsValue)).

Module Js.

(** Own property of a parsed object. *)
Fixpoint lookupField (name : string) (fields : list (string * JsValue)) : JsValue :=
  match fields with
  | [] => VUndef
  | (k, v) :: rest => if String.eqb k name then v else lookupField name rest
  end.

(** [v?.name]: [undefined] on [null], [undefined] and on every value that
    has no such property. None of the property names read by the code is
    defined on a prototype. *)
Definition optGet (name : string) (v : JsValue) : JsValue :=
  match v with
  | VObj fields => lookupField name fields
  | _ => VUndef
  end.

(** [v.name]: a [TypeError] on [null] and [undefined]. *)
Definition get (name : string) (v : JsValue) : option JsValue :=
  match v with
  | VUndef | VNull => None
  | _ => Some (optGet name v)
  end.

(** ToBoolean. *)
Definition truthy (v : JsValue) : bool :=
  match v with
  | VUndef | VNull => false
  | VBool b => b
  | VNum n => negb (n =? 0)
  | VStr s => JsString.nonEmpty s
  | VArr _ | VObj _ => true
  end.

Definition hasOwn (name : string) (fields : list (string * JsValue)) : bool :=
  existsb (fun kv => String.eqb (fst kv) name) fields.

(** ToString, as applied by template literals, [Array.prototype.join] and
    the [Error] constructor. A number is printed with its decimal digits,
    which is what JavaScript prints for the integers of the embedding; the
    exponent form of the numbers from 10^21 on is not modelled. A parsed
    object converts to
    ["[object Object]"] unless an own ["toString"] property hides the
    inherited method, in which case the conversion throws. *)
Fixpoint toString (v : JsValue) : option string :=
  match v with
  | VUndef => Some "undefined"
  | VNull => Some "null"
  | VBool true => Some "true"
  | VBool false => Some "false"
  | VNum n => Some (pretty n)
  | VStr s => Some s
  | VArr items =>
      let fix parts (l : list JsValue) : option (list string) :=
        match l with
        | [] => Some []
        | x :: rest =>
            match (match x with
                   | VUndef | VNull => Some ""
                   | _ => toString x
                   end), parts rest with
            | Some s, Some ss => Some (s :: ss)
            | _, _ => None
            end
        end in
      match parts items with
      | Some ss => Some (JsString.join "," ss)
      | None => None
      end
  | VObj fields =>
      if hasOwn "toString" fields then None else Some "[object Object]"
  end.

(** One element of [Array.prototype.join]. *)
Definition joinPart (v : JsValue) : option string :=
  match v with
  | VUndef | VNull => Some ""
  | _ => toString v
  end.

(** [arr.join(sep)] *)
Definition join (sep : string) (arr : list JsValue) : option string :=
  JsString.join sep <$> mapM joinPart arr.

(** [a || b] *)
Definition or (a b : JsValue) : JsValue := if truthy a then a else b.

(** [v === 'text'] *)
Definition isString (text : string) (v : JsValue) : bool :=
  match v with
  | VStr s => String.eqb s text
  | _ => false
  end.

End Js.

(** ** Result interpreter: [buildHumanMessage] *)

(** Outcome of one priority rule: the rule returned a value, or control
    falls through to the next rule. *)
Inductive Rule : Type :=
| Return (v : JsValue)
| Next.

(** The callback of [msgs.map]: [m => (m.problem || m.message || m)]. *)
Definition messageText (m : JsValue) : option JsValue :=
  match Js.get "problem" m, Js.get "message" m with
  | Some p, Some t => Some (Js.or p (Js.or t m))
  | _, _ => None
  end.

(** Priority 2: [json?.result?.messages]. *)
Definition messagesRule (json : JsValue) : option Rule :=
  let msgs := Js.optGet "messages" (Js.optGet "result" json) in
  match msgs with
  | VArr (first :: rest) =>
      if Js.truthy (Js.optGet "problem" first) then
        Some (Return (Js.optGet "problem" first))
      else
        match mapM messageText (first :: rest) with
        | Some texts =>
            match Js.join "; " texts with
            | Some joined =>
                Some (if JsString.nonEmpty joined then Return (VStr joined) else Next)
            | None => None
            end
        | None => None
        end
  | VStr s =>
      Some (if JsString.nonEmpty (JsString.trim s)
            then Return (VStr (JsString.trim s)) else Next)
  | _ => Some Next
  end.

(** The callback of [files.find]: [f => f?.state === 'Failed' || f?.error]. *)
Definition isFailedFile (f : JsValue) : bool :=
  Js.isString "Failed" (Js.optGet "state" f) || Js.truthy (Js.optGet "error" f).

(** [json?.result?.files ?? []], which must then have the array methods. *)
Definition resultFiles (json : JsValue) : option (list JsValue) :=
  match Js.optGet "files" (Js.optGet "result" json) with
  | VUndef | VNull => Some []
  | VArr files => Some files
  | _ => None
  end.

(** Priority 3: the first failed file. *)
Definition filesRule (json : JsValue) : option Rule :=
  match resultFiles json with
  | Some files =>
      let failed := default VUndef (List.find isFailedFile files) in
      Some (if Js.truthy (Js.optGet "error" failed) then Return (Js.optGet "error" failed)
            else if Js.truthy (Js.optGet "problem" failed) then Return (Js.optGet "problem" failed)
            else Next)
  | None => None
  end.

(** Priority 4 and the final [return undefined]. *)
Definition codeRule (json : JsValue) : option JsValue :=
  if Js.truthy (Js.optGet "code" json) then
    c ← Js.toString (Js.optGet "code" json);
    Some (VStr ("Command failed [" ++ c ++ "]"))
  else Some VUndef.

Definition buildHumanMessage (json : JsValue) : option JsValue :=
  if Js.truthy (Js.optGet "message" json) then
    if Js.truthy (Js.optGet "code" json) then
      m ← Js.toString (Js.optGet "message" json);
      c ← Js.toString (Js.optGet "code" json);
      Some (VStr (m ++ " [" ++ c ++ "]"))
    else Some (Js.optGet "message" json)
  else
    match messagesRule json with
    | Some (Return v) => Some v
    | Some Next =>
        match filesRule json with
        | Some (Return v) => Some v
        | Some Next => codeRule json
        | None => None
        end
    | None => None
    end.

(** ** Process invoker: the [close] handler of [runSfJson] *)

(** The fields that [SfCliError] adds to [Error]; a field that the
    constructor call does not pass is [VUndef] (or [None]). *)
Record SfCliError : Type := mkSfCliError {
  message : string;
  codeStr : JsValue;
  context : JsValue;
  status : JsValue;
  exitCode : JsValue;
  stderr : option string;
  rawJson : JsValue
}.

(** How the promise of [runSfJson] settles when the process closes. A
    [TypeError] inside the handler escapes it and is [None]. *)
Inductive Settled : Type :=
| Resolve (json : JsValue)
| Reject (e : SfCliError).

(** [`sf ${args.join(' ')} failed with exit ${code}`]; the exit code is
    [null] when a signal ended the process. *)
Definition failedWithExit (args : list string) (code : option Z) : string :=
  "sf " ++ JsString.join " " args ++ " failed with exit "
  ++ match code with Some n => pretty n | None => "null" end.

(** [typeof json.status === 'number' && json.status !== 0] *)
Definition statusNonZero (json : JsValue) : bool :=
  match Js.optGet "status" json with
  | VNum n => negb (n =? 0)
  | _ => false
  end.

(** [cp.on('close', code => ...)]: [out] is what [JSON.parse] made of the
    standard output ([None] when it threw), [err] the standard error. *)
Definition runSfJson_close (args : list string) (code : option Z)
    (out : option JsValue) (err : string) : option Settled :=
  let json := default VUndef out in
  if negb (bool_decide (code = Some 0)) then
    if Js.truthy json then
      human ← buildHumanMessage json;
      text ← Js.toString
        (Js.or human (Js.or (VStr err) (VStr (failedWithExit args code))));
      Some (Reject {| message := text;
                      codeStr := Js.optGet "code" json;
                      context := Js.optGet "context" json;
                      status := Js.optGet "status" json;
                      exitCode := match code with
                                  | Some n => VNum n
                                  | None => match Js.optGet "exitCode" json with
                                            | VNull => VUndef
                                            | v => v
                                            end
                                  end;
                      stderr := Some err;
                      rawJson := json |})
    else
      text ← Js.toString (Js.or (VStr err) (VStr (failedWithExit args code)));
      Some (Reject {| message := text; codeStr := VUndef; context := VUndef;
                      status := VUndef;
                      exitCode := match code with Some n => VNum n | None => VUndef end;
                      stderr := Some err; rawJson := VUndef |})
  else if negb (Js.truthy json) then
    Some (Reject {| message := "Invalid JSON from sf " ++ JsString.join " " args;
                    codeStr := VUndef; context := VUndef; status := VUndef;
                    exitCode := VUndef; stderr := None; rawJson := VUndef |})
  else if statusNonZero json then
    human ← buildHumanMessage json;
    text ← Js.toString (Js.or human (VStr "Command failed"));
    Some (Reject {| message := text;
                    codeStr := Js.optGet "code" json;
                    context := Js.optGet "context" json;
                    status := Js.optGet "status" json;
                    exitCode := VUndef;
                    stderr := Some err;
                    rawJson := json |})
  else Some (Resolve json).

(** ** Retrieval: [collectRetrieveProblems] and [retrieveSelectedFile] *)

(** The body of [for (const m of msgs)]: the string pushed for [m], if any. *)
Definition messageProblem (m : JsValue) : option (list JsValue) :=
  if Js.truthy (Js.optGet "problem" m) then
    if Js.truthy (Js.optGet "fileName" m) then
      p ← Js.toString (Js.optGet "problem" m);
      f ← Js.toString (Js.optGet "fileName" m);
      Some [VStr (p ++ " (" ++ f ++ ")")]
    else Some [Js.optGet "problem" m]
  else Some [].

(** The body of [for (const f of files)]. *)
Definition fileProblem (f : JsValue) : option (list JsValue) :=
  if Js.isString "Failed" (Js.optGet "state" f) && Js.truthy (Js.optGet "error" f) then
    if Js.truthy (Js.optGet "fullName" f) && Js.truthy (Js.optGet "type" f) then
      t ← Js.toString (Js.optGet "type" f);
      n ← Js.toString (Js.optGet "fullName" f);
      e ← Js.toString (Js.optGet "error" f);
      Some [VStr (e ++ " [" ++ (t ++ " " ++ n) ++ "]")]
    else Some [Js.optGet "error" f]
  else Some [].

(** Runs a loop body over a list and appends what each round pushes. *)
Fixpoint pushAll (body : JsValue -> option (list JsValue)) (l : list JsValue)
  : option (list JsValue) :=
  match l with
  | [] => Some []
  | x :: rest =>
      match body x with
      | Some pushed =>
          match pushAll body rest with
          | Some more => Some (pushed ++ more)%list
          | None => None
          end
      | None => None
      end
  end.

(** What [for (const f of files)] iterates: the elements of an array, the
    characters of a string; any other value is not iterable. *)
Definition iterate (v : JsValue) : option (list JsValue) :=
  match v with
  | VArr l => Some l
  | VStr s => Some ((fun a => VStr (String a EmptyString)) <$> list_ascii_of_string s)
  | _ => None
  end.

Definition collectRetrieveProblems (json : JsValue) : option (list JsValue) :=
  result ← Js.get "result" json;
  let msgs := Js.optGet "messages" result in
  let files := match Js.optGet "files" result with
               | VUndef | VNull => VArr []
               | v => v
               end in
  fromMsgs ← match msgs with
             | VArr l => pushAll messageProblem l
             | VStr s => Some (if JsString.nonEmpty (JsString.trim s)
                               then [VStr (JsString.trim s)] else [])
             | _ => Some []
             end;
  elems ← iterate files;
  fromFiles ← pushAll fileProblem elems;
  top ← buildHumanMessage json;
  let out := (fromMsgs ++ fromFiles)%list in
  Some (if Js.truthy top && bool_decide (out = []) then [top] else out).

(** How [retrieveSelectedFile] ends once the process has closed: it throws
    an [SfCliError], or it goes on to report success. *)
Inductive Retrieved : Type :=
| Throws (e : SfCliError)
| Succeeds (result : JsValue).

Definition retrieveSelectedFile (metadataType itemName : string)
    (code : option Z) (out : option JsValue) (err : string) : option Retrieved :=
  let metadataArg := metadataType ++ ":" ++ itemName in
  settled ← runSfJson_close
    ["project"; "retrieve"; "start"; "--metadata"; metadataArg] code out err;
  match settled with
  | Reject e => Some (Throws e)
  | Resolve result =>
      problems ← collectRetrieveProblems result;
      match problems with
      | first :: _ =>
          text ← Js.toString first;
          Some (Throws {| message := text; codeStr := VUndef; context := VUndef;
                          status := VUndef; exitCode := VUndef; stderr := None;
                          rawJson := result |})
      | [] => Some (Succeeds result)
      end
  end.

(** ** Cache store *)

Record MetadataType : Type := {
  xmlName : string;
  directoryName : option string;
  childXmlNames : option (list string)
}.

Record MetadataItem : Type := {
  fullName : string;
  fileName : option string;
  type : option string;
  createdDate : option string
}.

Module CachedMetadataTypes.
Record t : Type := mk {
  orgId : string;
  metadataTypes : list MetadataType;
  ts : option Z
}.
End CachedMetadataTypes.

Module CachedMetadataItems.
Record t : Type := mk {
  orgId : string;
  metadataType : string;
  items : list MetadataItem;
  ts : option Z
}.
End CachedMetadataItems.

(** What [JSON.parse] makes of the text of a file of the cache directory:
    an entry of one of the two partitions, or an exception. *)
Inductive FileData : Type :=
| ItemsJson (c : CachedMetadataItems.t)
| TypesJson (c : CachedMetadataTypes.t)
| NotJson (text : string).

(** [path.join(dir, name)] for a file name: the directory and the name. *)
Definition Path : Type := string * string.

(** The user settings read through [config.get(key, default)]; [None] is a
    setting that the user has not set. *)
Record Config : Type := {
  cacheTtlDays : option Z;
  enableCache : option bool
}.

(** The globals of the module and the directories on disk, each directory a
    map from the names of its files to their contents. *)
Record Store : Type := mkStore {
  TTL_MS : Z;
  metadataTypesCache : option CachedMetadataTypes.t;
  metadataItemsCache : gmap string CachedMetadataItems.t;
  cacheDirectory : option string;
  disk : gmap string (gmap string FileData)
}.

(** [let TTL_MS = 30 * 24 * 60 * 60 * 1000] *)
Definition TTL_MS_initial : Z := 30 * 24 * 60 * 60 * 1000.

Module Fs.

(** [fs.existsSync(dir)] *)
Definition existsDir (dir : string) (d : gmap string (gmap string FileData)) : bool :=
  JsString.nonEmpty dir && bool_decide (is_Some (d !! dir)).

(** [fs.promises.readFile(path)]; [None] when there is no such file. *)
Definition readFile (p : Path) (d : gmap string (gmap string FileData)) : option FileData :=
  listing ← d !! p.1; listing !! p.2.

(** [fs.existsSync(path)] *)
Definition existsSync (p : Path) (d : gmap string (gmap string FileData)) : bool :=
  bool_decide (is_Some (readFile p d)).

(** [fs.promises.writeFile(path, text)]; [None] when the directory is
    missing. *)
Definition writeFile (p : Path) (data : FileData) (d : gmap string (gmap string FileData))
  : option (gmap string (gmap string FileData)) :=
  listing ← d !! p.1; Some (<[p.1 := <[p.2 := data]> listing]> d).

(** [fs.readdirSync(dir)]: the names of the files of the directory. *)
Definition readdir (dir : string) (d : gmap string (gmap string FileData)) : list string :=
  match d !! dir with
  | Some listing => (map_to_list listing).*1
  | None => []
  end.

(** [fs.unlinkSync(path)] *)
Definition unlink (p : Path) (d : gmap string (gmap string FileData))
  : gmap string (gmap string FileData) :=
  alter (delete p.2) p.1 d.

(** [for (const f of files) if (doomed(f)) unlink(path.join(dir, f))] over
    the listing [files] of the directory. *)
Definition unlinkWhere (doomed : string -> bool) (dir : string) (files : list string)
    (d : gmap string (gmap string FileData)) : gmap string (gmap string FileData) :=
  foldl (fun acc f => if doomed f then unlink (dir, f) acc else acc) d files.

End Fs.

Definition getMetadataTypesCachePath (s : Store) (orgId : string) : option Path :=
  dir ← cacheDirectory s;
  Some (dir, "metadata-types-" ++ orgId ++ ".json").

Definition getMetadataItemsCachePath (s : Store) (orgId metadataType : string)
  : option Path :=
  dir ← cacheDirectory s;
  let safeMetadataType := JsString.sanitize metadataType in
  Some (dir, "metadata-items-" ++ orgId ++ "-" ++ safeMetadataType ++ ".json").

(** [isFresh(ts)]; [!ts] holds for a missing timestamp and for [0]. *)
Definition isFresh (s : Store) (now : Z) (ts : option Z) : bool :=
  match ts with
  | None => true
  | Some t => if t =? 0 then true else now - t <? TTL_MS s
  end.

(** [loadMetadataItemsFromDisk]; [None] is its [null]. The file is read
    and parsed as an item-list entry, as its type annotation says. The
    code does not check the shape: from a file that holds a catalogue entry
    it returns that object as it is, which the typed entries of this
    embedding cannot express; the load is exact on the stores in which the
    files named [metadata-items-...] hold item-list entries or text that
    does not parse ([itemFilesWellShaped]). *)
Definition loadMetadataItemsFromDisk (s : Store) (now : Z) (orgId metadataType : string)
  : option CachedMetadataItems.t :=
  match getMetadataItemsCachePath s orgId metadataType with
  | Some cachePath =>
      match Fs.readFile cachePath (disk s) with
      | Some (ItemsJson parsed) =>
          if isFresh s now (CachedMetadataItems.ts parsed) then Some parsed else None
      | _ => None
      end
  | None => None
  end.

(** The text written by [saveMetadataItemsToDisk]:
    [JSON.stringify({ ...cache, ts: Date.now() }, null, 2)]. *)
Definition itemsFileText (now : Z) (cache : CachedMetadataItems.t) : FileData :=
  ItemsJson (CachedMetadataItems.mk (CachedMetadataItems.orgId cache)
               (CachedMetadataItems.metadataType cache)
               (CachedMetadataItems.items cache) (Some now)).

Definition withDisk (s : Store) (d : gmap string (gmap string FileData)) : Store :=
  mkStore (TTL_MS s) (metadataTypesCache s) (metadataItemsCache s) (cacheDirectory s) d.

Definition withItemsCache (s : Store) (m : gmap string CachedMetadataItems.t) : Store :=
  mkStore (TTL_MS s) (metadataTypesCache s) m (cacheDirectory s) (disk s).

(** The synchronous part of [saveMetadataItemsToDisk(cache)]: the path and
    the text handed to [writeFile]; [None] when computing the path threw. *)
Definition pendingWrite (s : Store) (now : Z) (cache : CachedMetadataItems.t)
  : option (Path * FileData) :=
  cachePath ← getMetadataItemsCachePath s (CachedMetadataItems.orgId cache)
                (CachedMetadataItems.metadataType cache);
  Some (cachePath, itemsFileText now cache).

(** The write itself; a failure is logged and changes nothing. *)
Definition completeWrite (write : option (Path * FileData)) (s : Store) : Store :=
  match write with
  | Some (cachePath, text) =>
      match Fs.writeFile cachePath text (disk s) with
      | Some d => withDisk s d
      | None => s
      end
  | None => s
  end.

(** [await saveMetadataItemsToDisk(cache)] taken in one step. *)
Definition saveMetadataItemsToDisk (s : Store) (now : Z) (cache : CachedMetadataItems.t)
  : Store :=
  completeWrite (pendingWrite s now cache) s.

(** The key of the memory tier: [`${currentOrgId}:${metadataType}`]. *)
Definition cacheKeyOf (orgId metadataType : string) : string :=
  orgId ++ ":" ++ metadataType.

(** The write path of [getMetadataItems], lines 508-517: the entry goes
    into the memory tier and is saved to disk. *)
Definition cacheItems (s : Store) (now : Z) (orgId metadataType : string)
    (items : list MetadataItem) : Store :=
  let cacheData := CachedMetadataItems.mk orgId metadataType items (Some now) in
  saveMetadataItemsToDisk
    (withItemsCache s (<[cacheKeyOf orgId metadataType := cacheData]> (metadataItemsCache s)))
    now cacheData.

(** [Math.min(30, Math.max(1, Number(config.get('cacheTtlDays', 30))))] *)
Definition ttlDays (config : Config) : Z :=
  Z.min 30 (Z.max 1 (default 30 (cacheTtlDays config))).

(** [Boolean(config.get('enableCache', true))] *)
Definition cachingEnabledIn (config : Config) : bool :=
  default true (enableCache config).

Definition isCacheFile (f : string) : bool :=
  JsString.startsWith "metadata-types-" f || JsString.startsWith "metadata-items-" f.

Definition applyConfigSettings (config : Config) (s : Store) : Store :=
  let days := ttlDays config in
  let ttl := days * 24 * 60 * 60 * 1000 in
  if cachingEnabledIn config then
    mkStore ttl (metadataTypesCache s) (metadataItemsCache s) (cacheDirectory s) (disk s)
  else
    mkStore ttl None ∅ (cacheDirectory s)
      (match cacheDirectory s with
       | Some dir =>
           if JsString.nonEmpty dir && Fs.existsDir dir (disk s)
           then Fs.unlinkWhere isCacheFile dir (Fs.readdir dir (disk s)) (disk s)
           else disk s
       | None => disk s
       end).

(** The files that [deleteItemsCache] unlinks. *)
Definition isItemsFileOf (currentOrgId : string) (file : string) : bool :=
  JsString.startsWith ("metadata-items-" ++ currentOrgId ++ "-") file
  && JsString.endsWith ".json" file.

(** [deleteItemsCache], with the organisation that [getCurrentOrgId]
    resolved; the awaits of the command are taken in one step. The first
    loop runs over the entries of [metadataItemsCache] (deleting the entry
    under the iterator is safe for a [Map]), the second over the listing of
    the cache directory. *)
Definition deleteItemsCache (currentOrgId : option string) (s : Store) : Store :=
  match currentOrgId with
  | Some org =>
      if JsString.nonEmpty org then
        let mem := foldl (fun acc entry =>
                            if String.eqb (CachedMetadataItems.orgId entry.2) org
                            then delete entry.1 acc else acc)
                     (metadataItemsCache s) (map_to_list (metadataItemsCache s)) in
        mkStore (TTL_MS s) (metadataTypesCache s) mem (cacheDirectory s)
          (match cacheDirectory s with
           | Some dir =>
               if Fs.existsDir dir (disk s)
               then Fs.unlinkWhere (isItemsFileOf org) dir (Fs.readdir dir (disk s)) (disk s)
               else disk s
           | None => disk s
           end)
      else s
  | None => s
  end.

(** ** The event loop around [getMetadataItems] *)

(** How a promise of item lists settles. *)
Inductive Outcome : Type :=
| Fulfilled (items : list MetadataItem)
| Rejected (e : SfCliError).

(** Where the asynchronous body behind [fetchPromise] stands. *)
Inductive FetchState : Type :=
| Spawned
| Saving (items : list MetadataItem) (write : option (Path * FileData))
| Finished (o : Outcome).

(** One [fetchPromise] with what its closure captured. Every record is one
    invocation of [sf org list metadata -m <type>]. *)
Record Fetch : Type := mkFetch {
  fetchKey : option string;
  fetchOrg : option string;
  fetchType : string;
  fetchCaching : bool;
  fetchOwner : nat;
  fetchState : FetchState
}.

(** What a call returned: a list from the memory tier or from disk, or the
    outcome of a [fetchPromise]. *)
Inductive Source : Type :=
| Memory
| Disk
| Promise (p : nat).

(** Where one activation of [getMetadataItems] is suspended. *)
Inductive Phase : Type :=
| ResolvingOrg
| LoadingDisk (org : string) (existed : bool)
| Awaiting (key : option string) (p : nat) (owner : bool)
| Returned (src : Source) (o : Outcome).

Record Call : Type := mkCall {
  callType : string;
  callCaching : bool;
  callPhase : Phase
}.

(** The process: the store, the settings, the map [inflightItems] from
    cache keys to promises, the promises and calls made so far, and the
    clock. A promise is named by its position in [fetches]. *)
Record World : Type := mkWorld {
  store : Store;
  config : Config;
  inflightItems : gmap string nat;
  fetches : list Fetch;
  calls : list Call;
  clock : Z
}.

Inductive Event : Type :=
| Invoke (metadataType : string)
| OrgResolved (i : nat) (org : option string)
| DiskLoaded (i : nat)
| ProcessClosed (p : nat) (r : SfCliError + option (list MetadataItem))
| Saved (p : nat)
| Resumed (i : nat)
| Tick (ms : N)
| ConfigChanged (c : Config).

Definition setPhase (i : nat) (c : Call) (ph : Phase) (w : World) : World :=
  mkWorld (store w) (config w) (inflightItems w) (fetches w)
    (<[i := mkCall (callType c) (callCaching c) ph]> (calls w)) (clock w).

Definition setFetch (p : nat) (f : Fetch) (st : FetchState) (s : Store) (w : World) : World :=
  mkWorld s (config w) (inflightItems w)
    (<[p := mkFetch (fetchKey f) (fetchOrg f) (fetchType f) (fetchCaching f)
              (fetchOwner f) st]> (fetches w))
    (calls w) (clock w).

(** The synchronous segments of [getMetadataItems], in the order of the
    source. *)
Module getMetadataItems.

(** [currentOrgId ? `${currentOrgId}:${metadataType}` : undefined] *)
Definition cacheKeyFor (org : option string) (metadataType : string) : option string :=
  match org with
  | Some o => if JsString.nonEmpty o then Some (cacheKeyOf o metadataType) else None
  | None => None
  end.

(** Lines 502-522 of [getMetadataItems], one synchronous segment: return
    the promise in flight for the key, or start the fetch and, with caching
    enabled, enter it in [inflightItems]. *)
Definition startOrJoin (i : nat) (c : Call) (org : option string) (key : option string)
    (w : World) : World :=
  match key ≫= (fun k => inflightItems w !! k) with
  | Some p => setPhase i c (Awaiting key p false) w
  | None =>
      let p := length (fetches w) in
      mkWorld (store w) (config w)
        (match key with
         | Some k => if callCaching c then <[k := p]> (inflightItems w) else inflightItems w
         | None => inflightItems w
         end)
        (fetches w ++ [mkFetch key org (callType c) (callCaching c) i Spawned])
        (<[i := mkCall (callType c) (callCaching c) (Awaiting key p true)]> (calls w))
        (clock w)
  end.

(** Lines 490-491: the entry of the memory tier, when present and fresh. *)
Definition memoryHit (s : Store) (now : Z) (key : string) : option (list MetadataItem) :=
  match metadataItemsCache s !! key with
  | Some cached =>
      if isFresh s now (CachedMetadataItems.ts cached)
      then Some (CachedMetadataItems.items cached) else None
  | None => None
  end.

(** The synchronous part of [loadMetadataItemsFromDisk]: whether
    [fs.existsSync(cachePath)] held, so that the file is then read. *)
Definition diskFileExists (s : Store) (orgId metadataType : string) : bool :=
  match getMetadataItemsCachePath s orgId metadataType with
  | Some cachePath => Fs.existsSync cachePath (disk s)
  | None => false
  end.

(** Lines 485-494, from the resumption with the organisation to the next
    [await]. *)
Definition afterOrg (i : nat) (c : Call) (org : option string) (w : World) : World :=
  match cacheKeyFor org (callType c), org with
  | Some key, Some o =>
      if callCaching c then
        match memoryHit (store w) (clock w) key with
        | Some items => setPhase i c (Returned Memory (Fulfilled items)) w
        | None =>
            setPhase i c (LoadingDisk o (diskFileExists (store w) o (callType c))) w
        end
      else startOrJoin i c org (Some key) w
  | key, _ => startOrJoin i c org key w
  end.

(** Lines 494-499 from the resumption after the disk load. *)
Definition afterDisk (i : nat) (c : Call) (o : string) (existed : bool) (w : World) : World :=
  let key := cacheKeyOf o (callType c) in
  match (if existed
         then loadMetadataItemsFromDisk (store w) (clock w) o (callType c)
         else None) with
  | Some diskCache =>
      setPhase i c (Returned Disk (Fulfilled (CachedMetadataItems.items diskCache)))
        (mkWorld (withItemsCache (store w) (<[key := diskCache]> (metadataItemsCache (store w))))
           (config w) (inflightItems w) (fetches w) (calls w) (clock w))
  | None => startOrJoin i c (Some o) (Some key) w
  end.

(** Lines 505-519: the body behind [fetchPromise] once [runSfJson] has
    settled, up to the [await] of the save. *)
Definition afterProcess (p : nat) (f : Fetch)
    (r : SfCliError + option (list MetadataItem)) (w : World) : World :=
  match r with
  | inl e => setFetch p f (Finished (Rejected e)) (store w) w
  | inr result =>
      let items := default [] result in
      match fetchKey f, fetchOrg f with
      | Some key, Some o =>
          if fetchCaching f then
            let cacheData := CachedMetadataItems.mk o (fetchType f) items (Some (clock w)) in
            let s := withItemsCache (store w)
                       (<[key := cacheData]> (metadataItemsCache (store w))) in
            setFetch p f (Saving items (pendingWrite s (clock w) cacheData)) s w
          else setFetch p f (Finished (Fulfilled items)) (store w) w
      | _, _ => setFetch p f (Finished (Fulfilled items)) (store w) w
      end
  end.

(** Lines 523-527: the owner resumes from [await fetchPromise] and runs the
    [finally]; a call that returned the promise in flight resumes with its
    outcome. *)
Definition afterFetch (i : nat) (c : Call) (key : option string) (p : nat) (owner : bool)
    (o : Outcome) (w : World) : World :=
  let w' := setPhase i c (Returned (Promise p) o) w in
  match key with
  | Some k =>
      if owner && callCaching c
      then mkWorld (store w') (config w') (delete k (inflightItems w'))
             (fetches w') (calls w') (clock w')
      else w'
  | None => w'
  end.

End getMetadataItems.

Import getMetadataItems.

(** One event; [None] when the event cannot happen in this world. *)
Definition step (e : Event) (w : World) : option World :=
  match e with
  | Invoke metadataType =>
      Some (mkWorld (store w) (config w) (inflightItems w) (fetches w)
              (calls w ++ [mkCall metadataType (cachingEnabledIn (config w)) ResolvingOrg])
              (clock w))
  | OrgResolved i org =>
      c ← calls w !! i;
      match callPhase c with
      | ResolvingOrg => Some (afterOrg i c org w)
      | _ => None
      end
  | DiskLoaded i =>
      c ← calls w !! i;
      match callPhase c with
      | LoadingDisk o existed => Some (afterDisk i c o existed w)
      | _ => None
      end
  | ProcessClosed p r =>
      f ← fetches w !! p;
      match fetchState f with
      | Spawned => Some (afterProcess p f r w)
      | _ => None
      end
  | Saved p =>
      f ← fetches w !! p;
      match fetchState f with
      | Saving items write =>
          Some (setFetch p f (Finished (Fulfilled items)) (completeWrite write (store w)) w)
      | _ => None
      end
  | Resumed i =>
      c ← calls w !! i;
      match callPhase c with
      | Awaiting key p owner =>
          f ← fetches w !! p;
          match fetchState f with
          | Finished o => Some (afterFetch i c key p owner o w)
          | _ => None
          end
      | _ => None
      end
  | Tick ms =>
      Some (mkWorld (store w) (config w) (inflightItems w) (fetches w) (calls w)
              (clock w + Z.of_N ms))
  | ConfigChanged c =>
      Some (mkWorld (applyConfigSettings c (store w)) c (inflightItems w) (fetches w)
              (calls w) (clock w))
  end.

Fixpoint run (events : list Event) (w : World) : option World :=
  match events with
  | [] => Some w
  | e :: rest =>
      match step e w with
      | Some w' => run rest w'
      | None => None
      end
  end.

(** A process in which [getMetadataItems] has not been called yet. *)
Definition idle (s : Store) (c : Config) (now : Z) : World :=
  mkWorld s c ∅ [] [] now.

(** The promise has not settled. *)
Definition pending (f : Fetch) : Prop := ∀ o, fetchState f ≠ Finished o.

(** The configured number of days clamped to the range from 1 to 30. *)
Definition clampedDays (config : Config) : Z :=
  match cacheTtlDays config with
  | None => 30
  | Some v => if v <? 1 then 1 else if 30 <? v then 30 else v
  end.

(** ** Sample data used by the examples *)

(** An item with a name only. *)
Definition item (name : string) : MetadataItem :=
  {| fullName := name; fileName := None; type := None; createdDate := None |}.

(** An item-list entry written at the given time. *)
Definition entry (org metadataType : string) (written : Z) : CachedMetadataItems.t :=
  CachedMetadataItems.mk org metadataType [item "Foo"] (Some written).

(** The default settings, and settings with caching switched off. *)
Definition cacheOn : Config := {| cacheTtlDays := None; enableCache := None |}.
Definition cacheOff : Config := {| cacheTtlDays := Some 7; enableCache := Some false |}.

(** A store whose cache directory exists and is empty. *)
Definition emptyStore : Store :=
  mkStore TTL_MS_initial None ∅ (Some "/storage/cache") {["/storage/cache" := ∅]}.

(** Organisation 00Dxx has item-list files for the types A and B on disk
    and the entry of type A in memory; another organisation has the entry
    of type C in memory. *)
Definition twoOrgStore : Store :=
  mkStore TTL_MS_initial
    (Some (CachedMetadataTypes.mk "00Dxx" [] (Some 5)))
    (<["00Dxx:A" := entry "00Dxx" "A" 5]> (<["00Dyy:C" := entry "00Dyy" "C" 5]> ∅))
    (Some "/storage/cache")
    {["/storage/cache" :=
        <["metadata-items-00Dxx-A.json" := ItemsJson (entry "00Dxx" "A" 5)]>
        (<["metadata-items-00Dxx-B.json" := ItemsJson (entry "00Dxx" "B" 5)]>
        (<["metadata-types-00Dxx.json" := TypesJson (CachedMetadataTypes.mk "00Dxx" [] (Some 5))]>
        (<["notes.txt" := NotJson "keep"]> ∅)))]}.

(** ** Definitions used by the statements *)

(** The payload of the scenario of the rejected type. *)
Definition invalidType : JsValue :=
  VObj [("status", VNum 1); ("message", VStr "INVALID_TYPE"); ("code", VStr "INVALID_TYPE")].

(** A retrieval payload with status 0 and one failed file. *)
Definition failedRetrieve : JsValue :=
  VObj [("status", VNum 0);
        ("result",
         VObj [("files",
                VArr [VObj [("filePath", VStr "force-app/main/default/classes/Foo.cls");
                            ("state", VStr "Failed"); ("error", VStr "E1");
                            ("fullName", VStr "Foo"); ("type", VStr "ApexClass")]])])].

(** The text that stands for one entry of [result.messages] in the joined
    message: its problem, else its message, else the entry converted to a
    string. *)
Definition entryLabel (m : JsValue) : string :=
  match Js.optGet "problem" m, Js.optGet "message" m with
  | VStr (String a p), _ => String a p
  | _, VStr (String a t) => String a t
  | _, _ => "[object Object]"
  end.

(** An entry as the payload type describes it: an object whose problem and
    message, when present, are strings. *)
Definition plainEntry (m : JsValue) : Prop :=
  ∃ fields, m = VObj fields
            ∧ Js.hasOwn "toString" fields = false
            ∧ (Js.optGet "problem" m = VUndef ∨ ∃ p, Js.optGet "problem" m = VStr p)
            ∧ (Js.optGet "message" m = VUndef ∨ ∃ t, Js.optGet "message" m = VStr t).

(** Result messages whose first entry has a problem. *)
Definition problemFirst : JsValue :=
  VObj [("result", VObj [("messages",
          VArr [VObj [("fileName", VStr "Foo.cls"); ("problem", VStr "Not found")];
                VObj [("problem", VStr "Other")]])])].

(** Result messages without any problem. *)
Definition noProblems : JsValue :=
  VObj [("result", VObj [("messages",
          VArr [VObj [("message", VStr "first")]; VObj [("fileName", VStr "x")]])])].

(** The call has not reached line 502 yet. *)
Definition beforeFetch (ph : Phase) : Prop :=
  match ph with
  | ResolvingOrg | LoadingDisk _ _ => True
  | _ => False
  end.

(** The phase refers to no promise. *)
Definition promiseFree (ph : Phase) : Prop :=
  match ph with
  | Awaiting _ _ _ | Returned (Promise _) _ => False
  | _ => True
  end.

(** What ties [inflightItems], the promises and the calls together: the
    call that created a promise either still awaits it, and then the
    promise is the one entered under its key when caching was enabled, or
    has returned its outcome; an awaited promise exists and has the key of
    the call; a returned outcome is the settled outcome of its promise;
    [inflightItems] only names promises of the key. *)
Record Coherent (inflight : gmap string nat) (fs : list Fetch) (cs : list Call) : Prop := {
  coh_owner : ∀ p f, fs !! p = Some f →
    ∃ c, cs !! fetchOwner f = Some c ∧ callCaching c = fetchCaching f
         ∧ ((callPhase c = Awaiting (fetchKey f) p true
             ∧ ∀ k, fetchKey f = Some k → fetchCaching f = true → inflight !! k = Some p)
            ∨ ∃ o, callPhase c = Returned (Promise p) o ∧ fetchState f = Finished o);
  coh_awaiting : ∀ i c key p b, cs !! i = Some c → callPhase c = Awaiting key p b →
    ∃ f, fs !! p = Some f ∧ fetchKey f = key ∧ (b = true → fetchOwner f = i);
  coh_returned : ∀ i c p o, cs !! i = Some c → callPhase c = Returned (Promise p) o →
    ∃ f, fs !! p = Some f ∧ fetchState f = Finished o;
  coh_inflight : ∀ k p, inflight !! k = Some p →
    ∃ f, fs !! p = Some f ∧ fetchKey f = Some k
}.

(** The invariant of the event loop. *)
Definition coherent (w : World) : Prop :=
  Coherent (inflightItems w) (fetches w) (calls w).

(** A call that awaits a promise keeps awaiting it until it returns the
    outcome of that very promise. *)
Definition servedBy (key : option string) (p : nat) (ph : Phase) : Prop :=
  (∃ b, ph = Awaiting key p b) ∨ (∃ o, ph = Returned (Promise p) o).

(** The call that created the promise has not resumed from its [await],
    so the entry of the key is still in [inflightItems]. *)
Definition unreleased (w : World) (p : nat) (f : Fetch) : Prop :=
  ∃ c, calls w !! fetchOwner f = Some c ∧ callPhase c = Awaiting (fetchKey f) p true.

(** Three calls for one type reach line 502 while the first fetch is in
    flight. *)
Definition threeCalls : list Event :=
  [Invoke "ApexClass"; Invoke "ApexClass"; Invoke "ApexClass";
   OrgResolved 0 (Some "00Dxx"); OrgResolved 1 (Some "00Dxx");
   DiskLoaded 0; DiskLoaded 1; OrgResolved 2 (Some "00Dxx"); DiskLoaded 2].

(** The process after [threeCalls]: three calls await one promise. *)
Definition threeWaiting : World :=
  default (idle emptyStore cacheOn 1000) (run threeCalls (idle emptyStore cacheOn 1000)).

(** The process ends with a list, the save completes, the calls resume. *)
Definition thenSettle : list Event :=
  [ProcessClosed 0 (inr (Some [item "Foo"])); Saved 0; Resumed 1; Resumed 0; Resumed 2].

(** The rejection of [runSfJson] when sf exits 1 without JSON output. *)
Definition listFailed : SfCliError :=
  {| message := "sf org list metadata -m ApexClass failed with exit 1";
     codeStr := VUndef; context := VUndef; status := VUndef;
     exitCode := VNum 1; stderr := Some ""; rawJson := VUndef |}.

(** The second call is still resolving the organisation when the fetch of
    the first is rejected and released. *)
Definition lateSecondCall : list Event :=
  [Invoke "ApexClass"; Invoke "ApexClass";
   OrgResolved 0 (Some "00Dxx"); DiskLoaded 0;
   ProcessClosed 0 (inl listFailed); Resumed 0;
   OrgResolved 1 (Some "00Dxx"); DiskLoaded 1;
   ProcessClosed 1 (inr (Some [item "Foo"])); Saved 1; Resumed 1].

(** Caching is switched off while a fetch is in flight, and the type is
    asked for again. *)
Definition disabledMeanwhile : list Event :=
  [Invoke "ApexClass"; OrgResolved 0 (Some "00Dxx"); DiskLoaded 0;
   ConfigChanged cacheOff;
   Invoke "ApexClass"; OrgResolved 1 (Some "00Dxx")].

(** ** Further functions of the module *)

(** *** Type catalogue partition *)

Definition withTypesCache (s : Store) (c : option CachedMetadataTypes.t) : Store :=
  mkStore (TTL_MS s) c (metadataItemsCache s) (cacheDirectory s) (disk s).

(** [loadMetadataTypesFromDisk]; [None] is its [null]. The file is read
    and parsed as a type-catalogue entry, as its type annotation says. The
    code does not check the shape: from a file that holds an item-list
    entry it returns that object as it is, which the typed entries of this
    embedding cannot express; the load is exact on the stores in which the
    catalogue file of the organisation holds a catalogue entry or text that
    does not parse ([typesFileWellShaped]). *)
Definition loadMetadataTypesFromDisk (s : Store) (now : Z) (orgId : string)
  : option CachedMetadataTypes.t :=
  match getMetadataTypesCachePath s orgId with
  | Some cachePath =>
      match Fs.readFile cachePath (disk s) with
      | Some (TypesJson parsed) =>
          if isFresh s now (CachedMetadataTypes.ts parsed) then Some parsed else None
      | _ => None
      end
  | None => None
  end.

(** [saveMetadataTypesToDisk(cache)]: the text is
    [JSON.stringify({ ...cache, ts: Date.now() }, null, 2)]; a failure is
    logged and changes nothing. *)
Definition saveMetadataTypesToDisk (s : Store) (now : Z) (cache : CachedMetadataTypes.t)
  : Store :=
  match getMetadataTypesCachePath s (CachedMetadataTypes.orgId cache) with
  | Some cachePath =>
      match Fs.writeFile cachePath
              (TypesJson (CachedMetadataTypes.mk (CachedMetadataTypes.orgId cache)
                            (CachedMetadataTypes.metadataTypes cache) (Some now)))
              (disk s) with
      | Some d => withDisk s d
      | None => s
      end
  | None => s
  end.

(** What one call of [getMetadataTypes] did: what it returned or threw,
    whether it invoked [sf org list metadata-types], and the store it
    left. *)
Record TypesCall : Type := mkTypesCall {
  typesResult : SfCliError + list MetadataType;
  typesInvoked : bool;
  typesStore : Store
}.

(** [getMetadataTypes(useCache, token)] with the organisation that
    [getCurrentOrgId] resolved. [now] is the time of the cache lookups,
    [fetched] how [runSfJson] settles when it is invoked (a rejection, or
    [json.result?.metadataObjects]) and [later] the time at which it does:
    the two readings of [Date.now()] after the fetch, for the memory entry
    and for the file, are taken to be the same. The awaits of the call are
    taken in one step: nothing else touches the store in between. *)
Definition getMetadataTypes (useCache : bool) (config : Config) (org : option string)
    (now : Z) (fetched : SfCliError + option (list MetadataType)) (later : Z) (s : Store)
  : TypesCall :=
  let cachingEnabled := cachingEnabledIn config in
  let useCache := useCache && cachingEnabled in
  let currentOrgId := match org with
                      | Some o => if JsString.nonEmpty o then Some o else None
                      | None => None
                      end in
  let fetch (s1 : Store) : TypesCall :=
    match fetched with
    | inl e => mkTypesCall (inl e) true s1
    | inr metadataObjects =>
        let types := default [] metadataObjects in
        match currentOrgId with
        | Some o =>
            if cachingEnabled then
              let cache := CachedMetadataTypes.mk o types (Some later) in
              mkTypesCall (inr types) true
                (saveMetadataTypesToDisk (withTypesCache s1 (Some cache)) later cache)
            else mkTypesCall (inr types) true s1
        | None => mkTypesCall (inr types) true s1
        end
    end in
  match currentOrgId with
  | Some o =>
      if useCache then
        match metadataTypesCache s with
        | Some cached =>
            if String.eqb (CachedMetadataTypes.orgId cached) o
               && isFresh s now (CachedMetadataTypes.ts cached)
            then mkTypesCall (inr (CachedMetadataTypes.metadataTypes cached)) false s
            else
              match loadMetadataTypesFromDisk s now o with
              | Some diskCache =>
                  mkTypesCall (inr (CachedMetadataTypes.metadataTypes diskCache)) false
                    (withTypesCache s (Some diskCache))
              | None => fetch s
              end
        | None =>
            match loadMetadataTypesFromDisk s now o with
            | Some diskCache =>
                mkTypesCall (inr (CachedMetadataTypes.metadataTypes diskCache)) false
                  (withTypesCache s (Some diskCache))
            | None => fetch s
            end
        end
      else fetch s
  | None => fetch s
  end.

(** [deleteTypesCache], with the organisation that [getCurrentOrgId]
    resolved; when the path cannot be computed the memory entry is already
    cleared. *)
Definition deleteTypesCache (currentOrgId : option string) (s : Store) : Store :=
  match currentOrgId with
  | Some org =>
      if JsString.nonEmpty org then
        let mem := match metadataTypesCache s with
                   | Some cached =>
                       if String.eqb (CachedMetadataTypes.orgId cached) org
                       then None else Some cached
                   | None => None
                   end in
        mkStore (TTL_MS s) mem (metadataItemsCache s) (cacheDirectory s)
          (match getMetadataTypesCachePath s org with
           | Some cachePath =>
               if Fs.existsSync cachePath (disk s)
               then Fs.unlink cachePath (disk s) else disk s
           | None => disk s
           end)
      else s
  | None => s
  end.

(** *** Start-up *)

(** [initializeCacheDirectory(context)]; [dir] is the value of
    [path.join(context.globalStorageUri.fsPath, 'cache')]. *)
Definition initializeCacheDirectory (dir : string) (s : Store) : Store :=
  mkStore (TTL_MS s) (metadataTypesCache s) (metadataItemsCache s) (Some dir)
    (if bool_decide (is_Some (disk s !! dir)) then disk s else <[dir := ∅]> (disk s)).

(** One round of the loop of [loadAllCachesFromDisk]: the memory tier
    after the file [file] of [dir] was considered. A file whose text does
    not parse is skipped. The code does not check the shape of what it
    parsed: the round is exact on the stores of [itemFilesWellShaped],
    where a file named [metadata-items-...json] does not hold a catalogue
    entry. *)
Definition loadCacheFile (s : Store) (now : Z) (dir : string)
    (mem : gmap string CachedMetadataItems.t) (file : string)
  : gmap string CachedMetadataItems.t :=
  if JsString.startsWith "metadata-items-" file && JsString.endsWith ".json" file then
    match Fs.readFile (dir, file) (disk s) with
    | Some (ItemsJson cache) =>
        if isFresh s now (CachedMetadataItems.ts cache)
        then <[cacheKeyOf (CachedMetadataItems.orgId cache)
                 (CachedMetadataItems.metadataType cache) := cache]> mem
        else mem
    | _ => mem
    end
  else mem.

(** [loadAllCachesFromDisk()], its awaits taken in one step. *)
Definition loadAllCachesFromDisk (now : Z) (s : Store) : Store :=
  match cacheDirectory s with
  | Some dir =>
      if Fs.existsDir dir (disk s)
      then withItemsCache s
             (foldl (loadCacheFile s now dir) (metadataItemsCache s)
                (Fs.readdir dir (disk s)))
      else s
  | None => s
  end.

(** The module as it is loaded: the initial values of its globals. *)
Definition loaded (d : gmap string (gmap string FileData)) : Store :=
  mkStore TTL_MS_initial None ∅ None d.

(** What [activate] does to the store: [applyConfigSettings()], then
    [initializeCacheDirectory(context)], then [loadAllCachesFromDisk()]. *)
Definition activate (config : Config) (dir : string) (now : Z) (s : Store) : Store :=
  loadAllCachesFromDisk now (initializeCacheDirectory dir (applyConfigSettings config s)).

(** *** Identity resolver *)

(** An entry of [SfConfigGet.result]. *)
Module SfConfigEntry.
Record t : Type := mk {
  name : string;
  value : option string
}.
End SfConfigEntry.

(** An entry of [SfAuthList.result]. *)
Module SfAuth.
Record t : Type := mk {
  alias : option string;
  username : string;
  orgId : string
}.
End SfAuth.

(** [r.alias === aliasOrUsername || r.username === aliasOrUsername] *)
Definition authMatches (aliasOrUsername : string) (r : SfAuth.t) : bool :=
  match SfAuth.alias r with
  | Some a => String.eqb a aliasOrUsername
  | None => false
  end
  || String.eqb (SfAuth.username r) aliasOrUsername.

(** [getCurrentOrgId()] over the way its two [runSfJson] calls settle: a
    rejection, or the [result] of the payload ([None] when it has none).
    The second call is only made when a target is configured; every
    exception is caught and gives [null]. [cfg.result?.[0]?.value] is the
    value of the first entry. *)
Definition getCurrentOrgId (cfg : SfCliError + option (list SfConfigEntry.t))
    (auth : SfCliError + option (list SfAuth.t)) : option string :=
  match cfg with
  | inl _ => None
  | inr result =>
      match match result with
            | Some (first :: _) => SfConfigEntry.value first
            | _ => None
            end with
      | Some aliasOrUsername =>
          if JsString.nonEmpty aliasOrUsername then
            match auth with
            | inl _ => None
            | inr None => None
            | inr (Some records) =>
                SfAuth.orgId <$> List.find (authMatches aliasOrUsername) records
            end
          else None
      | None => None
      end
  end.

(** *** The file opened after a retrieval *)

(** [files.find(f => !f.filePath.endsWith('-meta.xml'))]; [None] is the
    [TypeError] of a file whose [filePath] is not a string. *)
Fixpoint findNonMeta (files : list JsValue) : option (option JsValue) :=
  match files with
  | [] => Some None
  | f :: rest =>
      match Js.get "filePath" f with
      | Some (VStr filePath) =>
          if JsString.endsWith "-meta.xml" filePath then findNonMeta rest else Some (Some f)
      | _ => None
      end
  end.

(** The [filePath] that [retrieveSelectedFile] goes on to resolve and
    open: with [autoOpen], that of the first file that is not a
    [-meta.xml] file, else of the first file, when it is truthy. *)
Definition fileToOpen (autoOpen : bool) (result : JsValue) : option (option JsValue) :=
  if autoOpen then
    inner ← Js.get "result" result;
    files ← match Js.optGet "files" inner with
            | VUndef | VNull => Some []
            | VArr l => Some l
            | _ => None
            end;
    found ← findNonMeta files;
    let first := default (default VUndef (head files)) found in
    Some (if Js.truthy (Js.optGet "filePath" first)
          then Some (Js.optGet "filePath" first) else None)
  else Some None.

(** The file [f] is a [-meta.xml] file. *)
Definition isMetaFile (f : JsValue) : Prop :=
  ∃ filePath, Js.optGet "filePath" f = VStr filePath
              ∧ JsString.endsWith "-meta.xml" filePath = true.

(** *** Statements about the start-up load *)

(** The file [file] of the directory [dir] is one that
    [loadAllCachesFromDisk] takes into memory at time [now]: it is named
    [metadata-items-...json] and holds the item-list entry [c], which is
    fresh. *)
Definition loadsFrom (s : Store) (now : Z) (dir file : string)
    (c : CachedMetadataItems.t) : Prop :=
  JsString.startsWith "metadata-items-" file = true
  ∧ JsString.endsWith ".json" file = true
  ∧ Fs.readFile (dir, file) (disk s) = Some (ItemsJson c)
  ∧ isFresh s now (CachedMetadataItems.ts c) = true.

(** No file of [dir] named [metadata-items-...json] holds a catalogue
    entry: each holds an item-list entry or text that does not parse. *)
Definition itemFilesWellShaped (s : Store) (dir : string) : bool :=
  forallb (fun file =>
             if JsString.startsWith "metadata-items-" file
                && JsString.endsWith ".json" file
             then match Fs.readFile (dir, file) (disk s) with
                  | Some (TypesJson _) => false
                  | _ => true
                  end
             else true)
    (Fs.readdir dir (disk s)).

(** The catalogue file of the organisation, if there is one, does not
    hold an item-list entry: it holds a catalogue entry or text that does
    not parse. *)
Definition typesFileWellShaped (s : Store) (org : option string) : bool :=
  match org with
  | Some o =>
      match getMetadataTypesCachePath s o with
      | Some cachePath =>
          match Fs.readFile cachePath (disk s) with
          | Some (ItemsJson _) => false
          | _ => true
          end
      | None => true
      end
  | None => true
  end.

(** The key under which [loadAllCachesFromDisk] enters an entry. *)
Definition keyOfEntry (c : CachedMetadataItems.t) : string :=
  cacheKeyOf (CachedMetadataItems.orgId c) (CachedMetadataItems.metadataType c).

(** *** Statements about the event loop *)

(** Every entry of [inflightItems] names a promise of its key whose
    creating call, made with caching enabled, still awaits it. *)
Definition registered (w : World) : Prop :=
  ∀ k p, inflightItems w !! k = Some p →
    ∃ f c, fetches w !! p = Some f ∧ fetchKey f = Some k
           ∧ calls w !! fetchOwner f = Some c
           ∧ callCaching c = true
           ∧ callPhase c = Awaiting (Some k) p true.

(** The call [i] in phase [ph] has read no cache and shares no promise:
    past the resolution of the organisation it awaits, or has returned the
    outcome of, a promise that it created itself. *)
Definition servedByOwnFetch (fs : list Fetch) (i : nat) (ph : Phase) : Prop :=
  match ph with
  | ResolvingOrg => True
  | LoadingDisk _ _ => False
  | Awaiting _ p owner => owner = true ∧ ∃ f, fs !! p = Some f ∧ fetchOwner f = i
  | Returned (Promise p) _ => ∃ f, fs !! p = Some f ∧ fetchOwner f = i
  | Returned _ _ => False
  end.

(** The settings do not change during the run. *)
Definition settingsKept (events : list Event) : bool :=
  forallb (fun e => match e with ConfigChanged _ => false | _ => true end) events.

(** The process of a run in which caching has been disabled from the
    start: the store is [s], nothing is in flight, and no call or promise
    was made with caching enabled. *)
Definition uncached (s : Store) (cfg : Config) (w : World) : Prop :=
  config w = cfg ∧ store w = s ∧ inflightItems w = ∅
  ∧ (∀ i c, calls w !! i = Some c →
       callCaching c = false ∧ servedByOwnFetch (fetches w) i (callPhase c))
  ∧ (∀ p f, fetches w !! p = Some f →
       fetchCaching f = false ∧ ∀ items write, fetchState f ≠ Saving items write).

(** * Theorems *)

(** ** Freshness *)

Lemma isFresh_true (s : Store) (now : Z) (ts : option Z) :
  isFresh s now ts = true ↔
  ts = None ∨ ts = Some 0 ∨ ∃ t, ts = Some t ∧ now - t < TTL_MS s.
Proof.
  unfold isFresh. destruct ts as [t|].
  - destruct (Z.eqb_spec t 0) as [->|Hne].
    + split; [intros _; right; left; reflexivity | reflexivity].
    + rewrite Z.ltb_lt. split.
      * intros H. right; right. exists t. split; [reflexivity | exact H].
      * intros [H|[H|[t' [H ?]]]]; [discriminate | congruence | congruence].
  - split; [intros _; left; reflexivity | reflexivity].
Qed.

(** C2, as stated, fails: an entry whose recorded timestamp is 0 is fresh
    at every time, here 1700000000000 ms with the 30-day TTL, although
    [now - writtenAt >= TTL]. *)
Lemma isFresh_zero_timestamp_counterexample :
  ¬ (∀ (s : Store) (now : Z) (ts : option Z),
       isFresh s now ts = true ↔
       (ts = None ∨ ∃ writtenAt, ts = Some writtenAt ∧ now - writtenAt < TTL_MS s)).
Proof.
  intros H.
  destruct (H emptyStore 1700000000000 (Some 0)) as [H1 _].
  destruct (H1 eq_refl) as [H2|[t [H2 H3]]]; [discriminate|].
  injection H2 as <-. vm_compute in H3. discriminate.
Qed.

(** C2, amended: [isFresh] holds at time [now] exactly when the entry has
    no recorded write timestamp, or the recorded timestamp is 0, or
    [now - writtenAt < TTL]; an entry with a recorded timestamp other than 0
    is stale exactly when [now - writtenAt >= TTL]. *)
Theorem isFresh_iff (s : Store) (now : Z) (ts : option Z) :
  (isFresh s now ts = true ↔
   ts = None ∨ ts = Some 0 ∨ ∃ writtenAt, ts = Some writtenAt ∧ now - writtenAt < TTL_MS s)
  ∧ (∀ writtenAt, ts = Some writtenAt → writtenAt ≠ 0 →
       (isFresh s now ts = false ↔ TTL_MS s ≤ now - writtenAt)).
Proof.
  split; [apply isFresh_true|].
  intros t -> Hne. unfold isFresh.
  destruct (Z.eqb_spec t 0) as [?|_]; [contradiction|].
  rewrite Z.ltb_ge. reflexivity.
Qed.

Lemma isFresh_iff_witness :
  isFresh emptyStore 2592000999 (Some 1000) = true
  ∧ isFresh emptyStore 2592001000 (Some 1000) = false.
Proof.
  split.
  - apply (proj1 (isFresh_iff emptyStore 2592000999 (Some 1000))).
    right; right. exists 1000. split; [reflexivity | vm_compute; reflexivity].
  - apply (proj2 (isFresh_iff emptyStore 2592001000 (Some 1000)) 1000 eq_refl).
    + discriminate.
    + vm_compute. discriminate.
Defined.

(** ** Settings *)

Lemma ttlDays_clamped (config : Config) : ttlDays config = clampedDays config.
Proof.
  unfold ttlDays, clampedDays. destruct (cacheTtlDays config) as [v|]; simpl.
  - destruct (Z.ltb_spec v 1), (Z.ltb_spec 30 v); lia.
  - reflexivity.
Qed.

Lemma applyConfigSettings_TTL (config : Config) (s : Store) :
  TTL_MS (applyConfigSettings config s) = ttlDays config * 24 * 60 * 60 * 1000.
Proof. unfold applyConfigSettings. destruct (cachingEnabledIn config); reflexivity. Qed.

(** C7: after [applyConfigSettings] the TTL is [d] days, where [d] is the
    configured [cacheTtlDays] clamped to 1..30 (30 when unset); every later
    [isFresh] compares against that TTL, and with caching left enabled the
    stored entries are not touched. *)
Theorem applyConfigSettings_ttl_clamped (config : Config) (s : Store) :
  let s' := applyConfigSettings config s in
  let d := clampedDays config in
  1 ≤ d ≤ 30
  ∧ (cacheTtlDays config = None → d = 30)
  ∧ (∀ v, cacheTtlDays config = Some v → 1 ≤ v ≤ 30 → d = v)
  ∧ TTL_MS s' = d * (24 * 60 * 60 * 1000)
  ∧ (∀ now writtenAt, writtenAt ≠ 0 →
       (isFresh s' now (Some writtenAt) = true ↔
        now - writtenAt < d * (24 * 60 * 60 * 1000)))
  ∧ (cachingEnabledIn config = true →
       metadataItemsCache s' = metadataItemsCache s
       ∧ metadataTypesCache s' = metadataTypesCache s
       ∧ disk s' = disk s).
Proof.
  cbv zeta.
  assert (Httl : TTL_MS (applyConfigSettings config s)
                 = clampedDays config * (24 * 60 * 60 * 1000)).
  { rewrite applyConfigSettings_TTL, ttlDays_clamped. lia. }
  split; [|split; [|split; [|split; [|split]]]].
  - unfold clampedDays. destruct (cacheTtlDays config) as [v|]; [|lia].
    destruct (Z.ltb_spec v 1), (Z.ltb_spec 30 v); lia.
  - unfold clampedDays. intros ->. reflexivity.
  - unfold clampedDays. intros v -> Hv.
    destruct (Z.ltb_spec v 1), (Z.ltb_spec 30 v); lia.
  - exact Httl.
  - intros now writtenAt Hne. rewrite isFresh_true, Httl. split.
    + intros [Hf|[Hf|[t [Hf Hlt]]]]; [discriminate | congruence |].
      injection Hf as <-. exact Hlt.
    + intros Hlt. right; right. exists writtenAt. split; [reflexivity | exact Hlt].
  - intros Hon. unfold applyConfigSettings. rewrite Hon. repeat split.
Qed.

Lemma applyConfigSettings_ttl_clamped_witness :
  TTL_MS (applyConfigSettings {| cacheTtlDays := Some 45; enableCache := None |} twoOrgStore)
  = 30 * (24 * 60 * 60 * 1000)
  ∧ metadataItemsCache
      (applyConfigSettings {| cacheTtlDays := Some 45; enableCache := None |} twoOrgStore)
    = metadataItemsCache twoOrgStore.
Proof.
  pose proof (applyConfigSettings_ttl_clamped
                {| cacheTtlDays := Some 45; enableCache := None |} twoOrgStore) as H.
  cbv zeta in H. destruct H as (_ & _ & _ & Httl & _ & Hkeep).
  split; [exact Httl | exact (proj1 (Hkeep eq_refl))].
Defined.

(** ** The file system of the cache directory *)

Lemma startsWith_app (p rest : string) : JsString.startsWith p (p ++ rest) = true.
Proof.
  induction p as [|a p IH]; simpl; [reflexivity|].
  rewrite Ascii.eqb_refl. exact IH.
Qed.

Lemma string_app_assoc (s1 s2 s3 : string) : (s1 ++ s2) ++ s3 = s1 ++ s2 ++ s3.
Proof. induction s1 as [|a s1 IH]; [reflexivity | exact (f_equal (String a) IH)]. Qed.

Lemma rev_app_acc (s acc : string) : String.rev_app s acc = String.rev s ++ acc.
Proof.
  unfold String.rev. revert acc.
  induction s as [|a s IH]; intros acc; simpl; [reflexivity|].
  rewrite (IH (String a acc)), (IH (String a "")).
  rewrite string_app_assoc. reflexivity.
Qed.

Lemma rev_app_append (s1 s2 acc : string) :
  String.rev_app (s1 ++ s2) acc = String.rev_app s2 (String.rev_app s1 acc).
Proof.
  revert acc. induction s1 as [|a s1 IH]; intros acc; [reflexivity|].
  exact (IH (String a acc)).
Qed.

Lemma rev_app_string (s1 s2 : string) :
  String.rev (s1 ++ s2) = String.rev s2 ++ String.rev s1.
Proof.
  unfold String.rev at 1. rewrite rev_app_append, rev_app_acc. reflexivity.
Qed.

Lemma endsWith_app (rest p : string) : JsString.endsWith p (rest ++ p) = true.
Proof. unfold JsString.endsWith. rewrite rev_app_string. apply startsWith_app. Qed.

Lemma unlinkWhere_listing (doomed : string → bool) (dir : string) (files : list string)
    (d : gmap string (gmap string FileData)) :
  Fs.unlinkWhere doomed dir files d !! dir
  = (fun listing =>
       foldl (fun acc f => if doomed f then delete f acc else acc) listing files)
      <$> d !! dir.
Proof.
  unfold Fs.unlinkWhere. revert d.
  induction files as [|f files IH]; intros d; simpl.
  - destruct (d !! dir); reflexivity.
  - rewrite IH. destruct (doomed f); [|reflexivity].
    unfold Fs.unlink. simpl. rewrite lookup_alter_eq.
    destruct (d !! dir); reflexivity.
Qed.

Lemma foldl_delete_lookup (doomed : string → bool) (files : list string)
    (listing : gmap string FileData) (file : string) :
  foldl (fun acc f => if doomed f then delete f acc else acc) listing files !! file
  = if doomed file && bool_decide (file ∈ files) then None else listing !! file.
Proof.
  revert listing. induction files as [|f files IH]; intros listing; simpl.
  - rewrite andb_false_r. reflexivity.
  - rewrite IH. destruct (doomed file) eqn:Hfile; simpl; [|
      destruct (doomed f) eqn:Hf; [|reflexivity];
      rewrite lookup_delete_ne; [reflexivity | congruence]].
    destruct (decide (file = f)) as [->|Hne].
    + rewrite Hfile, lookup_delete_eq.
      rewrite (bool_decide_eq_true_2 (f ∈ f :: files)) by (left; reflexivity).
      destruct (bool_decide (f ∈ files)); reflexivity.
    + assert (Heq : bool_decide (file ∈ f :: files) = bool_decide (file ∈ files)).
      { apply bool_decide_ext. rewrite elem_of_cons. split.
        - intros [Heq|Hin]; [contradiction | exact Hin].
        - intros Hin. right. exact Hin. }
      rewrite Heq. destruct (bool_decide (file ∈ files)); [reflexivity|].
      destruct (doomed f); [rewrite lookup_delete_ne; [reflexivity | congruence] | reflexivity].
Qed.

Lemma readFile_unlinkWhere (doomed : string → bool) (dir : string)
    (d : gmap string (gmap string FileData)) (file : string) :
  Fs.readFile (dir, file) (Fs.unlinkWhere doomed dir (Fs.readdir dir d) d)
  = if doomed file then None else Fs.readFile (dir, file) d.
Proof.
  unfold Fs.readFile, Fs.readdir. simpl. rewrite unlinkWhere_listing.
  destruct (d !! dir) as [listing|]; simpl; [|destruct (doomed file); reflexivity].
  rewrite foldl_delete_lookup. destruct (doomed file); simpl; [|reflexivity].
  case_bool_decide as Hin; [reflexivity|].
  destruct (listing !! file) as [x|] eqn:Hfile; [|reflexivity].
  exfalso. apply Hin. apply list_elem_of_fmap. exists (file, x).
  split; [reflexivity | apply elem_of_map_to_list; exact Hfile].
Qed.

Lemma nonEmpty_true (s : string) : s ≠ "" → JsString.nonEmpty s = true.
Proof. destruct s; [contradiction | reflexivity]. Qed.

Lemma readFile_missing_dir (p : Path) (d : gmap string (gmap string FileData)) :
  d !! p.1 = None → Fs.readFile p d = None.
Proof. intros H. unfold Fs.readFile. rewrite H. reflexivity. Qed.

(** What [applyConfigSettings] leaves on disk when caching is off. *)
Lemma applyConfigSettings_off_disk (config : Config) (s : Store) (dir file : string) :
  cachingEnabledIn config = false →
  cacheDirectory s = Some dir → dir ≠ "" →
  Fs.readFile (dir, file) (disk (applyConfigSettings config s))
  = if isCacheFile file then None else Fs.readFile (dir, file) (disk s).
Proof.
  intros Hoff Hdir Hne. unfold applyConfigSettings. rewrite Hoff. simpl. rewrite Hdir.
  unfold Fs.existsDir. rewrite (nonEmpty_true dir Hne). simpl.
  case_bool_decide as Hex.
  - apply readFile_unlinkWhere.
  - assert (disk s !! dir = None) as Hnone.
    { destruct (disk s !! dir) eqn:E; [exfalso; apply Hex; eauto | reflexivity]. }
    rewrite (readFile_missing_dir (dir, file) (disk s) Hnone).
    destruct (isCacheFile file); reflexivity.
Qed.

(** Before [initializeCacheDirectory] has run, the guard
    [cacheDirectory && ...] keeps [applyConfigSettings] away from the disk:
    this is the call that [activate] makes first. *)
Lemma applyConfigSettings_before_init (config : Config) (s : Store) :
  cacheDirectory s = None → disk (applyConfigSettings config s) = disk s.
Proof.
  intros Hdir. unfold applyConfigSettings.
  destruct (cachingEnabledIn config); simpl; [reflexivity|].
  rewrite Hdir. reflexivity.
Qed.

(** C3, as stated, fails for the call that [activate] makes at start-up:
    [cacheDirectory] is not set yet, the guard [cacheDirectory && ...]
    skips the purge, and with [enableCache] false the item-list files and
    the catalogue file of the cache directory are still there after
    [applyConfigSettings]; [initializeCacheDirectory] then sets the
    directory and [loadAllCachesFromDisk] loads the fresh item lists, so the
    process ends its start-up with entries in memory and cache files on
    disk. *)
Lemma applyConfigSettings_unset_directory_counterexample :
  enableCache cacheOff = Some false
  ∧ metadataItemsCache (applyConfigSettings cacheOff (loaded (disk twoOrgStore))) = ∅
  ∧ Fs.existsSync ("/storage/cache", "metadata-items-00Dxx-A.json")
      (disk (applyConfigSettings cacheOff (loaded (disk twoOrgStore)))) = true
  ∧ Fs.existsSync ("/storage/cache", "metadata-types-00Dxx.json")
      (disk (applyConfigSettings cacheOff (loaded (disk twoOrgStore)))) = true
  ∧ cacheDirectory (activate cacheOff "/storage/cache" 10 (loaded (disk twoOrgStore)))
    = Some "/storage/cache"
  ∧ metadataItemsCache (activate cacheOff "/storage/cache" 10 (loaded (disk twoOrgStore)))
    !! "00Dxx:A" = Some (entry "00Dxx" "A" 5)
  ∧ Fs.existsSync ("/storage/cache", "metadata-items-00Dxx-A.json")
      (disk (activate cacheOff "/storage/cache" 10 (loaded (disk twoOrgStore)))) = true.
Proof. vm_compute. repeat split; reflexivity. Qed.

(** C3, amended: once [applyConfigSettings] has run with [enableCache]
    false in a process whose cache directory is set, both memory caches
    are empty and the cache directory holds no file of either partition,
    for any organisation and any type; the other files are left alone. *)
Theorem applyConfigSettings_disable_purges (config : Config) (s : Store) (dir : string) :
  enableCache config = Some false →
  cacheDirectory s = Some dir →
  dir ≠ "" →
  let s' := applyConfigSettings config s in
  metadataTypesCache s' = None
  ∧ metadataItemsCache s' = ∅
  ∧ (∀ file, isCacheFile file = true → Fs.existsSync (dir, file) (disk s') = false)
  ∧ (∀ orgId cachePath,
       getMetadataTypesCachePath s' orgId = Some cachePath →
       Fs.existsSync cachePath (disk s') = false)
  ∧ (∀ orgId metadataType cachePath,
       getMetadataItemsCachePath s' orgId metadataType = Some cachePath →
       Fs.existsSync cachePath (disk s') = false)
  ∧ (∀ file, isCacheFile file = false →
       Fs.readFile (dir, file) (disk s') = Fs.readFile (dir, file) (disk s)).
Proof.
  intros Henable Hdir Hne s'.
  assert (Hoff : cachingEnabledIn config = false).
  { unfold cachingEnabledIn. rewrite Henable. reflexivity. }
  assert (Hgone : ∀ file, isCacheFile file = true →
                          Fs.existsSync (dir, file) (disk s') = false).
  { intros file Hfile. unfold Fs.existsSync, s'.
    rewrite (applyConfigSettings_off_disk config s dir file Hoff Hdir Hne), Hfile.
    apply bool_decide_eq_false. intros [x Hx]. discriminate. }
  assert (Hdir' : cacheDirectory s' = Some dir).
  { unfold s', applyConfigSettings. rewrite Hoff. exact Hdir. }
  split; [|split; [|split; [|split; [|split]]]].
  - unfold s', applyConfigSettings. rewrite Hoff. reflexivity.
  - unfold s', applyConfigSettings. rewrite Hoff. reflexivity.
  - exact Hgone.
  - intros orgId cachePath. unfold getMetadataTypesCachePath. rewrite Hdir'. simpl.
    intros [= <-]. apply Hgone. unfold isCacheFile.
    rewrite startsWith_app. reflexivity.
  - intros orgId metadataType cachePath. unfold getMetadataItemsCachePath.
    rewrite Hdir'. simpl. intros [= <-]. apply Hgone. unfold isCacheFile.
    rewrite (startsWith_app "metadata-items-"). apply orb_true_r.
  - intros file Hfile. unfold s'.
    rewrite (applyConfigSettings_off_disk config s dir file Hoff Hdir Hne), Hfile.
    reflexivity.
Qed.

Lemma applyConfigSettings_disable_purges_witness :
  metadataItemsCache (applyConfigSettings cacheOff twoOrgStore) = ∅
  ∧ Fs.existsSync ("/storage/cache", "metadata-items-00Dxx-A.json")
      (disk (applyConfigSettings cacheOff twoOrgStore)) = false
  ∧ Fs.existsSync ("/storage/cache", "metadata-types-00Dxx.json")
      (disk (applyConfigSettings cacheOff twoOrgStore)) = false.
Proof.
  assert (Hne : "/storage/cache" ≠ "") by discriminate.
  pose proof (applyConfigSettings_disable_purges cacheOff twoOrgStore "/storage/cache"
                eq_refl eq_refl Hne) as H.
  cbv zeta in H. destruct H as (_ & Hmem & Hfiles & _).
  split; [exact Hmem|]. split; apply Hfiles; reflexivity.
Defined.

(** ** Manual invalidation *)



Lemma deleteItemsCache_disk (s : Store) (org dir file : string) :
  org ≠ "" → cacheDirectory s = Some dir → dir ≠ "" →
  Fs.readFile (dir, file) (disk (deleteItemsCache (Some org) s))
  = if isItemsFileOf org file then None else Fs.readFile (dir, file) (disk s).
Proof.
  intros Hne Hdir Hdne. unfold deleteItemsCache. rewrite (nonEmpty_true org Hne).
  simpl. rewrite Hdir. unfold Fs.existsDir. rewrite (nonEmpty_true dir Hdne). simpl.
  case_bool_decide as Hex.
  - apply readFile_unlinkWhere.
  - assert (disk s !! dir = None) as Hnone.
    { destruct (disk s !! dir) eqn:E; [exfalso; apply Hex; eauto | reflexivity]. }
    rewrite (readFile_missing_dir (dir, file) (disk s) Hnone).
    destruct (isItemsFileOf org file); reflexivity.
Qed.


(** A file of the cache directory that has the prefix of the organisation
    but not the extension [.json] stays. *)
Example deleteItemsCache_keeps_other_extension :
  isItemsFileOf "00Dxx" "metadata-items-00Dxx-A.json" = true
  ∧ isItemsFileOf "00Dxx" "metadata-items-00Dxx-A.json.bak" = false
  ∧ isItemsFileOf "00Dxx" "metadata-items-00Dyy-A.json" = false
  ∧ isItemsFileOf "00Dxx" "metadata-types-00Dxx.json" = false.
Proof. repeat split. Qed.


(** ** Cache file names *)

Lemma sanitize_get (s : string) (n : nat) :
  String.get n (JsString.sanitize s)
  = (fun a => if JsString.isAlnum a then a else "_"%char) <$> String.get n s.
Proof.
  revert n. induction s as [|a s IH]; intros n; simpl; [reflexivity|].
  destruct n as [|n]; [reflexivity | apply IH].
Qed.

(** What [cacheItems] leaves in memory and on disk. *)
Lemma cacheItems_effect (s : Store) (now : Z) (org metadataType dir : string)
    (items : list MetadataItem) :
  cacheDirectory s = Some dir → is_Some (disk s !! dir) →
  let s' := cacheItems s now org metadataType items in
  let cacheData := CachedMetadataItems.mk org metadataType items (Some now) in
  cacheDirectory s' = Some dir
  ∧ is_Some (disk s' !! dir)
  ∧ metadataItemsCache s'
    = <[cacheKeyOf org metadataType := cacheData]> (metadataItemsCache s)
  ∧ Fs.readFile (dir, "metadata-items-" ++ org ++ "-" ++ JsString.sanitize metadataType
                       ++ ".json") (disk s')
    = Some (ItemsJson cacheData).
Proof.
  intros Hdir [listing Hlisting]. cbv zeta.
  unfold cacheItems, saveMetadataItemsToDisk, pendingWrite, getMetadataItemsCachePath.
  simpl. rewrite Hdir. simpl. unfold Fs.writeFile. simpl. rewrite Hlisting. simpl.
  split; [exact Hdir|]. split; [rewrite lookup_insert_eq; eauto|].
  split; [reflexivity|].
  unfold Fs.readFile. simpl. rewrite lookup_insert_eq. simpl. apply lookup_insert_eq.
Qed.

Lemma string_app_length (s1 s2 : string) :
  String.length (s1 ++ s2) = (String.length s1 + String.length s2)%nat.
Proof. induction s1 as [|a s1 IH]; [reflexivity | exact (f_equal S IH)]. Qed.

Lemma string_app_inv_tail (s1 s2 t : string) : s1 ++ t = s2 ++ t → s1 = s2.
Proof.
  revert s2. induction s1 as [|a s1 IH]; intros [|b s2] H.
  - reflexivity.
  - apply (f_equal String.length) in H.
    change ("" ++ t) with t in H. change (String b s2 ++ t) with (String b (s2 ++ t)) in H.
    simpl in H. rewrite string_app_length in H. lia.
  - apply (f_equal String.length) in H.
    change ("" ++ t) with t in H. change (String a s1 ++ t) with (String a (s1 ++ t)) in H.
    simpl in H. rewrite string_app_length in H. lia.
  - change (String a (s1 ++ t) = String b (s2 ++ t)) in H.
    injection H as -> H. f_equal. exact (IH s2 H).
Qed.

(** The file path of an item list, for every organisation and type name. *)
Lemma getMetadataItemsCachePath_safe (s : Store) (dir org metadataType : string) :
  cacheDirectory s = Some dir →
  getMetadataItemsCachePath s org metadataType
  = Some (dir, "metadata-items-" ++ org ++ "-" ++ JsString.sanitize metadataType ++ ".json").
Proof. intros Hdir. unfold getMetadataItemsCachePath. rewrite Hdir. reflexivity. Qed.

(** C10: for every organisation and every type name, the file that
    [getMetadataItemsCachePath] names is [metadata-items-<org>-<safe>.json]
    in the cache directory, where [safe] has, position by position, the
    letters and digits of the type name and '_' in place of every other
    character. Two type names of one organisation therefore get one path
    exactly when they agree after that replacement: the function is not
    injective, "A-B" and "A_B" get one path, and when an entry is cached for
    each, that file holds the later entry only, while the memory tier holds
    both entries under two different keys. *)
Theorem getMetadataItemsCachePath_not_injective (s : Store) (org dir : string)
    (items1 items2 : list MetadataItem) (now1 now2 : Z) :
  cacheDirectory s = Some dir →
  is_Some (disk s !! dir) →
  let s2 := cacheItems (cacheItems s now1 org "A-B" items1) now2 org "A_B" items2 in
  (∀ orgId metadataType,
     ∃ safe,
       getMetadataItemsCachePath s orgId metadataType
       = Some (dir, "metadata-items-" ++ orgId ++ "-" ++ safe ++ ".json")
       ∧ ∀ n, String.get n safe
              = (fun a => if JsString.isAlnum a then a else "_"%char)
                  <$> String.get n metadataType)
  ∧ (∀ orgId type1 type2,
       getMetadataItemsCachePath s orgId type1 = getMetadataItemsCachePath s orgId type2
       ↔ ∀ n, (fun a => if JsString.isAlnum a then a else "_"%char) <$> String.get n type1
              = (fun a => if JsString.isAlnum a then a else "_"%char)
                  <$> String.get n type2)
  ∧ "A-B" ≠ "A_B"
  ∧ getMetadataItemsCachePath s org "A-B" = getMetadataItemsCachePath s org "A_B"
  ∧ getMetadataItemsCachePath s org "A_B" = Some (dir, "metadata-items-" ++ org ++ "-A_B.json")
  ∧ Fs.readFile (dir, "metadata-items-" ++ org ++ "-A_B.json") (disk s2)
    = Some (ItemsJson (CachedMetadataItems.mk org "A_B" items2 (Some now2)))
  ∧ cacheKeyOf org "A-B" ≠ cacheKeyOf org "A_B"
  ∧ metadataItemsCache s2 !! cacheKeyOf org "A-B"
    = Some (CachedMetadataItems.mk org "A-B" items1 (Some now1))
  ∧ metadataItemsCache s2 !! cacheKeyOf org "A_B"
    = Some (CachedMetadataItems.mk org "A_B" items2 (Some now2)).
Proof.
  intros Hdir Hex s2.
  assert (Hkeys : cacheKeyOf org "A-B" ≠ cacheKeyOf org "A_B").
  { unfold cacheKeyOf. intros H. apply (inj (String.app org)) in H. discriminate. }
  destruct (cacheItems_effect s now1 org "A-B" dir items1 Hdir Hex)
    as (Hdir1 & Hex1 & Hmem1 & _).
  destruct (cacheItems_effect (cacheItems s now1 org "A-B" items1) now2 org "A_B" dir
              items2 Hdir1 Hex1) as (_ & _ & Hmem2 & Hfile2).
  split; [|split; [|split; [|split; [|split; [|split; [|split; [|split]]]]]]].
  - intros orgId metadataType. exists (JsString.sanitize metadataType).
    split; [exact (getMetadataItemsCachePath_safe s dir orgId metadataType Hdir)|].
    intros n. apply sanitize_get.
  - intros orgId type1 type2.
    rewrite !(getMetadataItemsCachePath_safe s dir orgId _ Hdir). split.
    + intros [= H] n.
      apply (inj (String.app orgId)) in H. apply (inj (String.app "-")) in H.
      apply string_app_inv_tail in H.
      rewrite <- (sanitize_get type1 n), <- (sanitize_get type2 n), H. reflexivity.
    + intros H.
      assert (Hsafe : JsString.sanitize type1 = JsString.sanitize type2).
      { apply String.get_correct. intros n. rewrite !sanitize_get. exact (H n). }
      rewrite Hsafe. reflexivity.
  - discriminate.
  - unfold getMetadataItemsCachePath. rewrite Hdir. reflexivity.
  - unfold getMetadataItemsCachePath. rewrite Hdir. reflexivity.
  - exact Hfile2.
  - exact Hkeys.
  - unfold s2. rewrite Hmem2, Hmem1.
    rewrite lookup_insert_ne; [apply lookup_insert_eq | congruence].
  - unfold s2. rewrite Hmem2. apply lookup_insert_eq.
Qed.

Lemma getMetadataItemsCachePath_not_injective_witness :
  getMetadataItemsCachePath emptyStore "00Dxx" "A-B"
  = getMetadataItemsCachePath emptyStore "00Dxx" "A_B"
  ∧ Fs.readFile ("/storage/cache", "metadata-items-00Dxx-A_B.json")
      (disk (cacheItems (cacheItems emptyStore 10 "00Dxx" "A-B" [item "First"])
               20 "00Dxx" "A_B" [item "Second"]))
    = Some (ItemsJson (CachedMetadataItems.mk "00Dxx" "A_B" [item "Second"] (Some 20))).
Proof.
  assert (Hex : is_Some (disk emptyStore !! "/storage/cache")).
  { exists ∅. reflexivity. }
  pose proof (getMetadataItemsCachePath_not_injective emptyStore "00Dxx" "/storage/cache"
                [item "First"] [item "Second"] 10 20 eq_refl Hex) as H.
  cbv zeta in H. destruct H as (_ & _ & _ & Hpath & _ & Hfile & _).
  split; [exact Hpath | exact Hfile].
Defined.

(** ** Result interpreter *)

(** C4, as stated, fails on the payload [{"message":"","code":"X"}]: it has
    a top-level message field and a code field, and [buildHumanMessage]
    returns ["Command failed [X]"], not the message with the code in
    brackets. *)
Lemma buildHumanMessage_empty_message_counterexample :
  ¬ (∀ (json : JsValue) (m c : string),
       Js.optGet "message" json = VStr m →
       Js.optGet "code" json = VStr c →
       buildHumanMessage json = Some (VStr (m ++ " [" ++ c ++ "]"))).
Proof.
  intros H.
  specialize (H (VObj [("message", VStr ""); ("code", VStr "X")]) "" "X" eq_refl eq_refl).
  vm_compute in H. discriminate.
Qed.

Lemma truthy_VStr (s : string) : s ≠ "" → Js.truthy (VStr s) = true.
Proof. destruct s; [contradiction | reflexivity]. Qed.

(** C4, amended: for every payload whose top-level message is a non-empty
    string, [buildHumanMessage] returns that message, followed by the
    top-level code in brackets when the code is a non-empty string, and
    alone when the code is missing or falsy. When sf exits 0 with the
    payload [{"status":1,"message":"INVALID_TYPE","code":"INVALID_TYPE"}],
    [runSfJson] rejects with the message ["INVALID_TYPE [INVALID_TYPE]"]. *)
Theorem buildHumanMessage_message (json : JsValue) (m : string) :
  Js.optGet "message" json = VStr m →
  m ≠ "" →
  (∀ c, Js.optGet "code" json = VStr c → c ≠ "" →
        buildHumanMessage json = Some (VStr (m ++ " [" ++ c ++ "]")))
  ∧ (Js.truthy (Js.optGet "code" json) = false →
     buildHumanMessage json = Some (VStr m))
  ∧ (∀ args err,
       runSfJson_close args (Some 0) (Some invalidType) err
       = Some (Reject {| message := "INVALID_TYPE [INVALID_TYPE]";
                         codeStr := VStr "INVALID_TYPE";
                         context := VUndef;
                         status := VNum 1;
                         exitCode := VUndef;
                         stderr := Some err;
                         rawJson := invalidType |})).
Proof.
  intros Hm Hne. split; [|split].
  - intros c Hc Hcne. unfold buildHumanMessage.
    rewrite Hm, Hc, (truthy_VStr m Hne), (truthy_VStr c Hcne). reflexivity.
  - intros Hc. unfold buildHumanMessage.
    rewrite Hm, Hc, (truthy_VStr m Hne). reflexivity.
  - intros args err. reflexivity.
Qed.

Lemma buildHumanMessage_message_witness :
  buildHumanMessage invalidType = Some (VStr "INVALID_TYPE [INVALID_TYPE]")
  ∧ buildHumanMessage (VObj [("message", VStr "ENOTFOUND")]) = Some (VStr "ENOTFOUND").
Proof.
  assert (H1 : "INVALID_TYPE" ≠ "") by discriminate.
  assert (H2 : "ENOTFOUND" ≠ "") by discriminate.
  split.
  - apply (proj1 (buildHumanMessage_message invalidType "INVALID_TYPE" eq_refl H1)
             "INVALID_TYPE" eq_refl H1).
  - apply (proj1 (proj2 (buildHumanMessage_message (VObj [("message", VStr "ENOTFOUND")])
                           "ENOTFOUND" eq_refl H2))).
    reflexivity.
Defined.

(** ** Retrieval *)

Lemma optGet_object (name : string) (json v : JsValue) :
  Js.optGet name json = v → v ≠ VUndef → ∃ fields, json = VObj fields.
Proof. destruct json; simpl; intros <- H; try contradiction. eauto. Qed.

(** C5: when the retrieval exits 0 with status 0 and the payload, which has
    no top-level message and no result messages, lists the one file
    [{state:"Failed", error:"E1", fullName:"Foo", type:"ApexClass"}],
    [retrieveSelectedFile] throws an [SfCliError] whose message is
    ["E1 [ApexClass Foo]"], the first collected problem, and whose
    [rawJson] is the whole payload. *)
Theorem retrieveSelectedFile_failed_file
    (metadataType itemName err : string) (json result file : JsValue) :
  Js.optGet "status" json = VNum 0 →
  Js.optGet "message" json = VUndef →
  Js.optGet "result" json = result →
  Js.optGet "messages" result = VUndef →
  Js.optGet "files" result = VArr [file] →
  Js.optGet "state" file = VStr "Failed" →
  Js.optGet "error" file = VStr "E1" →
  Js.optGet "fullName" file = VStr "Foo" →
  Js.optGet "type" file = VStr "ApexClass" →
  collectRetrieveProblems json = Some [VStr "E1 [ApexClass Foo]"]
  ∧ retrieveSelectedFile metadataType itemName (Some 0) (Some json) err
    = Some (Throws {| message := "E1 [ApexClass Foo]";
                      codeStr := VUndef; context := VUndef; status := VUndef;
                      exitCode := VUndef; stderr := None;
                      rawJson := json |}).
Proof.
  intros Hstatus Hmessage Hresult Hmsgs Hfiles Hstate Herror Hname Htype.
  destruct (optGet_object "status" json (VNum 0) Hstatus ltac:(discriminate))
    as [fields ->].
  assert (Hproblems : collectRetrieveProblems (VObj fields)
                      = Some [VStr "E1 [ApexClass Foo]"]).
  { unfold collectRetrieveProblems, Js.get. cbv beta iota. cbn [mbind option_bind].
    rewrite Hresult, Hmsgs, Hfiles. cbn [iterate mbind option_bind pushAll].
    unfold fileProblem. rewrite Hstate, Herror, Hname, Htype.
    cbn -[buildHumanMessage].
    unfold buildHumanMessage, messagesRule, filesRule, resultFiles.
    rewrite Hmessage, Hresult, Hmsgs, Hfiles. cbn [Js.truthy List.find default].
    unfold isFailedFile. rewrite Hstate, Herror.
    change (Js.isString "Failed" (VStr "Failed") || Js.truthy (VStr "E1")) with true.
    cbn [default from_option id]. rewrite Herror. reflexivity. }
  split; [exact Hproblems|].
  assert (Hnz : statusNonZero (VObj fields) = false).
  { unfold statusNonZero. rewrite Hstatus. reflexivity. }
  unfold retrieveSelectedFile, runSfJson_close.
  cbn [default from_option id negb Js.truthy].
  rewrite bool_decide_eq_true_2 by reflexivity.
  cbn [negb]. rewrite Hnz. cbn [mbind option_bind]. rewrite Hproblems. reflexivity.
Qed.

Lemma retrieveSelectedFile_failed_file_witness :
  retrieveSelectedFile "ApexClass" "Foo" (Some 0) (Some failedRetrieve) ""
  = Some (Throws {| message := "E1 [ApexClass Foo]";
                    codeStr := VUndef; context := VUndef; status := VUndef;
                    exitCode := VUndef; stderr := None;
                    rawJson := failedRetrieve |}).
Proof.
  apply (proj2 (retrieveSelectedFile_failed_file "ApexClass" "Foo" "" failedRetrieve
                  (Js.optGet "result" failedRetrieve)
                  (VObj [("filePath", VStr "force-app/main/default/classes/Foo.cls");
                         ("state", VStr "Failed"); ("error", VStr "E1");
                         ("fullName", VStr "Foo"); ("type", VStr "ApexClass")])
                  eq_refl eq_refl eq_refl eq_refl eq_refl eq_refl eq_refl eq_refl eq_refl)).
Defined.

(** ** Result messages *)

(** C9, as stated, fails on the payload [{"result":{"messages":"  "}}]: the
    messages field is a non-empty string, and [buildHumanMessage] returns
    [undefined], not the trimmed string. *)
Lemma buildHumanMessage_blank_messages_counterexample :
  ¬ (∀ (json : JsValue) (s : string),
       Js.optGet "message" json = VUndef →
       Js.optGet "messages" (Js.optGet "result" json) = VStr s →
       s ≠ "" →
       buildHumanMessage json = Some (VStr (JsString.trim s))).
Proof.
  intros H.
  specialize (H (VObj [("result", VObj [("messages", VStr "  ")])]) "  "
                eq_refl eq_refl ltac:(discriminate)).
  vm_compute in H. discriminate.
Qed.

Lemma entryLabel_nonEmpty (m : JsValue) : JsString.nonEmpty (entryLabel m) = true.
Proof.
  unfold entryLabel.
  destruct (Js.optGet "problem" m) as [| | | |[|c1 p]| |];
    destruct (Js.optGet "message" m) as [| | | |[|c2 t]| |]; reflexivity.
Qed.

Lemma plainEntry_text (m : JsValue) :
  plainEntry m →
  ∃ v, messageText m = Some v ∧ Js.joinPart v = Some (entryLabel m).
Proof.
  intros (fields & -> & Hts & Hp & Ht).
  unfold messageText, Js.get, entryLabel, Js.or.
  destruct Hp as [Hp|[p Hp]]; destruct Ht as [Ht|[t Ht]]; rewrite Hp, Ht.
  - eexists. split; [reflexivity|]. simpl. rewrite Hts. reflexivity.
  - destruct t as [|c2 t]; eexists; (split; [reflexivity|]); simpl;
      [rewrite Hts|]; reflexivity.
  - destruct p as [|c1 p]; eexists; (split; [reflexivity|]); simpl;
      [rewrite Hts|]; reflexivity.
  - destruct p as [|c1 p]; [destruct t as [|c2 t]|]; eexists;
      (split; [reflexivity|]); simpl; [rewrite Hts| |]; reflexivity.
Qed.

Lemma plainEntries_join (entries : list JsValue) :
  Forall plainEntry entries →
  ∃ texts, mapM messageText entries = Some texts
           ∧ mapM Js.joinPart texts = Some (entryLabel <$> entries).
Proof.
  induction 1 as [|m entries Hm _ (texts & Htexts & Hparts)].
  - exists []. split; reflexivity.
  - destruct (plainEntry_text m Hm) as (v & Hv & Hpart).
    exists (v :: texts). split.
    + cbn [mapM]. rewrite Hv, Htexts. reflexivity.
    + cbn [mapM]. rewrite Hpart, Hparts. reflexivity.
Qed.

Lemma join_nonEmpty (sep : string) (parts : list string) :
  parts ≠ [] → Forall (fun s => JsString.nonEmpty s = true) parts →
  JsString.nonEmpty (JsString.join sep parts) = true.
Proof.
  intros Hne Hall. destruct Hall as [|s rest Hs _]; [contradiction|].
  destruct s as [|a s]; [discriminate|].
  destruct rest; reflexivity.
Qed.

(** C9, amended: for every payload without a truthy top-level message whose
    [result.messages] is a non-empty array, [buildHumanMessage] returns the
    first entry's problem when that is truthy (present and not empty);
    when the first entry has none and the entries are objects, it returns
    the entries' labels joined with ["; "], the label of an entry being its
    non-empty problem, else its non-empty message, else the entry converted
    to a string (["[object Object]"]), which covers the case that no entry
    has a problem; when [result.messages] is a string whose trimmed form is
    not empty, it returns the trimmed string. *)
Theorem buildHumanMessage_result_messages (json : JsValue) :
  Js.truthy (Js.optGet "message" json) = false →
  (∀ first rest,
     Js.optGet "messages" (Js.optGet "result" json) = VArr (first :: rest) →
     Js.truthy (Js.optGet "problem" first) = true →
     buildHumanMessage json = Some (Js.optGet "problem" first))
  ∧ (∀ first rest,
       Js.optGet "messages" (Js.optGet "result" json) = VArr (first :: rest) →
       Forall plainEntry (first :: rest) →
       Js.truthy (Js.optGet "problem" first) = false →
       buildHumanMessage json
       = Some (VStr (JsString.join "; " (entryLabel <$> first :: rest))))
  ∧ (∀ s,
       Js.optGet "messages" (Js.optGet "result" json) = VStr s →
       JsString.trim s ≠ "" →
       buildHumanMessage json = Some (VStr (JsString.trim s))).
Proof.
  intros Hmessage. split; [|split].
  - intros first rest Hmsgs Hproblem.
    unfold buildHumanMessage, messagesRule. rewrite Hmessage, Hmsgs, Hproblem.
    reflexivity.
  - intros first rest Hmsgs Hplain Hproblem.
    destruct (plainEntries_join (first :: rest) Hplain) as (texts & Htexts & Hparts).
    unfold buildHumanMessage, messagesRule. rewrite Hmessage, Hmsgs, Hproblem, Htexts.
    unfold Js.join. rewrite Hparts. cbn [fmap option_fmap option_map].
    rewrite join_nonEmpty; [reflexivity | discriminate |].
    apply Forall_fmap, Forall_forall. intros m _. apply entryLabel_nonEmpty.
  - intros s Hmsgs Htrim.
    unfold buildHumanMessage, messagesRule. rewrite Hmessage, Hmsgs.
    rewrite (nonEmpty_true _ Htrim). reflexivity.
Qed.

Lemma buildHumanMessage_result_messages_witness :
  buildHumanMessage problemFirst = Some (VStr "Not found")
  ∧ buildHumanMessage noProblems = Some (VStr "first; [object Object]")
  ∧ buildHumanMessage (VObj [("result", VObj [("messages", VStr "  Timed out ")])])
    = Some (VStr "Timed out").
Proof.
  split; [|split].
  - apply (proj1 (buildHumanMessage_result_messages problemFirst eq_refl)
             (VObj [("fileName", VStr "Foo.cls"); ("problem", VStr "Not found")])
             [VObj [("problem", VStr "Other")]]); reflexivity.
  - apply (proj1 (proj2 (buildHumanMessage_result_messages noProblems eq_refl))
             (VObj [("message", VStr "first")]) [VObj [("fileName", VStr "x")]]).
    + reflexivity.
    + repeat constructor.
      * exists [("message", VStr "first")]. repeat split; simpl; eauto.
      * exists [("fileName", VStr "x")]. repeat split; simpl; eauto.
    + reflexivity.
  - apply (proj2 (proj2 (buildHumanMessage_result_messages
                           (VObj [("result", VObj [("messages", VStr "  Timed out ")])])
                           eq_refl)) "  Timed out "); [reflexivity | discriminate].
Defined.

(** ** Request coalescer *)

Lemma owner_not_before (inflight : gmap string nat) (fs : list Fetch) (cs : list Call)
    (p i : nat) (f : Fetch) (c : Call) :
  Coherent inflight fs cs → fs !! p = Some f → cs !! i = Some c →
  beforeFetch (callPhase c) → fetchOwner f ≠ i.
Proof.
  intros Hcoh Hf Hc Hbefore Heq.
  destruct (coh_owner _ _ _ Hcoh p f Hf) as (c' & Hc' & _ & [[Hph _]|(o & Hph & _)]);
    rewrite Heq, Hc in Hc'; injection Hc' as <-; rewrite Hph in Hbefore; exact Hbefore.
Qed.

(** A call that has not reached the fetch moves to a phase without a
    promise. *)
Lemma coherent_set_free (inflight : gmap string nat) (fs : list Fetch) (cs : list Call)
    (i : nat) (c c' : Call) :
  Coherent inflight fs cs → cs !! i = Some c → beforeFetch (callPhase c) →
  promiseFree (callPhase c') →
  Coherent inflight fs (<[i := c']> cs).
Proof.
  intros Hcoh Hc Hbefore Hfree. split.
  - intros p f Hf.
    destruct (coh_owner _ _ _ Hcoh p f Hf) as (co & Hco & Hrest).
    exists co. split; [|exact Hrest].
    rewrite list_lookup_insert_ne; [exact Hco|].
    apply not_eq_sym, (owner_not_before _ _ _ p i f c Hcoh Hf Hc Hbefore).
  - intros j cj key p b Hcj Hph.
    rewrite list_lookup_insert in Hcj. case_decide as Hij.
    + injection Hcj as <-. rewrite Hph in Hfree. contradiction.
    + destruct (coh_awaiting _ _ _ Hcoh j cj key p b Hcj Hph) as (f & Hf & Hkey & Hown).
      exists f. auto.
  - intros j cj p o Hcj Hph.
    rewrite list_lookup_insert in Hcj. case_decide as Hij.
    + injection Hcj as <-. rewrite Hph in Hfree. contradiction.
    + exact (coh_returned _ _ _ Hcoh j cj p o Hcj Hph).
  - exact (coh_inflight _ _ _ Hcoh).
Qed.

(** Line 502: the call returns the promise in flight for its key. *)
Lemma coherent_join (inflight : gmap string nat) (fs : list Fetch) (cs : list Call)
    (i p : nat) (c c' : Call) (k : string) :
  Coherent inflight fs cs → cs !! i = Some c → beforeFetch (callPhase c) →
  inflight !! k = Some p →
  callPhase c' = Awaiting (Some k) p false →
  Coherent inflight fs (<[i := c']> cs).
Proof.
  intros Hcoh Hc Hbefore Hin Hph'. split.
  - intros q f Hf.
    destruct (coh_owner _ _ _ Hcoh q f Hf) as (co & Hco & Hrest).
    exists co. split; [|exact Hrest].
    rewrite list_lookup_insert_ne; [exact Hco|].
    apply not_eq_sym, (owner_not_before _ _ _ q i f c Hcoh Hf Hc Hbefore).
  - intros j cj key q b Hcj Hph.
    rewrite list_lookup_insert in Hcj. case_decide as Hij.
    + injection Hcj as <-. rewrite Hph' in Hph. injection Hph as <- <- <-.
      destruct (coh_inflight _ _ _ Hcoh k p Hin) as (f & Hf & Hkey).
      exists f. split; [exact Hf|]. split; [exact Hkey | discriminate].
    + destruct (coh_awaiting _ _ _ Hcoh j cj key q b Hcj Hph) as (f & Hf & Hkey & Hown).
      exists f. auto.
  - intros j cj q o Hcj Hph.
    rewrite list_lookup_insert in Hcj. case_decide as Hij.
    + injection Hcj as <-. rewrite Hph' in Hph. discriminate.
    + exact (coh_returned _ _ _ Hcoh j cj q o Hcj Hph).
  - exact (coh_inflight _ _ _ Hcoh).
Qed.

(** Lines 504-522: the call starts a fetch and, with caching enabled and a
    key, enters its promise in [inflightItems]. *)
Lemma coherent_start (inflight : gmap string nat) (fs : list Fetch) (cs : list Call)
    (i : nat) (c : Call) (org key : option string) :
  Coherent inflight fs cs → cs !! i = Some c → beforeFetch (callPhase c) →
  key ≫= (fun k => inflight !! k) = None →
  Coherent
    (match key with
     | Some k => if callCaching c then <[k := length fs]> inflight else inflight
     | None => inflight
     end)
    (fs ++ [mkFetch key org (callType c) (callCaching c) i Spawned])
    (<[i := mkCall (callType c) (callCaching c) (Awaiting key (length fs) true)]> cs).
Proof.
  intros Hcoh Hc Hbefore Hfree.
  assert (Hi : (i < length cs)%nat) by (eapply lookup_lt_Some; exact Hc).
  split.
  - intros q f Hf. apply lookup_app_Some in Hf as [Hf|[Hlen Hf]].
    + destruct (coh_owner _ _ _ Hcoh q f Hf) as (co & Hco & Hcach & Hrest).
      exists co. split; [|split; [exact Hcach|]].
      * rewrite list_lookup_insert_ne; [exact Hco|].
        apply not_eq_sym, (owner_not_before _ _ _ q i f c Hcoh Hf Hc Hbefore).
      * destruct Hrest as [[Hph Hreg]|Hret]; [left|right; exact Hret].
        split; [exact Hph|]. intros k Hk Hcaching.
        specialize (Hreg k Hk Hcaching).
        destruct key as [k'|]; [|exact Hreg].
        destruct (callCaching c); [|exact Hreg].
        destruct (decide (k' = k)) as [->|Hne].
        -- simpl in Hfree. congruence.
        -- rewrite lookup_insert_ne; [exact Hreg | exact Hne].
    + destruct (q - length fs)%nat as [|n] eqn:Hq; [|destruct n; discriminate].
      injection Hf as <-. simpl.
      assert (q = length fs) as -> by lia.
      eexists. split; [apply list_lookup_insert_eq; exact Hi|].
      split; [reflexivity|]. left. split; [reflexivity|].
      intros k -> Hcaching. simpl in Hcaching. rewrite Hcaching.
      apply lookup_insert_eq.
  - intros j cj key' q b Hcj Hph.
    rewrite list_lookup_insert in Hcj. case_decide as Hij.
    + injection Hcj as <-. simpl in Hph. injection Hph as <- <- <-.
      eexists. split; [apply list_lookup_middle; reflexivity|].
      destruct Hij as [-> _]. split; reflexivity.
    + destruct (coh_awaiting _ _ _ Hcoh j cj key' q b Hcj Hph) as (f & Hf & Hkey & Hown).
      exists f. split; [apply lookup_app_l_Some; exact Hf | auto].
  - intros j cj q o Hcj Hph.
    rewrite list_lookup_insert in Hcj. case_decide as Hij.
    + injection Hcj as <-. discriminate.
    + destruct (coh_returned _ _ _ Hcoh j cj q o Hcj Hph) as (f & Hf & Hst).
      exists f. split; [apply lookup_app_l_Some; exact Hf | exact Hst].
  - intros k q Hin.
    assert (Hold : inflight !! k = Some q →
                   ∃ f, (fs ++ [mkFetch key org (callType c) (callCaching c) i Spawned])%list
                          !! q = Some f ∧ fetchKey f = Some k).
    { intros Hk. destruct (coh_inflight _ _ _ Hcoh k q Hk) as (f & Hf & Hkey).
      exists f. split; [apply lookup_app_l_Some; exact Hf | exact Hkey]. }
    destruct key as [k'|]; [|exact (Hold Hin)].
    destruct (callCaching c); [|exact (Hold Hin)].
    rewrite lookup_insert in Hin. case_decide as Hk.
    + injection Hin as <-. subst k'.
      eexists. split; [apply list_lookup_middle; reflexivity | reflexivity].
    + exact (Hold Hin).
Qed.

(** The asynchronous body behind a promise moves on: the promise was not
    settled, and what its closure captured stays. *)
Lemma coherent_set_state (inflight : gmap string nat) (fs : list Fetch) (cs : list Call)
    (p : nat) (f : Fetch) (st : FetchState) :
  Coherent inflight fs cs → fs !! p = Some f → (∀ o, fetchState f ≠ Finished o) →
  Coherent inflight
    (<[p := mkFetch (fetchKey f) (fetchOrg f) (fetchType f) (fetchCaching f)
              (fetchOwner f) st]> fs) cs.
Proof.
  intros Hcoh Hf Hpending.
  assert (Hp : (p < length fs)%nat) by (eapply lookup_lt_Some; exact Hf).
  assert (Hlook : ∀ q g, fs !! q = Some g →
            ∃ g', <[p := mkFetch (fetchKey f) (fetchOrg f) (fetchType f) (fetchCaching f)
                           (fetchOwner f) st]> fs !! q = Some g'
                  ∧ fetchKey g' = fetchKey g ∧ fetchOwner g' = fetchOwner g
                  ∧ (q ≠ p → g' = g)).
  { intros q g Hg. destruct (decide (p = q)) as [<-|Hne].
    - rewrite Hf in Hg. injection Hg as <-. eexists.
      split; [apply list_lookup_insert_eq; exact Hp|]. simpl.
      repeat split; congruence.
    - exists g. rewrite list_lookup_insert_ne by exact Hne. auto. }
  split.
  - intros q g Hg. rewrite list_lookup_insert in Hg. case_decide as Hq.
    + destruct Hq as [<- _]. injection Hg as <-. simpl.
      destruct (coh_owner _ _ _ Hcoh p f Hf) as (c & Hc & Hcach & [Hwait|(o & _ & Hfin)]).
      * exists c. auto.
      * exfalso. exact (Hpending o Hfin).
    + exact (coh_owner _ _ _ Hcoh q g Hg).
  - intros i c key q b Hc Hph.
    destruct (coh_awaiting _ _ _ Hcoh i c key q b Hc Hph) as (g & Hg & Hkey & Hown).
    destruct (Hlook q g Hg) as (g' & Hg' & Hkey' & Hown' & _).
    exists g'. split; [exact Hg'|]. split; [congruence|]. intros Hb. rewrite Hown'. auto.
  - intros i c q o Hc Hph.
    destruct (coh_returned _ _ _ Hcoh i c q o Hc Hph) as (g & Hg & Hfin).
    destruct (Hlook q g Hg) as (g' & Hg' & _ & _ & Hsame).
    exists g'. split; [exact Hg'|]. rewrite Hsame; [exact Hfin|].
    intros ->. rewrite Hf in Hg. injection Hg as <-. exact (Hpending o Hfin).
  - intros k q Hin.
    destruct (coh_inflight _ _ _ Hcoh k q Hin) as (g & Hg & Hkey).
    destruct (Hlook q g Hg) as (g' & Hg' & Hkey' & _).
    exists g'. split; [exact Hg' | congruence].
Qed.

(** Lines 523-527: a call resumes with the outcome of the settled promise;
    the call that created it removes the entry of its key. *)
Lemma coherent_resume (inflight : gmap string nat) (fs : list Fetch) (cs : list Call)
    (i p : nat) (c : Call) (key : option string) (owner : bool) (f : Fetch) (o : Outcome) :
  Coherent inflight fs cs → cs !! i = Some c → callPhase c = Awaiting key p owner →
  fs !! p = Some f → fetchState f = Finished o →
  Coherent
    (match key with
     | Some k => if owner && callCaching c then delete k inflight else inflight
     | None => inflight
     end)
    fs (<[i := mkCall (callType c) (callCaching c) (Returned (Promise p) o)]> cs).
Proof.
  intros Hcoh Hc Hph Hf Hfin.
  assert (Hi : (i < length cs)%nat) by (eapply lookup_lt_Some; exact Hc).
  destruct (coh_awaiting _ _ _ Hcoh i c key p owner Hc Hph) as (f' & Hf' & Hkey & Hown).
  rewrite Hf in Hf'. injection Hf' as <-.
  split.
  - intros q g Hg.
    destruct (coh_owner _ _ _ Hcoh q g Hg) as (co & Hco & Hcach & Hrest).
    destruct (decide (fetchOwner g = i)) as [Hgi|Hgi].
    + rewrite Hgi, Hc in Hco. injection Hco as <-.
      destruct Hrest as [[Hph' _]|(o' & Hph' & _)]; rewrite Hph in Hph'; [|discriminate].
      injection Hph' as -> <- <-.
      eexists. split; [rewrite Hgi; apply list_lookup_insert_eq; exact Hi|].
      split; [exact Hcach|]. right. exists o. split; [reflexivity|].
      rewrite Hf in Hg. injection Hg as <-. exact Hfin.
    + exists co. split; [rewrite list_lookup_insert_ne; [exact Hco | auto]|].
      split; [exact Hcach|].
      destruct Hrest as [[Hph' Hreg]|Hret]; [left|right; exact Hret].
      split; [exact Hph'|]. intros k Hk Hcaching. specialize (Hreg k Hk Hcaching).
      destruct key as [k'|]; [|exact Hreg].
      destruct owner; simpl; [|exact Hreg].
      destruct (callCaching c) eqn:Hcc; [|exact Hreg].
      destruct (decide (k' = k)) as [->|Hne].
      * exfalso. apply Hgi.
        destruct (coh_owner _ _ _ Hcoh p f Hf) as (cp & Hcp & Hcachp & Hrestp).
        rewrite (Hown eq_refl), Hc in Hcp. injection Hcp as <-.
        destruct Hrestp as [[_ Hregp]|(o' & Hphp & _)];
          [|rewrite Hph in Hphp; discriminate].
        assert (Hpq : inflight !! k = Some p).
        { apply Hregp; [exact Hkey | congruence]. }
        rewrite Hreg in Hpq. injection Hpq as ->.
        rewrite Hf in Hg. injection Hg as <-. exact (Hown eq_refl).
      * rewrite lookup_delete_ne; [exact Hreg | exact Hne].
  - intros j cj key' q b Hcj Hph'.
    rewrite list_lookup_insert in Hcj. case_decide as Hij.
    + injection Hcj as <-. discriminate.
    + exact (coh_awaiting _ _ _ Hcoh j cj key' q b Hcj Hph').
  - intros j cj q o' Hcj Hph'.
    rewrite list_lookup_insert in Hcj. case_decide as Hij.
    + injection Hcj as <-. simpl in Hph'. injection Hph' as <- <-.
      exists f. auto.
    + exact (coh_returned _ _ _ Hcoh j cj q o' Hcj Hph').
  - intros k q Hin. apply (coh_inflight _ _ _ Hcoh k q).
    destruct key as [k'|]; [|exact Hin].
    destruct (owner && callCaching c); [|exact Hin].
    rewrite lookup_delete in Hin. case_decide; [discriminate | exact Hin].
Qed.

Lemma coherent_startOrJoin (w : World) (i : nat) (c : Call) (org key : option string) :
  coherent w → calls w !! i = Some c → beforeFetch (callPhase c) →
  coherent (startOrJoin i c org key w).
Proof.
  intros Hcoh Hc Hbefore. unfold startOrJoin.
  destruct (key ≫= (fun k => inflightItems w !! k)) as [p|] eqn:Hkey.
  - destruct key as [k|]; [|discriminate]. simpl in Hkey.
    exact (coherent_join _ _ _ i p c
             (mkCall (callType c) (callCaching c) (Awaiting (Some k) p false)) k
             Hcoh Hc Hbefore Hkey eq_refl).
  - exact (coherent_start _ _ _ i c org key Hcoh Hc Hbefore Hkey).
Qed.

Lemma coherent_setPhase (w : World) (i : nat) (c : Call) (ph : Phase) :
  coherent w → calls w !! i = Some c → beforeFetch (callPhase c) → promiseFree ph →
  coherent (setPhase i c ph w).
Proof.
  intros Hcoh Hc Hbefore Hfree.
  exact (coherent_set_free _ _ _ i c (mkCall (callType c) (callCaching c) ph)
           Hcoh Hc Hbefore Hfree).
Qed.

(** Every event keeps the invariant. *)
Lemma coherent_step (e : Event) (w w' : World) :
  coherent w → step e w = Some w' → coherent w'.
Proof.
  intros Hcoh Hstep. destruct e as [ty|i org|i|p r|p|i|ms|cfg]; simpl in Hstep.
  - injection Hstep as <-. destruct Hcoh as [Hown Hwait Hret Hin]. split; simpl.
    + intros p f Hf. destruct (Hown p f Hf) as (c & Hc & Hrest).
      exists c. split; [apply lookup_app_l_Some; exact Hc | exact Hrest].
    + intros j cj key p b Hcj Hph. apply lookup_app_Some in Hcj as [Hcj|[_ Hcj]].
      * exact (Hwait j cj key p b Hcj Hph).
      * destruct (j - length (calls w))%nat as [|n]; [|destruct n; discriminate].
        injection Hcj as <-. discriminate.
    + intros j cj p o Hcj Hph. apply lookup_app_Some in Hcj as [Hcj|[_ Hcj]].
      * exact (Hret j cj p o Hcj Hph).
      * destruct (j - length (calls w))%nat as [|n]; [|destruct n; discriminate].
        injection Hcj as <-. discriminate.
    + exact Hin.
  - destruct (calls w !! i) as [c|] eqn:Hc; [|discriminate]. simpl in Hstep.
    destruct (callPhase c) eqn:Hph; try discriminate. injection Hstep as <-.
    assert (Hbefore : beforeFetch (callPhase c)) by (rewrite Hph; exact I).
    unfold afterOrg.
    destruct (cacheKeyFor org (callType c)) as [key|];
      [destruct org as [o|]|];
      try (apply coherent_startOrJoin; assumption).
    destruct (callCaching c); [|apply coherent_startOrJoin; assumption].
    destruct (memoryHit (store w) (clock w) key);
      apply coherent_setPhase; try assumption; exact I.
  - destruct (calls w !! i) as [c|] eqn:Hc; [|discriminate]. simpl in Hstep.
    destruct (callPhase c) eqn:Hph; try discriminate. injection Hstep as <-.
    assert (Hbefore : beforeFetch (callPhase c)) by (rewrite Hph; exact I).
    unfold afterDisk.
    destruct (if existed then _ else None) as [diskCache|].
    + exact (coherent_set_free _ _ _ i c
               (mkCall (callType c) (callCaching c)
                  (Returned Disk (Fulfilled (CachedMetadataItems.items diskCache))))
               Hcoh Hc Hbefore I).
    + apply coherent_startOrJoin; assumption.
  - destruct (fetches w !! p) as [f|] eqn:Hf; [|discriminate]. simpl in Hstep.
    destruct (fetchState f) eqn:Hst; try discriminate. injection Hstep as <-.
    assert (Hpending : ∀ o, fetchState f ≠ Finished o) by (rewrite Hst; discriminate).
    unfold afterProcess.
    destruct r as [err|result];
      [|destruct (fetchKey f), (fetchOrg f); [destruct (fetchCaching f)| | |]];
      exact (coherent_set_state _ _ _ p f _ Hcoh Hf Hpending).
  - destruct (fetches w !! p) as [f|] eqn:Hf; [|discriminate]. simpl in Hstep.
    destruct (fetchState f) eqn:Hst; try discriminate. injection Hstep as <-.
    assert (Hpending : ∀ o, fetchState f ≠ Finished o) by (rewrite Hst; discriminate).
    exact (coherent_set_state _ _ _ p f _ Hcoh Hf Hpending).
  - destruct (calls w !! i) as [c|] eqn:Hc; [|discriminate]. simpl in Hstep.
    destruct (callPhase c) eqn:Hph; try discriminate.
    destruct (fetches w !! p) as [f|] eqn:Hf; [|discriminate]. simpl in Hstep.
    destruct (fetchState f) eqn:Hst; try discriminate. injection Hstep as <-.
    pose proof (coherent_resume _ _ _ i p c key owner f o Hcoh Hc Hph Hf Hst) as Hres.
    unfold afterFetch, coherent.
    destruct key as [k|]; [destruct (owner && callCaching c)|]; exact Hres.
  - injection Hstep as <-. exact Hcoh.
  - injection Hstep as <-. exact Hcoh.
Qed.

Lemma coherent_run (events : list Event) (w w' : World) :
  coherent w → run events w = Some w' → coherent w'.
Proof.
  revert w. induction events as [|e events IH]; intros w Hcoh Hrun; simpl in Hrun.
  - injection Hrun as <-. exact Hcoh.
  - destruct (step e w) as [w1|] eqn:Hstep; [|discriminate].
    exact (IH w1 (coherent_step e w w1 Hcoh Hstep) Hrun).
Qed.

Lemma coherent_idle (s : Store) (c : Config) (now : Z) : coherent (idle s c now).
Proof. split; simpl; intros; simplify_map_eq; discriminate. Qed.

Lemma servedBy_insert (cs : list Call) (i j : nat) (ci cj cj' : Call)
    (key : option string) (p : nat) :
  cs !! i = Some ci → servedBy key p (callPhase ci) →
  cs !! j = Some cj →
  (servedBy key p (callPhase cj) → servedBy key p (callPhase cj')) →
  ∃ ci', <[j := cj']> cs !! i = Some ci' ∧ servedBy key p (callPhase ci').
Proof.
  intros Hi Hserved Hj Hkeep. destruct (decide (j = i)) as [->|Hne].
  - exists cj'. split.
    + apply list_lookup_insert_eq. eapply lookup_lt_Some. exact Hi.
    + apply Hkeep. rewrite Hi in Hj. injection Hj as <-. exact Hserved.
  - exists ci. rewrite list_lookup_insert_ne by exact Hne. auto.
Qed.

Lemma servedBy_before (key : option string) (p : nat) (ph : Phase) (P : Prop) :
  beforeFetch ph → servedBy key p ph → P.
Proof.
  intros Hbefore [[b ->]|[o ->]]; contradiction.
Qed.

Lemma servedBy_step (e : Event) (w w' : World) (i : nat) (ci : Call)
    (key : option string) (p : nat) :
  step e w = Some w' → calls w !! i = Some ci → servedBy key p (callPhase ci) →
  ∃ ci', calls w' !! i = Some ci' ∧ servedBy key p (callPhase ci').
Proof.
  intros Hstep Hi Hserved.
  destruct e as [ty|j org|j|q r|q|j|ms|cfg]; simpl in Hstep.
  - injection Hstep as <-. exists ci. split; [apply lookup_app_l_Some; exact Hi | exact Hserved].
  - destruct (calls w !! j) as [c|] eqn:Hc; [|discriminate]. simpl in Hstep.
    destruct (callPhase c) eqn:Hph; try discriminate. injection Hstep as <-.
    assert (Hbefore : beforeFetch (callPhase c)) by (rewrite Hph; exact I).
    unfold afterOrg, startOrJoin, setPhase.
    repeat match goal with
           | |- context [match ?x with _ => _ end] => destruct x
           end; simpl;
      (eapply servedBy_insert; [exact Hi | exact Hserved | exact Hc |]);
      intros Hs; exact (servedBy_before _ _ _ _ Hbefore Hs).
  - destruct (calls w !! j) as [c|] eqn:Hc; [|discriminate]. simpl in Hstep.
    destruct (callPhase c) eqn:Hph; try discriminate. injection Hstep as <-.
    assert (Hbefore : beforeFetch (callPhase c)) by (rewrite Hph; exact I).
    unfold afterDisk, startOrJoin, setPhase.
    repeat match goal with
           | |- context [match ?x with _ => _ end] => destruct x
           end; simpl;
      (eapply servedBy_insert; [exact Hi | exact Hserved | exact Hc |]);
      intros Hs; exact (servedBy_before _ _ _ _ Hbefore Hs).
  - destruct (fetches w !! q) as [f|] eqn:Hf; [|discriminate]. simpl in Hstep.
    destruct (fetchState f) eqn:Hst; try discriminate. injection Hstep as <-.
    exists ci. split; [|exact Hserved].
    unfold afterProcess, setFetch.
    repeat match goal with
           | |- context [match ?x with _ => _ end] => destruct x
           end; exact Hi.
  - destruct (fetches w !! q) as [f|] eqn:Hf; [|discriminate]. simpl in Hstep.
    destruct (fetchState f) eqn:Hst; try discriminate. injection Hstep as <-.
    exists ci. split; [exact Hi | exact Hserved].
  - destruct (calls w !! j) as [c|] eqn:Hc; [|discriminate]. simpl in Hstep.
    destruct (callPhase c) as [| |key0 p0 owner|] eqn:Hph; try discriminate.
    destruct (fetches w !! p0) as [f|] eqn:Hf; [|discriminate]. simpl in Hstep.
    destruct (fetchState f) as [| |o] eqn:Hst; try discriminate. injection Hstep as <-.
    assert (Hgoal : ∃ ci', <[j := mkCall (callType c) (callCaching c)
                                    (Returned (Promise p0) o)]> (calls w) !! i = Some ci'
                           ∧ servedBy key p (callPhase ci')).
    { eapply servedBy_insert; [exact Hi | exact Hserved | exact Hc |].
      rewrite Hph. intros [[b Hb]|[o' Ho']]; [|discriminate].
      injection Hb as <- <- <-. right. exists o. reflexivity. }
    unfold afterFetch.
    destruct key0 as [k0|]; [destruct (owner && callCaching c)|]; exact Hgoal.
  - injection Hstep as <-. exists ci. auto.
  - injection Hstep as <-. exists ci. auto.
Qed.

Lemma servedBy_run (events : list Event) (w w' : World) (i : nat) (ci : Call)
    (key : option string) (p : nat) :
  run events w = Some w' → calls w !! i = Some ci → servedBy key p (callPhase ci) →
  ∃ ci', calls w' !! i = Some ci' ∧ servedBy key p (callPhase ci').
Proof.
  revert w ci. induction events as [|e events IH]; intros w ci Hrun Hi Hserved;
    simpl in Hrun.
  - injection Hrun as <-. exists ci. auto.
  - destruct (step e w) as [w1|] eqn:Hstep; [|discriminate].
    destruct (servedBy_step e w w1 i ci key p Hstep Hi Hserved) as (c1 & Hc1 & Hs1).
    exact (IH w1 c1 Hrun Hc1 Hs1).
Qed.

Lemma pending_unreleased (w : World) (p : nat) (f : Fetch) :
  coherent w → fetches w !! p = Some f → pending f → unreleased w p f.
Proof.
  intros Hcoh Hf Hpending.
  destruct (coh_owner _ _ _ Hcoh p f Hf) as (c & Hc & _ & [[Hph _]|(o & _ & Hfin)]).
  - exists c. auto.
  - exfalso. exact (Hpending o Hfin).
Qed.

Lemma unreleased_unique (w : World) (k : string) (p q : nat) (fp fq : Fetch) :
  coherent w →
  fetches w !! p = Some fp → fetches w !! q = Some fq →
  fetchKey fp = Some k → fetchKey fq = Some k →
  fetchCaching fp = true → fetchCaching fq = true →
  unreleased w p fp → unreleased w q fq → p = q.
Proof.
  intros Hcoh Hp Hq Hkp Hkq Hcp Hcq (cp & Hcp' & Hphp) (cq & Hcq' & Hphq).
  destruct (coh_owner _ _ _ Hcoh p fp Hp) as (c1 & Hc1 & _ & [[_ Hreg1]|(o & Hph & _)]);
    [|rewrite Hcp' in Hc1; injection Hc1 as <-; rewrite Hphp in Hph; discriminate].
  destruct (coh_owner _ _ _ Hcoh q fq Hq) as (c2 & Hc2 & _ & [[_ Hreg2]|(o & Hph & _)]);
    [|rewrite Hcq' in Hc2; injection Hc2 as <-; rewrite Hphq in Hph; discriminate].
  specialize (Hreg1 k Hkp Hcp). specialize (Hreg2 k Hkq Hcq). congruence.
Qed.

Lemma caching_fetch (w : World) (p : nat) (f : Fetch) :
  coherent w → forallb callCaching (calls w) = true →
  fetches w !! p = Some f → fetchCaching f = true.
Proof.
  intros Hcoh Hall Hf.
  destruct (coh_owner _ _ _ Hcoh p f Hf) as (c & Hc & <- & _).
  rewrite forallb_forall in Hall. apply Hall.
  apply list_elem_of_In, list_elem_of_lookup. eauto.
Qed.

(** C1, as stated, fails: two calls for one key run concurrently with
    caching enabled and no cache entry ever becomes fresh, yet the second
    call, which reaches line 502 after the first fetch was rejected and its
    entry removed, starts a second invocation and receives a list while the
    first call received the rejection. *)
Lemma late_call_refetches_counterexample :
  (fun w => (callPhase <$> calls w, length (fetches w)))
    <$> run lateSecondCall (idle emptyStore cacheOn 1000)
  = Some ([Returned (Promise 0) (Rejected listFailed);
           Returned (Promise 1) (Fulfilled [item "Foo"])], 2%nat).
Proof. vm_compute. reflexivity. Qed.

(** C1, amended: among the calls of [getMetadataItems] made with caching
    enabled, at any instant at most one fetch per cache key has a pending
    promise, indeed at most one has not been released by the call that
    created it, so that as long as no call has returned from a promise at
    most one invocation was issued for the key; a call that reaches line
    502 while the promise of its key is pending or unreleased returns it
    and starts no fetch; the calls that await pending promises of the key
    all await the same one; and each call that awaits a promise returns,
    whatever happens next, the outcome of that promise, the same list or
    the same rejection for all. Three calls that reach the fetch while it
    is in flight are served by one invocation. *)
Theorem getMetadataItems_coalesces (s : Store) (cfg : Config) (now : Z)
    (events : list Event) (w : World) (k : string) :
  run events (idle s cfg now) = Some w →
  forallb callCaching (calls w) = true →
  (∀ p q fp fq,
     fetches w !! p = Some fp → fetches w !! q = Some fq →
     fetchKey fp = Some k → fetchKey fq = Some k →
     (pending fp ∨ unreleased w p fp) → (pending fq ∨ unreleased w q fq) → p = q)
  ∧ ((∀ i c p o, calls w !! i = Some c → callPhase c ≠ Returned (Promise p) o) →
     ∀ p q fp fq,
       fetches w !! p = Some fp → fetches w !! q = Some fq →
       fetchKey fp = Some k → fetchKey fq = Some k → p = q)
  ∧ (∀ p fp i c org,
       fetches w !! p = Some fp → fetchKey fp = Some k →
       (pending fp ∨ unreleased w p fp) →
       calls w !! i = Some c →
       inflightItems w !! k = Some p
       ∧ fetches (startOrJoin i c org (Some k) w) = fetches w
       ∧ callPhase <$> calls (startOrJoin i c org (Some k) w) !! i
         = Some (Awaiting (Some k) p false))
  ∧ (∀ i j ci cj p q bi bj fp fq,
       calls w !! i = Some ci → callPhase ci = Awaiting (Some k) p bi →
       calls w !! j = Some cj → callPhase cj = Awaiting (Some k) q bj →
       fetches w !! p = Some fp → fetches w !! q = Some fq →
       pending fp → pending fq → p = q)
  ∧ (∀ i ci p b more w',
       calls w !! i = Some ci → callPhase ci = Awaiting (Some k) p b →
       run more w = Some w' →
       ∃ ci', calls w' !! i = Some ci'
              ∧ ((∃ b', callPhase ci' = Awaiting (Some k) p b')
                 ∨ ∃ o f, callPhase ci' = Returned (Promise p) o
                          ∧ fetches w' !! p = Some f ∧ fetchState f = Finished o))
  ∧ (fun w' => (callPhase <$> calls w', length (fetches w')))
      <$> run (threeCalls ++ thenSettle) (idle emptyStore cacheOn 1000)
    = Some ([Returned (Promise 0) (Fulfilled [item "Foo"]);
             Returned (Promise 0) (Fulfilled [item "Foo"]);
             Returned (Promise 0) (Fulfilled [item "Foo"])], 1%nat).
Proof.
  intros Hrun Hall.
  assert (Hcoh : coherent w).
  { exact (coherent_run events _ w (coherent_idle s cfg now) Hrun). }
  assert (Huniq : ∀ p q fp fq,
            fetches w !! p = Some fp → fetches w !! q = Some fq →
            fetchKey fp = Some k → fetchKey fq = Some k →
            (pending fp ∨ unreleased w p fp) → (pending fq ∨ unreleased w q fq) → p = q).
  { intros p q fp fq Hp Hq Hkp Hkq Hup Huq.
    apply (unreleased_unique w k p q fp fq Hcoh Hp Hq Hkp Hkq).
    - exact (caching_fetch w p fp Hcoh Hall Hp).
    - exact (caching_fetch w q fq Hcoh Hall Hq).
    - destruct Hup as [Hup|Hup]; [exact (pending_unreleased w p fp Hcoh Hp Hup) | exact Hup].
    - destruct Huq as [Huq|Huq]; [exact (pending_unreleased w q fq Hcoh Hq Huq) | exact Huq]. }
  split; [exact Huniq|]. split; [|split; [|split; [|split]]].
  - intros Hnone p q fp fq Hp Hq Hkp Hkq.
    assert (Hall_unreleased : ∀ r fr, fetches w !! r = Some fr → unreleased w r fr).
    { intros r fr Hr.
      destruct (coh_owner _ _ _ Hcoh r fr Hr) as (c & Hc & _ & [[Hph _]|(o & Hph & _)]).
      - exists c. auto.
      - exfalso. exact (Hnone _ c r o Hc Hph). }
    exact (Huniq p q fp fq Hp Hq Hkp Hkq (or_intror (Hall_unreleased p fp Hp))
             (or_intror (Hall_unreleased q fq Hq))).
  - intros p fp i c org Hp Hkp Hup Hi.
    assert (Hreg : inflightItems w !! k = Some p).
    { assert (Hun : unreleased w p fp).
      { destruct Hup as [Hup|Hup]; [exact (pending_unreleased w p fp Hcoh Hp Hup) | exact Hup]. }
      destruct Hun as (co & Hco & Hpho).
      destruct (coh_owner _ _ _ Hcoh p fp Hp) as (c1 & Hc1 & _ & [[_ Hreg]|(o & Hph & _)]).
      - apply Hreg; [exact Hkp | exact (caching_fetch w p fp Hcoh Hall Hp)].
      - rewrite Hco in Hc1. injection Hc1 as <-. rewrite Hpho in Hph. discriminate. }
    split; [exact Hreg|]. unfold startOrJoin. simpl. rewrite Hreg. simpl.
    split; [reflexivity|].
    rewrite list_lookup_insert_eq; [reflexivity | eapply lookup_lt_Some; exact Hi].
  - intros i j ci cj p q bi bj fp fq Hi Hphi Hj Hphj Hp Hq Hpp Hpq.
    destruct (coh_awaiting _ _ _ Hcoh i ci (Some k) p bi Hi Hphi) as (fp' & Hp' & Hkp & _).
    destruct (coh_awaiting _ _ _ Hcoh j cj (Some k) q bj Hj Hphj) as (fq' & Hq' & Hkq & _).
    rewrite Hp in Hp'. injection Hp' as <-. rewrite Hq in Hq'. injection Hq' as <-.
    exact (Huniq p q fp fq Hp Hq Hkp Hkq (or_introl Hpp) (or_introl Hpq)).
  - intros i ci p b more w' Hi Hph Hmore.
    assert (Hserved : servedBy (Some k) p (callPhase ci)).
    { left. exists b. exact Hph. }
    destruct (servedBy_run more w w' i ci (Some k) p Hmore Hi Hserved)
      as (ci' & Hi' & [[b' Hb']|[o Ho]]).
    + exists ci'. split; [exact Hi'|]. left. exists b'. exact Hb'.
    + exists ci'. split; [exact Hi'|]. right.
      assert (Hcoh' : coherent w') by exact (coherent_run more w w' Hcoh Hmore).
      destruct (coh_returned _ _ _ Hcoh' i ci' p o Hi' Ho) as (f & Hf & Hfin).
      exists o, f. auto.
  - vm_compute. reflexivity.
Qed.

Lemma getMetadataItems_coalesces_witness :
  length (fetches threeWaiting) = 1%nat
  ∧ ∀ i ci p b w',
      calls threeWaiting !! i = Some ci →
      callPhase ci = Awaiting (Some "00Dxx:ApexClass") p b →
      run thenSettle threeWaiting = Some w' →
      ∃ ci', calls w' !! i = Some ci'
             ∧ ((∃ b', callPhase ci' = Awaiting (Some "00Dxx:ApexClass") p b')
                ∨ ∃ o f, callPhase ci' = Returned (Promise p) o
                         ∧ fetches w' !! p = Some f ∧ fetchState f = Finished o).
Proof.
  assert (Hrun : run threeCalls (idle emptyStore cacheOn 1000) = Some threeWaiting).
  { vm_compute. reflexivity. }
  assert (Hall : forallb callCaching (calls threeWaiting) = true).
  { vm_compute. reflexivity. }
  split; [vm_compute; reflexivity|].
  intros i ci p b w' Hi Hph Hmore.
  exact (proj1 (proj2 (proj2 (proj2 (proj2 (getMetadataItems_coalesces emptyStore cacheOn
                                              1000 threeCalls threeWaiting
                                              "00Dxx:ApexClass" Hrun Hall)))))
           i ci p b thenSettle w' Hi Hph Hmore).
Defined.

(** A call made with caching disabled leaves [inflightItems] as it is, at
    line 522 and in the [finally] of line 526. *)
Lemma disabled_call_registers_nothing (w : World) (i p : nat) (c : Call)
    (org key : option string) (owner : bool) (o : Outcome) :
  callCaching c = false →
  inflightItems (startOrJoin i c org key w) = inflightItems w
  ∧ inflightItems (afterFetch i c key p owner o w) = inflightItems w.
Proof.
  intros Hoff. split.
  - unfold startOrJoin. destruct (key ≫= _); simpl; [reflexivity|].
    rewrite Hoff. destruct key; reflexivity.
  - unfold afterFetch. rewrite Hoff, andb_false_r. destruct key; reflexivity.
Qed.

(** C8 at its failing input: a fetch for 00Dxx:ApexClass is in flight,
    caching is switched off, and [getMetadataItems] is called again for the
    type. The second call, made with caching disabled, enters nothing in
    [inflightItems], but it returns the promise in flight: it awaits
    promise 0 and no fetch of its own is started. *)
Theorem disabled_call_joins_inflight :
  (fun w => (calls w, length (fetches w), inflightItems w !! "00Dxx:ApexClass"))
    <$> run disabledMeanwhile (idle emptyStore cacheOn 1000)
  = Some ([mkCall "ApexClass" true (Awaiting (Some "00Dxx:ApexClass") 0 true);
           mkCall "ApexClass" false (Awaiting (Some "00Dxx:ApexClass") 0 false)],
          1%nat, Some 0%nat).
Proof. vm_compute. reflexivity. Qed.

(** * Further properties *)

(** ** What the result interpreter returns *)

Lemma nonEmpty_app_r (s1 s2 : string) :
  JsString.nonEmpty s2 = true → JsString.nonEmpty (s1 ++ s2) = true.
Proof. intros H. destruct s1 as [|a s1]; [exact H | reflexivity]. Qed.

Lemma messagesRule_truthy (json v : JsValue) :
  messagesRule json = Some (Return v) → Js.truthy v = true.
Proof.
  unfold messagesRule.
  destruct (Js.optGet "messages" (Js.optGet "result" json)) as [| | | |s|[|first rest]|];
    try discriminate.
  - destruct (JsString.nonEmpty (JsString.trim s)) eqn:Htrim; [|discriminate].
    intros [= <-]. exact Htrim.
  - destruct (Js.truthy (Js.optGet "problem" first)) eqn:Hfirst.
    + intros [= <-]. exact Hfirst.
    + destruct (mapM messageText (first :: rest)) as [texts|]; [|discriminate].
      destruct (Js.join "; " texts) as [joined|]; [|discriminate].
      destruct (JsString.nonEmpty joined) eqn:Hjoined; [|discriminate].
      intros [= <-]. exact Hjoined.
Qed.

Lemma filesRule_truthy (json v : JsValue) :
  filesRule json = Some (Return v) → Js.truthy v = true.
Proof.
  unfold filesRule. destruct (resultFiles json) as [files|]; [|discriminate].
  destruct (Js.truthy (Js.optGet "error" _)) eqn:Herror.
  - intros [= <-]. exact Herror.
  - destruct (Js.truthy (Js.optGet "problem" _)) eqn:Hproblem; [|discriminate].
    intros [= <-]. exact Hproblem.
Qed.

(** The values that [buildHumanMessage] returns. *)
Lemma buildHumanMessage_value (json v : JsValue) :
  buildHumanMessage json = Some v → v = VUndef ∨ Js.truthy v = true.
Proof.
  unfold buildHumanMessage.
  destruct (Js.truthy (Js.optGet "message" json)) eqn:Hmessage.
  - destruct (Js.truthy (Js.optGet "code" json)).
    + destruct (Js.toString (Js.optGet "message" json)) as [m|]; [|discriminate].
      destruct (Js.toString (Js.optGet "code" json)) as [c|]; [|discriminate].
      intros [= <-]. right. apply (nonEmpty_app_r m). reflexivity.
    + intros [= <-]. right. exact Hmessage.
  - destruct (messagesRule json) as [[v1|]|] eqn:Hmsgs; [| |discriminate].
    + intros [= <-]. right. exact (messagesRule_truthy json v1 Hmsgs).
    + destruct (filesRule json) as [[v2|]|] eqn:Hfiles; [| |discriminate].
      * intros [= <-]. right. exact (filesRule_truthy json v2 Hfiles).
      * unfold codeRule. destruct (Js.truthy (Js.optGet "code" json)).
        -- destruct (Js.toString (Js.optGet "code" json)) as [c|]; [|discriminate].
           intros [= <-]. right. reflexivity.
        -- intros [= <-]. left. reflexivity.
Qed.

(** X1: [buildHumanMessage] returns [undefined] or a truthy value, never an
    empty string or another falsy value, so the fallbacks that its callers
    put behind [||] are used exactly when it found nothing. *)
Theorem buildHumanMessage_undefined_or_truthy (json v : JsValue) :
  buildHumanMessage json = Some v → v = VUndef ∨ Js.truthy v = true.
Proof. exact (buildHumanMessage_value json v). Qed.

Lemma buildHumanMessage_undefined_or_truthy_witness :
  VStr "Command failed [E]" = VUndef ∨ Js.truthy (VStr "Command failed [E]") = true.
Proof.
  apply (buildHumanMessage_undefined_or_truthy (VObj [("code", VStr "E")])).
  reflexivity.
Defined.

(** X2: for a payload without a truthy message and without result messages
    whose [result.files] is an array, [buildHumanMessage] looks at the
    first file only whose state is ["Failed"] or whose error is truthy: it
    returns the error of that file when truthy, else its problem when
    truthy; when there is no such file, or that file has neither, it
    returns ["Command failed [code]"] for a non-empty code string and
    [undefined] without a truthy code, whatever the later files hold. *)
Theorem buildHumanMessage_files_then_code (json : JsValue) (files : list JsValue) :
  Js.truthy (Js.optGet "message" json) = false →
  Js.optGet "messages" (Js.optGet "result" json) = VUndef →
  Js.optGet "files" (Js.optGet "result" json) = VArr files →
  let failed := default VUndef (List.find isFailedFile files) in
  (Js.truthy (Js.optGet "error" failed) = true →
   buildHumanMessage json = Some (Js.optGet "error" failed))
  ∧ (Js.truthy (Js.optGet "error" failed) = false →
     Js.truthy (Js.optGet "problem" failed) = true →
     buildHumanMessage json = Some (Js.optGet "problem" failed))
  ∧ (Js.truthy (Js.optGet "error" failed) = false →
     Js.truthy (Js.optGet "problem" failed) = false →
     (∀ c, Js.optGet "code" json = VStr c → c ≠ "" →
           buildHumanMessage json = Some (VStr ("Command failed [" ++ c ++ "]")))
     ∧ (Js.truthy (Js.optGet "code" json) = false →
        buildHumanMessage json = Some VUndef)).
Proof.
  intros Hmessage Hmsgs Hfiles failed.
  assert (Hbuild : buildHumanMessage json
                   = match filesRule json with
                     | Some (Return v) => Some v
                     | Some Next => codeRule json
                     | None => None
                     end).
  { unfold buildHumanMessage, messagesRule. rewrite Hmessage, Hmsgs. reflexivity. }
  assert (Hrule : filesRule json
                  = Some (if Js.truthy (Js.optGet "error" failed)
                          then Return (Js.optGet "error" failed)
                          else if Js.truthy (Js.optGet "problem" failed)
                               then Return (Js.optGet "problem" failed) else Next)).
  { unfold filesRule, resultFiles. rewrite Hfiles. reflexivity. }
  rewrite Hbuild, Hrule. split; [|split].
  - intros ->. reflexivity.
  - intros -> ->. reflexivity.
  - intros -> ->. unfold codeRule. split.
    + intros c Hc Hne. rewrite Hc, (truthy_VStr c Hne). reflexivity.
    + intros ->. reflexivity.
Qed.

Lemma buildHumanMessage_files_then_code_witness :
  buildHumanMessage
    (VObj [("code", VStr "E");
           ("result", VObj [("files", VArr [VObj [("state", VStr "Failed")];
                                            VObj [("error", VStr "late")]])])])
  = Some (VStr "Command failed [E]").
Proof.
  assert (Hne : "E" ≠ "") by discriminate.
  pose proof (buildHumanMessage_files_then_code
                (VObj [("code", VStr "E");
                       ("result", VObj [("files", VArr [VObj [("state", VStr "Failed")];
                                                        VObj [("error", VStr "late")]])])])
                [VObj [("state", VStr "Failed")]; VObj [("error", VStr "late")]]
                eq_refl eq_refl eq_refl) as H.
  cbv zeta in H. destruct H as (_ & _ & H).
  exact (proj1 (H eq_refl eq_refl) "E" eq_refl Hne).
Defined.

(** ** How [runSfJson] settles *)

(** What a resolved [close] handler saw. *)
Lemma runSfJson_close_Resolve (args : list string) (code : option Z)
    (out : option JsValue) (err : string) (json : JsValue) :
  runSfJson_close args code out err = Some (Resolve json) →
  code = Some 0 ∧ out = Some json ∧ Js.truthy json = true
  ∧ statusNonZero json = false.
Proof.
  unfold runSfJson_close. case_bool_decide as Hcode; simpl.
  - destruct (Js.truthy (default VUndef out)) eqn:Htruthy; simpl; [|discriminate].
    destruct (statusNonZero (default VUndef out)) eqn:Hstatus.
    + destruct (buildHumanMessage _) as [human|]; simpl; [|discriminate].
      destruct (Js.toString _); discriminate.
    + intros [= <-]. destruct out as [j|]; [auto | discriminate].
  - destruct (Js.truthy (default VUndef out)).
    + destruct (buildHumanMessage _) as [human|]; simpl; [|discriminate].
      destruct (Js.toString _); discriminate.
    + destruct (Js.toString _); discriminate.
Qed.

(** X3: the promise of [runSfJson] resolves exactly when the process exits
    with code 0, its output parses to a truthy value and the [status] of
    that value is not a number other than 0; it then resolves with the
    parsed value itself. In particular it never resolves after a non-zero
    exit or a signal, however well-formed the output. *)
Theorem runSfJson_close_resolves (args : list string) (code : option Z)
    (out : option JsValue) (err : string) (json : JsValue) :
  runSfJson_close args code out err = Some (Resolve json)
  ↔ code = Some 0 ∧ out = Some json ∧ Js.truthy json = true
    ∧ statusNonZero json = false.
Proof.
  split; [apply runSfJson_close_Resolve|].
  intros (-> & -> & Htruthy & Hstatus). unfold runSfJson_close. simpl.
  rewrite Htruthy, Hstatus. reflexivity.
Qed.

Lemma runSfJson_close_resolves_witness :
  runSfJson_close ["org"; "list"; "auth"] (Some 0)
    (Some (VObj [("status", VNum 0); ("result", VArr [])])) ""
  = Some (Resolve (VObj [("status", VNum 0); ("result", VArr [])])).
Proof.
  apply (proj2 (runSfJson_close_resolves ["org"; "list"; "auth"] (Some 0)
                  (Some (VObj [("status", VNum 0); ("result", VArr [])])) ""
                  (VObj [("status", VNum 0); ("result", VArr [])]))).
  repeat split.
Defined.

(** X4: when [buildHumanMessage] finds nothing in a parsed payload, the
    rejection of [runSfJson] falls back, after exit 0 with a non-zero
    status, to ["Command failed"], and after another exit code to the
    standard error text or, when that is empty, to
    ["sf <args> failed with exit <code>"]; the payload is attached as
    [rawJson], and the exit code is recorded only in the second case. *)
Theorem runSfJson_close_fallback (args : list string) (n : Z) (json : JsValue)
    (err : string) :
  Js.truthy json = true →
  buildHumanMessage json = Some VUndef →
  (statusNonZero json = true →
   ∃ e, runSfJson_close args (Some 0) (Some json) err = Some (Reject e)
        ∧ message e = "Command failed" ∧ exitCode e = VUndef ∧ rawJson e = json)
  ∧ (n ≠ 0 →
     ∃ e, runSfJson_close args (Some n) (Some json) err = Some (Reject e)
          ∧ message e = (if JsString.nonEmpty err then err
                         else failedWithExit args (Some n))
          ∧ exitCode e = VNum n ∧ stderr e = Some err ∧ rawJson e = json).
Proof.
  intros Htruthy Hnothing. split.
  - intros Hstatus. unfold runSfJson_close. simpl.
    rewrite Htruthy, Hstatus, Hnothing. simpl.
    eexists. split; [reflexivity|]. repeat split.
  - intros Hn. unfold runSfJson_close. simpl.
    rewrite bool_decide_eq_false_2 by congruence. simpl.
    rewrite Htruthy, Hnothing. simpl. unfold Js.or. simpl.
    destruct (JsString.nonEmpty err); simpl;
      (eexists; split; [reflexivity|]; repeat split).
Qed.

Lemma runSfJson_close_fallback_witness :
  ∃ e, runSfJson_close ["org"; "list"; "metadata"] (Some 1)
         (Some (VObj [("status", VNum 1)])) "" = Some (Reject e)
       ∧ message e = "sf org list metadata failed with exit 1".
Proof.
  assert (Hn : 1 ≠ 0) by discriminate.
  destruct (proj2 (runSfJson_close_fallback ["org"; "list"; "metadata"] 1
                     (VObj [("status", VNum 1)]) "" eq_refl eq_refl) Hn)
    as (e & Hrun & Hmessage & _).
  exists e. split; [exact Hrun | exact Hmessage].
Defined.

(** ** What a retrieval reports *)




(** The parts of [collectRetrieveProblems]: what the two loops pushed and
    what [buildHumanMessage] returned. *)
Lemma collectRetrieveProblems_parts (json : JsValue) (out : list JsValue) :
  collectRetrieveProblems json = Some out →
  ∃ result fromMsgs elems fromFiles top,
    Js.get "result" json = Some result
    ∧ match Js.optGet "messages" result with
      | VArr l => pushAll messageProblem l
      | VStr s => Some (if JsString.nonEmpty (JsString.trim s)
                        then [VStr (JsString.trim s)] else [])
      | _ => Some []
      end = Some fromMsgs
    ∧ iterate (match Js.optGet "files" result with
               | VUndef | VNull => VArr []
               | v => v
               end) = Some elems
    ∧ pushAll fileProblem elems = Some fromFiles
    ∧ buildHumanMessage json = Some top
    ∧ out = (if Js.truthy top && bool_decide ((fromMsgs ++ fromFiles)%list = [])
             then [top] else (fromMsgs ++ fromFiles)%list).
Proof.
  unfold collectRetrieveProblems. intros H.
  destruct (Js.get "result" json) as [result|]; [|discriminate]. simpl in H.
  destruct (match Js.optGet "messages" result with
            | VArr l => pushAll messageProblem l
            | VStr s => Some (if JsString.nonEmpty (JsString.trim s)
                              then [VStr (JsString.trim s)] else [])
            | _ => Some []
            end) as [fromMsgs|] eqn:Hmsgs; [|discriminate]. simpl in H.
  destruct (iterate _) as [elems|] eqn:Helems; [|discriminate]. simpl in H.
  destruct (pushAll fileProblem elems) as [fromFiles|] eqn:Hfiles; [|discriminate].
  simpl in H.
  destruct (buildHumanMessage json) as [top|] eqn:Htop; [|discriminate]. simpl in H.
  injection H as <-.
  exists result, fromMsgs, elems, fromFiles, top. repeat split; assumption.
Qed.



Lemma pushAll_nil (body : JsValue → option (list JsValue)) (l : list JsValue) :
  pushAll body l = Some [] → ∀ x, x ∈ l → body x = Some [].
Proof.
  induction l as [|y l IH]; simpl; intros H x Hx.
  - apply elem_of_nil in Hx. contradiction.
  - destruct (body y) as [pushed|] eqn:Hy; [|discriminate].
    destruct (pushAll body l) as [more|]; [|discriminate].
    injection H as H. apply app_eq_nil in H as [-> ->].
    apply elem_of_cons in Hx as [->|Hx]; [exact Hy | exact (IH eq_refl x Hx)].
Qed.

(** X6: [retrieveSelectedFile] goes on to report success only when the
    process exited with code 0, the payload has no non-zero numeric status,
    no entry of [result.messages] has a truthy problem (a messages string is
    blank), no file of [result.files] is ["Failed"] with a truthy error, and
    [buildHumanMessage] finds nothing in the payload; in every other case it
    throws. *)
Theorem retrieveSelectedFile_success_is_clean (metadataType itemName err : string)
    (code : option Z) (out : option JsValue) (json : JsValue) :
  retrieveSelectedFile metadataType itemName code out err = Some (Succeeds json) →
  code = Some 0 ∧ out = Some json ∧ statusNonZero json = false
  ∧ buildHumanMessage json = Some VUndef
  ∧ (∀ msgs m, Js.optGet "messages" (Js.optGet "result" json) = VArr msgs →
       m ∈ msgs → Js.truthy (Js.optGet "problem" m) = false)
  ∧ (∀ s, Js.optGet "messages" (Js.optGet "result" json) = VStr s →
       JsString.trim s = "")
  ∧ (∀ files f, Js.optGet "files" (Js.optGet "result" json) = VArr files →
       f ∈ files →
       Js.isString "Failed" (Js.optGet "state" f) && Js.truthy (Js.optGet "error" f)
       = false).
Proof.
  unfold retrieveSelectedFile. intros H.
  destruct (runSfJson_close _ code out err) as [[resolved|e]|] eqn:Hclose;
    simpl in H; [|discriminate|discriminate].
  destruct (collectRetrieveProblems resolved) as [[|first rest]|] eqn:Hcollect;
    simpl in H; [|destruct (Js.toString first); discriminate|discriminate].
  injection H as ->.
  apply runSfJson_close_Resolve in Hclose as (Hcode & Hout & Htruthy & Hstatus).
  destruct (collectRetrieveProblems_parts json [] Hcollect)
    as (result & fromMsgs & elems & fromFiles & top & Hresult & Hmsgs & Helems & Hfiles
        & Htop & Hout').
  assert (Hresult' : Js.optGet "result" json = result).
  { unfold Js.get in Hresult. destruct json; try discriminate; congruence. }
  assert (Hnil : fromMsgs = [] ∧ fromFiles = [] ∧ Js.truthy top = false).
  { destruct (Js.truthy top) eqn:Htruthy_top; simpl in Hout'.
    - case_bool_decide as Hempty; [discriminate|].
      symmetry in Hout'. contradiction.
    - symmetry in Hout'. apply app_eq_nil in Hout' as [-> ->]. auto. }
  destruct Hnil as (-> & -> & Hfalsy).
  split; [exact Hcode|]. split; [exact Hout|]. split; [exact Hstatus|].
  split; [|split; [|split]].
  - destruct (buildHumanMessage_value json top Htop) as [->|Htrue];
      [exact Htop | congruence].
  - intros msgs m Hm Hin. rewrite Hresult' in Hm. rewrite Hm in Hmsgs.
    pose proof (pushAll_nil messageProblem msgs Hmsgs m Hin) as Hpush.
    unfold messageProblem in Hpush.
    destruct (Js.truthy (Js.optGet "problem" m)); [|reflexivity].
    destruct (Js.truthy (Js.optGet "fileName" m)); [|discriminate].
    destruct (Js.toString (Js.optGet "problem" m)); [|discriminate].
    destruct (Js.toString (Js.optGet "fileName" m)); discriminate.
  - intros s Hs. rewrite Hresult' in Hs. rewrite Hs in Hmsgs.
    destruct (JsString.trim s); [reflexivity | discriminate].
  - intros files f Hf Hin. rewrite Hresult' in Hf. rewrite Hf in Helems.
    injection Helems as <-.
    pose proof (pushAll_nil fileProblem files Hfiles f Hin) as Hpush.
    unfold fileProblem in Hpush.
    destruct (Js.isString "Failed" (Js.optGet "state" f) && Js.truthy (Js.optGet "error" f));
      [|reflexivity].
    destruct (Js.truthy (Js.optGet "fullName" f) && Js.truthy (Js.optGet "type" f));
      [|discriminate].
    destruct (Js.toString (Js.optGet "type" f)); [|discriminate].
    destruct (Js.toString (Js.optGet "fullName" f)); [|discriminate].
    destruct (Js.toString (Js.optGet "error" f)); discriminate.
Qed.

(** A retrieval payload with two files that were changed. *)
Lemma retrieveSelectedFile_success_is_clean_witness :
  buildHumanMessage
    (VObj [("status", VNum 0);
           ("result", VObj [("files", VArr [VObj [("filePath", VStr "classes/Foo.cls");
                                                  ("state", VStr "Changed")]])])])
  = Some VUndef.
Proof.
  exact (proj1 (proj2 (proj2 (proj2
    (retrieveSelectedFile_success_is_clean "ApexClass" "Foo" "" (Some 0)
       (Some (VObj [("status", VNum 0);
                    ("result", VObj [("files", VArr [VObj [("filePath", VStr "classes/Foo.cls");
                                                           ("state", VStr "Changed")]])])]))
       (VObj [("status", VNum 0);
              ("result", VObj [("files", VArr [VObj [("filePath", VStr "classes/Foo.cls");
                                                     ("state", VStr "Changed")]])])])
       eq_refl))))).
Defined.

(** ** The file opened after a retrieval *)

Lemma findNonMeta_spec (files : list JsValue) (found : option JsValue) :
  findNonMeta files = Some found →
  match found with
  | Some f => ∃ before after filePath,
                files = (before ++ f :: after)%list
                ∧ Forall isMetaFile before
                ∧ Js.optGet "filePath" f = VStr filePath
                ∧ JsString.endsWith "-meta.xml" filePath = false
  | None => Forall isMetaFile files
  end.
Proof.
  revert found. induction files as [|g files IH]; intros found; simpl.
  - intros [= <-]. constructor.
  - destruct (Js.get "filePath" g) as [[| | | |filePath| |]|] eqn:Hg; try discriminate.
    assert (Hpath : Js.optGet "filePath" g = VStr filePath).
    { unfold Js.get in Hg. destruct g; try discriminate; congruence. }
    destruct (JsString.endsWith "-meta.xml" filePath) eqn:Hmeta.
    + intros Hrest. specialize (IH found Hrest).
      assert (Hg_meta : isMetaFile g) by (exists filePath; auto).
      destruct found as [f|].
      * destruct IH as (before & after & path & -> & Hbefore & Hf & Hnon).
        exists (g :: before), after, path. repeat split; try assumption.
        constructor; assumption.
      * constructor; assumption.
    + intros [= <-]. exists [], files, filePath. repeat split; try assumption.
      constructor.
Qed.

(** X7: when [retrieveSelectedFile] opens a file, it is the first file of
    [result.files] whose path does not end in [-meta.xml]; a [-meta.xml]
    file is opened only when every file is one, and then it is the first
    file; the path opened is never empty. With [autoOpenAfterDownload] off
    or without files nothing is opened. *)
Theorem fileToOpen_first_source_file (result : JsValue) (files : list JsValue)
    (opened : JsValue) :
  Js.optGet "files" (Js.optGet "result" result) = VArr files →
  fileToOpen true result = Some (Some opened) →
  fileToOpen false result = Some None
  ∧ ∃ before f after filePath,
      files = (before ++ f :: after)%list
      ∧ Js.optGet "filePath" f = VStr filePath
      ∧ opened = VStr filePath
      ∧ filePath ≠ ""
      ∧ Forall isMetaFile before
      ∧ (JsString.endsWith "-meta.xml" filePath = false
         ∨ (before = [] ∧ Forall isMetaFile files)).
Proof.
  intros Hfiles Hopen. split; [reflexivity|].
  unfold fileToOpen in Hopen.
  destruct (Js.get "result" result) as [inner|] eqn:Hinner; [|discriminate].
  assert (Hinner' : Js.optGet "result" result = inner).
  { unfold Js.get in Hinner. destruct result; try discriminate; congruence. }
  simpl in Hopen. rewrite <- Hinner', Hfiles in Hopen. simpl in Hopen.
  destruct (findNonMeta files) as [found|] eqn:Hfound; [|discriminate].
  simpl in Hopen. pose proof (findNonMeta_spec files found Hfound) as Hspec.
  destruct found as [f|]; simpl in Hopen.
  - destruct Hspec as (before & after & filePath & -> & Hbefore & Hf & Hnon).
    rewrite Hf in Hopen. destruct filePath as [|a filePath]; [discriminate|].
    injection Hopen as <-.
    exists before, f, after, (String a filePath). repeat split; auto; discriminate.
  - destruct files as [|f files]; [discriminate|]. simpl in Hopen.
    pose proof (Forall_inv Hspec) as (filePath & Hf & Hmeta).
    rewrite Hf in Hopen. destruct filePath as [|a filePath]; [discriminate|].
    injection Hopen as <-.
    exists [], f, files, (String a filePath). repeat split; auto; discriminate.
Qed.

Lemma fileToOpen_first_source_file_witness :
  ∃ before f after filePath,
    [VObj [("filePath", VStr "classes/Foo.cls-meta.xml")];
     VObj [("filePath", VStr "classes/Foo.cls")]] = (before ++ f :: after)%list
    ∧ Js.optGet "filePath" f = VStr filePath
    ∧ VStr "classes/Foo.cls" = VStr filePath
    ∧ filePath ≠ ""
    ∧ Forall isMetaFile before
    ∧ (JsString.endsWith "-meta.xml" filePath = false
       ∨ (before = []
          ∧ Forall isMetaFile [VObj [("filePath", VStr "classes/Foo.cls-meta.xml")];
                               VObj [("filePath", VStr "classes/Foo.cls")]])).
Proof.
  exact (proj2 (fileToOpen_first_source_file
                  (VObj [("result",
                          VObj [("files",
                                 VArr [VObj [("filePath", VStr "classes/Foo.cls-meta.xml")];
                                       VObj [("filePath", VStr "classes/Foo.cls")]])])])
                  [VObj [("filePath", VStr "classes/Foo.cls-meta.xml")];
                   VObj [("filePath", VStr "classes/Foo.cls")]]
                  (VStr "classes/Foo.cls") eq_refl eq_refl)).
Defined.

(** ** The identity resolver *)

Lemma find_first {A : Type} (p : A → bool) (l : list A) (x : A) :
  List.find p l = Some x →
  ∃ before after, l = (before ++ x :: after)%list ∧ p x = true
                  ∧ Forall (fun y => p y = false) before.
Proof.
  induction l as [|y l IH]; simpl; [discriminate|].
  destruct (p y) eqn:Hy.
  - intros [= ->]. exists [], l. repeat split; auto.
  - intros Hfind. destruct (IH Hfind) as (before & after & -> & Hx & Hbefore).
    exists (y :: before), after. repeat split; auto.
Qed.

Lemma authMatches_iff (target : string) (r : SfAuth.t) :
  authMatches target r = true ↔ SfAuth.alias r = Some target ∨ SfAuth.username r = target.
Proof.
  unfold authMatches. rewrite orb_true_iff, String.eqb_eq.
  destruct (SfAuth.alias r) as [a|].
  - rewrite String.eqb_eq. split; (intros [H|H]; [left; congruence | right; exact H]).
  - split; (intros [H|H]; [discriminate | right; exact H]).
Qed.

(** X8: [getCurrentOrgId] never throws: a rejected [sf config get] or
    [sf org list auth] gives [null]. When it returns an organisation, a
    non-empty target is configured in the first entry of the config result
    and the organisation is the [orgId] of the first authorisation record
    whose alias or username equals the target. *)
Theorem getCurrentOrgId_first_match (cfg : SfCliError + option (list SfConfigEntry.t))
    (auth : SfCliError + option (list SfAuth.t)) (org : string) :
  getCurrentOrgId cfg auth = Some org →
  (∀ e, getCurrentOrgId (inl e) auth = None ∧ getCurrentOrgId cfg (inl e) = None)
  ∧ ∃ first others target before r after,
      cfg = inr (Some (first :: others))
      ∧ SfConfigEntry.value first = Some target ∧ target ≠ ""
      ∧ auth = inr (Some (before ++ r :: after)%list)
      ∧ SfAuth.orgId r = org
      ∧ (SfAuth.alias r = Some target ∨ SfAuth.username r = target)
      ∧ Forall (fun r' => SfAuth.alias r' ≠ Some target ∧ SfAuth.username r' ≠ target)
          before.
Proof.
  unfold getCurrentOrgId. intros H. split.
  { intros e. split; [reflexivity|].
    destruct cfg as [|[[|first others]|]]; try reflexivity.
    destruct (SfConfigEntry.value first) as [target|]; [|reflexivity].
    destruct (JsString.nonEmpty target); reflexivity. }
  destruct cfg as [|[[|first others]|]]; try discriminate.
  destruct (SfConfigEntry.value first) as [target|] eqn:Hvalue; [|discriminate].
  destruct (JsString.nonEmpty target) eqn:Htarget; [|discriminate].
  destruct auth as [|[records|]]; try discriminate.
  destruct (List.find (authMatches target) records) as [r|] eqn:Hfind; [|discriminate].
  injection H as <-.
  destruct (find_first _ _ _ Hfind) as (before & after & -> & Hr & Hbefore).
  exists first, others, target, before, r, after.
  split; [reflexivity|]. split; [exact Hvalue|].
  split; [intros ->; discriminate|]. split; [reflexivity|]. split; [reflexivity|].
  split; [apply authMatches_iff, Hr|].
  eapply Forall_impl; [exact Hbefore|]. intros r' Hr'. simpl in Hr'.
  split; intros Heq;
    (assert (authMatches target r' = true) by (apply authMatches_iff; auto); congruence).
Qed.

Lemma getCurrentOrgId_first_match_witness :
  getCurrentOrgId (inl listFailed)
    (inr (Some [SfAuth.mk (Some "prod") "admin@example.com" "00Dprod";
                SfAuth.mk (Some "dev") "me@example.com" "00Ddev";
                SfAuth.mk None "dev" "00Dother"])) = None
  ∧ getCurrentOrgId (inr (Some [SfConfigEntry.mk "target-org" (Some "dev")]))
      (inl listFailed) = None.
Proof.
  exact (proj1 (getCurrentOrgId_first_match
                  (inr (Some [SfConfigEntry.mk "target-org" (Some "dev")]))
                  (inr (Some [SfAuth.mk (Some "prod") "admin@example.com" "00Dprod";
                              SfAuth.mk (Some "dev") "me@example.com" "00Ddev";
                              SfAuth.mk None "dev" "00Dother"]))
                  "00Ddev" eq_refl) listFailed).
Defined.

(** ** The disk tier of the item lists *)

Lemma readFile_writeFile (p q : Path) (data : FileData)
    (d d' : gmap string (gmap string FileData)) :
  Fs.writeFile p data d = Some d' →
  Fs.readFile q d' = if bool_decide (q = p) then Some data else Fs.readFile q d.
Proof.
  destruct p as [dir file], q as [dir' file']. unfold Fs.writeFile, Fs.readFile. simpl.
  destruct (d !! dir) as [listing|] eqn:Hlisting; simpl; [|discriminate].
  intros [= <-]. destruct (decide (dir' = dir)) as [->|Hdir].
  - rewrite lookup_insert_eq, Hlisting. simpl.
    destruct (decide (file' = file)) as [->|Hfile].
    + rewrite lookup_insert_eq, bool_decide_eq_true_2; reflexivity.
    + rewrite lookup_insert_ne by congruence.
      rewrite bool_decide_eq_false_2 by congruence. reflexivity.
  - rewrite lookup_insert_ne by congruence.
    rewrite bool_decide_eq_false_2 by congruence. reflexivity.
Qed.

(** X9: once [saveMetadataItemsToDisk] has written an entry at time [now],
    [loadMetadataItemsFromDisk] for the same organisation and for any type
    name with the same sanitised form returns the saved organisation, type
    and items with [now] as the timestamp, for as long as [now] is fresh,
    and [null] after that; whatever timestamp the entry carried is replaced.
    A load for any other cache path gives what it gave before the save. *)
Theorem loadMetadataItemsFromDisk_after_save (s : Store) (now later : Z)
    (cache : CachedMetadataItems.t) (dir metadataType : string) :
  cacheDirectory s = Some dir →
  is_Some (disk s !! dir) →
  JsString.sanitize metadataType
  = JsString.sanitize (CachedMetadataItems.metadataType cache) →
  loadMetadataItemsFromDisk (saveMetadataItemsToDisk s now cache) later
    (CachedMetadataItems.orgId cache) metadataType
  = (if isFresh s later (Some now)
     then Some (CachedMetadataItems.mk (CachedMetadataItems.orgId cache)
                  (CachedMetadataItems.metadataType cache)
                  (CachedMetadataItems.items cache) (Some now))
     else None)
  ∧ ∀ org other,
      getMetadataItemsCachePath s org other
      ≠ getMetadataItemsCachePath s (CachedMetadataItems.orgId cache)
          (CachedMetadataItems.metadataType cache) →
      loadMetadataItemsFromDisk (saveMetadataItemsToDisk s now cache) later org other
      = loadMetadataItemsFromDisk s later org other.
Proof.
  intros Hdir [listing Hlisting] Hsame.
  unfold saveMetadataItemsToDisk, pendingWrite, completeWrite.
  unfold loadMetadataItemsFromDisk, getMetadataItemsCachePath.
  rewrite Hdir. cbn [mbind option_bind].
  destruct (Fs.writeFile (dir, "metadata-items-" ++ CachedMetadataItems.orgId cache ++ "-"
                                ++ JsString.sanitize (CachedMetadataItems.metadataType cache)
                                ++ ".json")
              (itemsFileText now cache) (disk s)) as [d'|] eqn:Hwrite.
  2:{ unfold Fs.writeFile in Hwrite. simpl in Hwrite. rewrite Hlisting in Hwrite.
      discriminate. }
  cbn [cacheDirectory withDisk disk mbind option_bind]. rewrite Hdir.
  cbn [mbind option_bind]. split.
  - rewrite (readFile_writeFile _ _ _ _ _ Hwrite), Hsame.
    rewrite bool_decide_eq_true_2 by reflexivity. reflexivity.
  - intros org other Hpath. rewrite (readFile_writeFile _ _ _ _ _ Hwrite).
    rewrite bool_decide_eq_false_2 by congruence. reflexivity.
Qed.

(** An entry saved for "A-B" at time 10 is what a load for "A_B" returns
    at time 20. *)
Lemma loadMetadataItemsFromDisk_after_save_witness :
  loadMetadataItemsFromDisk
    (saveMetadataItemsToDisk emptyStore 10
       (CachedMetadataItems.mk "00Dxx" "A-B" [item "First"] None))
    20 "00Dxx" "A_B"
  = (if isFresh emptyStore 20 (Some 10)
     then Some (CachedMetadataItems.mk "00Dxx" "A-B" [item "First"] (Some 10))
     else None).
Proof.
  exact (proj1 (loadMetadataItemsFromDisk_after_save emptyStore 10 20
                  (CachedMetadataItems.mk "00Dxx" "A-B" [item "First"] None)
                  "/storage/cache" "A_B" eq_refl (ex_intro _ ∅ eq_refl) eq_refl)).
Defined.

(** ** Start-up *)

Lemma loadCacheFile_cases (s : Store) (now : Z) (dir : string)
    (mem : gmap string CachedMetadataItems.t) (file : string) :
  (∃ c, loadsFrom s now dir file c
        ∧ loadCacheFile s now dir mem file = <[keyOfEntry c := c]> mem)
  ∨ ((∀ c, ¬ loadsFrom s now dir file c) ∧ loadCacheFile s now dir mem file = mem).
Proof.
  unfold loadCacheFile, loadsFrom.
  destruct (JsString.startsWith "metadata-items-" file) eqn:Hprefix; simpl;
    [|right; split; [intros c (H & _); discriminate | reflexivity]].
  destruct (JsString.endsWith ".json" file) eqn:Hsuffix; simpl;
    [|right; split; [intros c (_ & H & _); discriminate | reflexivity]].
  destruct (Fs.readFile (dir, file) (disk s)) as [[c|c|text]|] eqn:Hread;
    try (right; split; [intros c' (_ & _ & H & _); discriminate | reflexivity]).
  destruct (isFresh s now (CachedMetadataItems.ts c)) eqn:Hfresh.
  - left. exists c. repeat split; auto.
  - right. split; [|reflexivity]. intros c' (_ & _ & [= <-] & H). congruence.
Qed.

Lemma loadCacheFile_keeps (s : Store) (now : Z) (dir : string) (files : list string)
    (k : string) (Q : CachedMetadataItems.t → Prop) :
  (∀ file c, file ∈ files → loadsFrom s now dir file c → keyOfEntry c = k → Q c) →
  ∀ mem, (∃ c, mem !! k = Some c ∧ Q c) →
         ∃ c, foldl (loadCacheFile s now dir) mem files !! k = Some c ∧ Q c.
Proof.
  induction files as [|file files IH]; intros HQ mem Hmem; simpl; [exact Hmem|].
  apply IH.
  - intros file' c Hin. apply HQ. right. exact Hin.
  - destruct (loadCacheFile_cases s now dir mem file) as [(c & Hc & ->)|[_ ->]];
      [|exact Hmem].
    destruct (decide (keyOfEntry c = k)) as [Hk|Hk].
    + exists c. rewrite Hk, lookup_insert_eq. split; [reflexivity|].
      apply (HQ file c); [left | exact Hc | exact Hk].
    + rewrite lookup_insert_ne by exact Hk. exact Hmem.
Qed.

Lemma loadCacheFile_origin (s : Store) (now : Z) (dir : string) (files : list string)
    (mem : gmap string CachedMetadataItems.t) (k : string) (c : CachedMetadataItems.t) :
  foldl (loadCacheFile s now dir) mem files !! k = Some c →
  mem !! k = Some c
  ∨ ∃ file, file ∈ files ∧ loadsFrom s now dir file c ∧ k = keyOfEntry c.
Proof.
  revert mem. induction files as [|file files IH]; intros mem; simpl; [auto|].
  intros H. destruct (IH _ H) as [Hmem|(file' & Hin & Hc & Hk)].
  - destruct (loadCacheFile_cases s now dir mem file) as [(c' & Hc' & Heq)|[_ Heq]];
      rewrite Heq in Hmem; [|left; exact Hmem].
    destruct (decide (keyOfEntry c' = k)) as [Hk|Hk].
    + rewrite Hk, lookup_insert_eq in Hmem. injection Hmem as ->.
      right. exists file. split; [left|]. split; [exact Hc' | congruence].
    + rewrite lookup_insert_ne in Hmem by exact Hk. left. exact Hmem.
  - right. exists file'. split; [right; exact Hin | auto].
Qed.

Lemma readdir_file (dir file : string) (d : gmap string (gmap string FileData)) :
  file ∈ Fs.readdir dir d → is_Some (Fs.readFile (dir, file) d).
Proof.
  unfold Fs.readFile, Fs.readdir. simpl.
  destruct (d !! dir) as [listing|]; simpl;
    [|intros Hin; apply elem_of_nil in Hin; contradiction].
  intros Hin. apply list_elem_of_fmap in Hin as ([f data] & -> & Hin).
  apply elem_of_map_to_list in Hin. simpl. eauto.
Qed.

Lemma readdir_elem (dir file : string) (d : gmap string (gmap string FileData))
    (data : FileData) :
  Fs.readFile (dir, file) d = Some data → file ∈ Fs.readdir dir d.
Proof.
  unfold Fs.readFile, Fs.readdir. simpl.
  destruct (d !! dir) as [listing|]; simpl; [|discriminate].
  intros Hfile. apply list_elem_of_fmap. exists (file, data).
  split; [reflexivity | apply elem_of_map_to_list; exact Hfile].
Qed.

(** X10: in a cache directory whose files named [metadata-items-...json]
    hold item-list entries or text that does not parse,
    [loadAllCachesFromDisk] changes nothing but the item-list memory tier.
    Every entry of the tier afterwards was there before, or is the fresh
    content of a file named [metadata-items-...json] and sits under the key
    made of its own [orgId] and [metadataType]; every such file has its key
    in the tier afterwards, holding the content of such a file with that
    key; and a file of that name is passed over only when its text does
    not parse or its entry is stale. *)
Theorem loadAllCachesFromDisk_entries (s : Store) (now : Z) (dir : string) :
  cacheDirectory s = Some dir → dir ≠ "" →
  itemFilesWellShaped s dir = true →
  TTL_MS (loadAllCachesFromDisk now s) = TTL_MS s
  ∧ metadataTypesCache (loadAllCachesFromDisk now s) = metadataTypesCache s
  ∧ cacheDirectory (loadAllCachesFromDisk now s) = cacheDirectory s
  ∧ disk (loadAllCachesFromDisk now s) = disk s
  ∧ (∀ k c, metadataItemsCache (loadAllCachesFromDisk now s) !! k = Some c →
       metadataItemsCache s !! k = Some c
       ∨ ∃ file, loadsFrom s now dir file c ∧ k = keyOfEntry c)
  ∧ (∀ file c, loadsFrom s now dir file c →
       ∃ file' c', metadataItemsCache (loadAllCachesFromDisk now s) !! keyOfEntry c
                   = Some c'
                   ∧ loadsFrom s now dir file' c' ∧ keyOfEntry c' = keyOfEntry c)
  ∧ (∀ file, file ∈ Fs.readdir dir (disk s) →
       JsString.startsWith "metadata-items-" file = true →
       JsString.endsWith ".json" file = true →
       (∀ c, ¬ loadsFrom s now dir file c) →
       (∃ text, Fs.readFile (dir, file) (disk s) = Some (NotJson text))
       ∨ ∃ c, Fs.readFile (dir, file) (disk s) = Some (ItemsJson c)
              ∧ isFresh s now (CachedMetadataItems.ts c) = false).
Proof.
  intros Hdir Hne Hshaped.
  assert (Hskipped : ∀ file, file ∈ Fs.readdir dir (disk s) →
            JsString.startsWith "metadata-items-" file = true →
            JsString.endsWith ".json" file = true →
            (∀ c, ¬ loadsFrom s now dir file c) →
            (∃ text, Fs.readFile (dir, file) (disk s) = Some (NotJson text))
            ∨ ∃ c, Fs.readFile (dir, file) (disk s) = Some (ItemsJson c)
                   ∧ isFresh s now (CachedMetadataItems.ts c) = false).
  { intros file Hin Hprefix Hsuffix Hnot.
    pose proof (proj1 (forallb_forall _ _) Hshaped file (proj1 (list_elem_of_In _ _) Hin))
      as Hfile.
    cbv beta in Hfile. rewrite Hprefix, Hsuffix in Hfile. cbn [andb] in Hfile.
    destruct (readdir_file dir file (disk s) Hin) as [data Hdata].
    rewrite Hdata in Hfile. destruct data as [c|c|text]; [|discriminate|eauto].
    right. exists c. split; [exact Hdata|].
    destruct (isFresh s now (CachedMetadataItems.ts c)) eqn:Hfresh; [|reflexivity].
    destruct (Hnot c). repeat split; assumption. }
  unfold loadAllCachesFromDisk. rewrite Hdir.
  destruct (Fs.existsDir dir (disk s)) eqn:Hex.
  - cbn [TTL_MS metadataTypesCache cacheDirectory disk metadataItemsCache withItemsCache].
    repeat (split; [first [reflexivity | exact Hdir]|]). split.
    + intros k c H. destruct (loadCacheFile_origin _ _ _ _ _ _ _ H)
        as [Hmem|(file & _ & Hc & Hk)]; [left; exact Hmem | right; eauto].
    + split; [|exact Hskipped]. intros file c Hc.
      assert (Hin : file ∈ Fs.readdir dir (disk s)).
      { destruct Hc as (_ & _ & Hread & _). exact (readdir_elem _ _ _ _ Hread). }
      apply list_elem_of_split in Hin as (before & after & Hfiles).
      rewrite Hfiles, foldl_app. simpl.
      destruct (loadCacheFile_cases s now dir
                  (foldl (loadCacheFile s now dir) (metadataItemsCache s) before) file)
        as [(c0 & Hc0 & ->)|[Hnone _]]; [|destruct (Hnone c Hc)].
      assert (c0 = c) as ->.
      { destruct Hc as (_ & _ & Hread & _), Hc0 as (_ & _ & Hread0 & _). congruence. }
      destruct (loadCacheFile_keeps s now dir after (keyOfEntry c)
                  (fun c' => ∃ file', loadsFrom s now dir file' c'
                                      ∧ keyOfEntry c' = keyOfEntry c)
                  ltac:(intros file' c' _ Hc' Hk; exists file'; split; assumption)
                  (<[keyOfEntry c := c]>
                     (foldl (loadCacheFile s now dir) (metadataItemsCache s) before)))
        as (c' & Hlookup & file' & Hc' & Hk).
      { exists c. rewrite lookup_insert_eq. eauto. }
      exists file', c'. auto.
  - repeat (split; [first [reflexivity | exact Hdir]|]). split; [auto|].
    split; [|exact Hskipped].
    intros file c (_ & _ & Hread & _). exfalso.
    unfold Fs.existsDir in Hex. rewrite (nonEmpty_true dir Hne) in Hex. simpl in Hex.
    unfold Fs.readFile in Hread. simpl in Hread.
    destruct (disk s !! dir) eqn:E; [|discriminate].
    rewrite bool_decide_eq_true_2 in Hex by eauto. discriminate.
Qed.

Lemma loadAllCachesFromDisk_entries_witness :
  ∃ file' c',
    metadataItemsCache
      (loadAllCachesFromDisk 20
         (saveMetadataItemsToDisk emptyStore 10
            (CachedMetadataItems.mk "00Dxx" "ApexClass" [item "Foo"] None)))
    !! keyOfEntry (CachedMetadataItems.mk "00Dxx" "ApexClass" [item "Foo"] (Some 10))
    = Some c'
    ∧ loadsFrom
        (saveMetadataItemsToDisk emptyStore 10
           (CachedMetadataItems.mk "00Dxx" "ApexClass" [item "Foo"] None))
        20 "/storage/cache" file' c'
    ∧ keyOfEntry c'
      = keyOfEntry (CachedMetadataItems.mk "00Dxx" "ApexClass" [item "Foo"] (Some 10)).
Proof.
  refine (proj1 (proj2 (proj2 (proj2 (proj2 (proj2
            (loadAllCachesFromDisk_entries
               (saveMetadataItemsToDisk emptyStore 10
                  (CachedMetadataItems.mk "00Dxx" "ApexClass" [item "Foo"] None))
               20 "/storage/cache" eq_refl _ eq_refl))))))
            "metadata-items-00Dxx-ApexClass.json"
            (CachedMetadataItems.mk "00Dxx" "ApexClass" [item "Foo"] (Some 10)) _).
  - discriminate.
  - repeat split; vm_compute; reflexivity.
Defined.

(** X11: at start-up the [enableCache] setting has no effect on the store:
    [activate] applies the settings before the cache directory is set, so
    two configurations with the same clamped [cacheTtlDays] leave the same
    store, whatever their [enableCache]: a start-up with caching disabled
    loads into memory what a start-up with caching enabled loads, and the
    disk is only given its cache directory. *)
Theorem activate_ignores_enableCache (c1 c2 : Config) (dir : string) (now : Z)
    (d : gmap string (gmap string FileData)) :
  ttlDays c1 = ttlDays c2 →
  activate c1 dir now (loaded d) = activate c2 dir now (loaded d)
  ∧ disk (activate c1 dir now (loaded d))
    = (if bool_decide (is_Some (d !! dir)) then d else <[dir := ∅]> d).
Proof.
  intros Httl.
  assert (Happly : ∀ c, applyConfigSettings c (loaded d)
                        = mkStore (ttlDays c * 24 * 60 * 60 * 1000) None ∅ None d).
  { intros c. unfold applyConfigSettings. destruct (cachingEnabledIn c); reflexivity. }
  unfold activate. rewrite !Happly, Httl. split; [reflexivity|].
  unfold loadAllCachesFromDisk, initializeCacheDirectory.
  cbn [cacheDirectory disk]. destruct (Fs.existsDir dir _); reflexivity.
Qed.

(** With one saved item list on disk, a start-up with caching disabled
    gives the store of a start-up with caching enabled. *)
Lemma activate_ignores_enableCache_witness :
  activate cacheOff "/storage/cache" 20
    (loaded (disk (saveMetadataItemsToDisk emptyStore 10
                     (CachedMetadataItems.mk "00Dxx" "ApexClass" [item "Foo"] None))))
  = activate {| cacheTtlDays := Some 7; enableCache := Some true |} "/storage/cache" 20
      (loaded (disk (saveMetadataItemsToDisk emptyStore 10
                       (CachedMetadataItems.mk "00Dxx" "ApexClass" [item "Foo"] None)))).
Proof.
  exact (proj1 (activate_ignores_enableCache cacheOff
                  {| cacheTtlDays := Some 7; enableCache := Some true |}
                  "/storage/cache" 20 _ eq_refl)).
Defined.

(** ** The type catalogue *)

Lemma saveMetadataTypesToDisk_frame (s : Store) (now : Z) (cache : CachedMetadataTypes.t) :
  TTL_MS (saveMetadataTypesToDisk s now cache) = TTL_MS s
  ∧ metadataTypesCache (saveMetadataTypesToDisk s now cache) = metadataTypesCache s
  ∧ metadataItemsCache (saveMetadataTypesToDisk s now cache) = metadataItemsCache s
  ∧ cacheDirectory (saveMetadataTypesToDisk s now cache) = cacheDirectory s
  ∧ ∀ p, getMetadataTypesCachePath s (CachedMetadataTypes.orgId cache) ≠ Some p →
         Fs.readFile p (disk (saveMetadataTypesToDisk s now cache))
         = Fs.readFile p (disk s).
Proof.
  unfold saveMetadataTypesToDisk.
  destruct (getMetadataTypesCachePath s (CachedMetadataTypes.orgId cache))
    as [cachePath|]; [|repeat split; reflexivity].
  destruct (Fs.writeFile cachePath _ (disk s)) as [d|] eqn:Hwrite;
    [|repeat split; reflexivity].
  repeat (split; [reflexivity|]). intros p Hp. cbn [disk withDisk].
  rewrite (readFile_writeFile _ _ _ _ _ Hwrite).
  rewrite bool_decide_eq_false_2 by congruence. reflexivity.
Qed.

Lemma knownOrg_Some (org : option string) (o : string) :
  match org with
  | Some o' => if JsString.nonEmpty o' then Some o' else None
  | None => None
  end = Some o →
  org = Some o ∧ o ≠ "".
Proof.
  destruct org as [o'|]; [|discriminate].
  destruct o' as [|a o']; simpl; [discriminate|].
  intros [= <-]. split; [reflexivity | discriminate].
Qed.

Lemma loadMetadataTypesFromDisk_fresh (s : Store) (now : Z) (o : string)
    (entry : CachedMetadataTypes.t) :
  loadMetadataTypesFromDisk s now o = Some entry →
  isFresh s now (CachedMetadataTypes.ts entry) = true.
Proof.
  unfold loadMetadataTypesFromDisk.
  destruct (getMetadataTypesCachePath s o) as [p|]; [|discriminate].
  destruct (Fs.readFile p (disk s)) as [[c|c|text]|]; try discriminate.
  destruct (isFresh s now (CachedMetadataTypes.ts c)) eqn:Hfresh; [|discriminate].
  intros [= <-]. exact Hfresh.
Qed.

(** What a call of [getMetadataTypes] that does not invoke sf found. *)
Lemma getMetadataTypes_hit (useCache : bool) (config : Config)
    (org : option string) (now later : Z)
    (fetched : SfCliError + option (list MetadataType)) (s : Store) :
  typesInvoked (getMetadataTypes useCache config org now fetched later s) = false →
  useCache = true ∧ cachingEnabledIn config = true
  ∧ ∃ o entry,
      org = Some o ∧ o ≠ ""
      ∧ isFresh s now (CachedMetadataTypes.ts entry) = true
      ∧ typesResult (getMetadataTypes useCache config org now fetched later s)
        = inr (CachedMetadataTypes.metadataTypes entry)
      ∧ ((metadataTypesCache s = Some entry ∧ CachedMetadataTypes.orgId entry = o
          ∧ typesStore (getMetadataTypes useCache config org now fetched later s) = s)
         ∨ (loadMetadataTypesFromDisk s now o = Some entry
            ∧ typesStore (getMetadataTypes useCache config org now fetched later s)
              = withTypesCache s (Some entry))).
Proof.
  intros H. unfold getMetadataTypes in *. cbv zeta in *.
  repeat match type of H with
         | context [match ?x with _ => _ end] =>
             destruct x eqn:?; simpl in H; try discriminate H
         end.
  all: simpl.
  all: match goal with
       | Horg : match ?x with _ => _ end = Some _ |- _ =>
           apply knownOrg_Some in Horg as [-> Hne]
       end.
  all: match goal with
       | Hb : ?b && cachingEnabledIn _ = true |- _ =>
           apply andb_true_iff in Hb as [-> Hon]
       end.
  all: split; [reflexivity|]; split; [exact Hon|].
  - match goal with
    | Hhit : _ && _ = true |- _ => apply andb_true_iff in Hhit as [Heq Hfresh]
    end.
    apply String.eqb_eq in Heq. eexists _, _.
    split; [reflexivity|]. split; [exact Hne|]. split; [exact Hfresh|].
    split; [reflexivity|]. left. auto.
  - match goal with
    | Hload : loadMetadataTypesFromDisk _ _ _ = Some _ |- _ =>
        pose proof (loadMetadataTypesFromDisk_fresh _ _ _ _ Hload) as Hfresh
    end.
    eexists _, _. split; [reflexivity|]. split; [exact Hne|]. split; [exact Hfresh|].
    split; [reflexivity|]. right. auto.
  - match goal with
    | Hload : loadMetadataTypesFromDisk _ _ _ = Some _ |- _ =>
        pose proof (loadMetadataTypesFromDisk_fresh _ _ _ _ Hload) as Hfresh
    end.
    eexists _, _. split; [reflexivity|]. split; [exact Hne|]. split; [exact Hfresh|].
    split; [reflexivity|]. right. auto.
Qed.

Lemma loadMetadataTypesFromDisk_Some (s : Store) (now : Z) (o : string)
    (entry : CachedMetadataTypes.t) :
  loadMetadataTypesFromDisk s now o = Some entry →
  ∃ cachePath, getMetadataTypesCachePath s o = Some cachePath
               ∧ Fs.readFile cachePath (disk s) = Some (TypesJson entry).
Proof.
  unfold loadMetadataTypesFromDisk.
  destruct (getMetadataTypesCachePath s o) as [p|]; [|discriminate].
  destruct (Fs.readFile p (disk s)) as [[c|c|text]|] eqn:Hread; try discriminate.
  destruct (isFresh s now (CachedMetadataTypes.ts c)); [|discriminate].
  intros [= <-]. exists p. split; [reflexivity | exact Hread].
Qed.

Lemma getMetadataTypes_miss (useCache : bool) (config : Config) (o : string)
    (now later : Z) (fetched : SfCliError + option (list MetadataType)) (s : Store) :
  typesInvoked (getMetadataTypes useCache config (Some o) now fetched later s) = true →
  useCache = true → cachingEnabledIn config = true → o ≠ "" →
  (∀ entry, metadataTypesCache s = Some entry → CachedMetadataTypes.orgId entry = o →
            isFresh s now (CachedMetadataTypes.ts entry) = false)
  ∧ loadMetadataTypesFromDisk s now o = None.
Proof.
  intros Hinvoked -> Hon Hne. revert Hinvoked.
  unfold getMetadataTypes. cbv zeta. rewrite (nonEmpty_true o Hne), Hon. cbn [andb].
  destruct (metadataTypesCache s) as [cached|].
  - destruct (String.eqb (CachedMetadataTypes.orgId cached) o) eqn:Horg; simpl.
    + destruct (isFresh s now (CachedMetadataTypes.ts cached)) eqn:Hfresh;
        [discriminate|].
      destruct (loadMetadataTypesFromDisk s now o); [discriminate|].
      intros _. split; [|reflexivity]. intros entry [= <-] _. exact Hfresh.
    + destruct (loadMetadataTypesFromDisk s now o); [discriminate|].
      intros _. split; [|reflexivity]. intros entry [= <-] Heq.
      apply String.eqb_neq in Horg. contradiction.
  - destruct (loadMetadataTypesFromDisk s now o); [discriminate|].
    intros _. split; [|reflexivity]. intros entry Hentry. discriminate.
Qed.

(** X12: when the catalogue file of the organisation, if there is one,
    holds a catalogue entry or text that does not parse, [getMetadataTypes]
    returns without invoking [sf org list metadata-types] only when it was
    asked to use the cache, caching is enabled and the organisation is
    known; what it returns is then the list of a fresh entry: the memory
    entry, when that belongs to the organisation, and the store is left as
    it is, or else the entry that the organisation's file holds, which
    becomes the memory entry. And when the cache may be used for a known
    organisation, sf is invoked only if the memory entry is missing, of
    another organisation or stale, and the file is missing, does not parse
    or is stale. *)
Theorem getMetadataTypes_served_from_cache (useCache : bool) (config : Config)
    (org : option string) (now later : Z)
    (fetched : SfCliError + option (list MetadataType)) (s : Store) :
  typesFileWellShaped s org = true →
  (typesInvoked (getMetadataTypes useCache config org now fetched later s) = false →
   useCache = true ∧ cachingEnabledIn config = true
   ∧ ∃ o entry,
       org = Some o ∧ o ≠ ""
       ∧ isFresh s now (CachedMetadataTypes.ts entry) = true
       ∧ typesResult (getMetadataTypes useCache config org now fetched later s)
         = inr (CachedMetadataTypes.metadataTypes entry)
       ∧ ((metadataTypesCache s = Some entry ∧ CachedMetadataTypes.orgId entry = o
           ∧ typesStore (getMetadataTypes useCache config org now fetched later s) = s)
          ∨ ((∃ cachePath, getMetadataTypesCachePath s o = Some cachePath
                           ∧ Fs.readFile cachePath (disk s) = Some (TypesJson entry))
             ∧ typesStore (getMetadataTypes useCache config org now fetched later s)
               = withTypesCache s (Some entry))))
  ∧ (typesInvoked (getMetadataTypes useCache config org now fetched later s) = true →
     useCache = true → cachingEnabledIn config = true →
     ∀ o, org = Some o → o ≠ "" →
       (∀ entry, metadataTypesCache s = Some entry →
                 CachedMetadataTypes.orgId entry = o →
                 isFresh s now (CachedMetadataTypes.ts entry) = false)
       ∧ (∀ cachePath data,
            getMetadataTypesCachePath s o = Some cachePath →
            Fs.readFile cachePath (disk s) = Some data →
            (∃ text, data = NotJson text)
            ∨ ∃ c, data = TypesJson c
                   ∧ isFresh s now (CachedMetadataTypes.ts c) = false)).
Proof.
  intros Hshaped. split.
  - intros Hinvoked.
    destruct (getMetadataTypes_hit useCache config org now later fetched s Hinvoked)
      as (Huse & Hon & o & entry & Horg & Hne & Hfresh & Hresult & Hfrom).
    split; [exact Huse|]. split; [exact Hon|]. exists o, entry.
    split; [exact Horg|]. split; [exact Hne|]. split; [exact Hfresh|].
    split; [exact Hresult|].
    destruct Hfrom as [Hmem|[Hload Hstore]]; [left; exact Hmem | right].
    split; [exact (loadMetadataTypesFromDisk_Some s now o entry Hload) | exact Hstore].
  - intros Hinvoked Huse Hon o -> Hne.
    destruct (getMetadataTypes_miss useCache config o now later fetched s
                Hinvoked Huse Hon Hne) as [Hmem Hload].
    split; [exact Hmem|]. intros cachePath data Hpath Hdata.
    unfold typesFileWellShaped in Hshaped. rewrite Hpath, Hdata in Hshaped.
    unfold loadMetadataTypesFromDisk in Hload. rewrite Hpath, Hdata in Hload.
    destruct data as [c|c|text]; [discriminate | | eauto].
    right. exists c. split; [reflexivity|].
    destruct (isFresh s now (CachedMetadataTypes.ts c)); [discriminate | reflexivity].
Qed.

(** The memory entry of 00Dxx written at time 10 serves the call at time
    20. *)
Lemma getMetadataTypes_served_from_cache_witness :
  true = true ∧ cachingEnabledIn cacheOn = true.
Proof.
  exact ((fun H => conj (proj1 H) (proj1 (proj2 H)))
           (proj1 (getMetadataTypes_served_from_cache true cacheOn (Some "00Dxx") 20 30
                     (inl listFailed)
                     (withTypesCache emptyStore
                        (Some (CachedMetadataTypes.mk "00Dxx" [] (Some 10))))
                     eq_refl)
              eq_refl)).
Defined.

Lemma isFresh_TTL (s1 s2 : Store) (now : Z) (ts : option Z) :
  TTL_MS s1 = TTL_MS s2 → isFresh s1 now ts = isFresh s2 now ts.
Proof. intros H. unfold isFresh. rewrite H. reflexivity. Qed.

(** X13: once [getMetadataTypes] has fetched the catalogue of an
    organisation with caching enabled, also on a forced refresh, the next
    call that may use the cache returns the same list without invoking sf,
    as long as the time of the fetch is fresh; it does so from memory,
    whether or not the disk write succeeded. *)
Theorem getMetadataTypes_then_cached (useCache : bool) (config : Config) (o : string)
    (now later now2 later2 : Z) (metadataObjects : option (list MetadataType))
    (fetched2 : SfCliError + option (list MetadataType)) (s : Store) :
  cachingEnabledIn config = true → o ≠ "" →
  typesInvoked (getMetadataTypes useCache config (Some o) now (inr metadataObjects) later s)
  = true →
  isFresh s now2 (Some later) = true →
  typesResult (getMetadataTypes useCache config (Some o) now (inr metadataObjects) later s)
  = inr (default [] metadataObjects)
  ∧ getMetadataTypes true config (Some o) now2 fetched2 later2
      (typesStore (getMetadataTypes useCache config (Some o) now (inr metadataObjects)
                     later s))
    = mkTypesCall (inr (default [] metadataObjects)) false
        (typesStore (getMetadataTypes useCache config (Some o) now (inr metadataObjects)
                       later s)).
Proof.
  intros Hon Hne Hinvoked Hfresh.
  pose (cache := CachedMetadataTypes.mk o (default [] metadataObjects) (Some later)).
  assert (Hfirst : getMetadataTypes useCache config (Some o) now (inr metadataObjects)
                     later s
                   = mkTypesCall (inr (default [] metadataObjects)) true
                       (saveMetadataTypesToDisk (withTypesCache s (Some cache)) later
                          cache)).
  { revert Hinvoked. unfold getMetadataTypes. cbv zeta.
    rewrite (nonEmpty_true o Hne), Hon.
    destruct useCache; simpl; [|reflexivity].
    destruct (metadataTypesCache s) as [cached|]; [
      destruct (String.eqb (CachedMetadataTypes.orgId cached) o
                && isFresh s now (CachedMetadataTypes.ts cached)); [discriminate|]|];
      (destruct (loadMetadataTypesFromDisk s now o); [discriminate | reflexivity]). }
  rewrite Hfirst. cbn [typesResult typesStore]. split; [reflexivity|].
  destruct (saveMetadataTypesToDisk_frame (withTypesCache s (Some cache)) later cache)
    as (Httl & Hmem & _).
  unfold getMetadataTypes. cbv zeta. rewrite (nonEmpty_true o Hne), Hon.
  cbn [andb]. rewrite Hmem. cbn [metadataTypesCache withTypesCache].
  rewrite (isFresh_TTL _ s now2 _ Httl).
  cbn [CachedMetadataTypes.orgId CachedMetadataTypes.ts CachedMetadataTypes.metadataTypes
       cache].
  rewrite String.eqb_refl, Hfresh. reflexivity.
Qed.

(** A forced refresh at time 30 in a process without cache directory, and
    the next call at time 40. *)
Lemma getMetadataTypes_then_cached_witness :
  getMetadataTypes true cacheOn (Some "00Dxx") 40 (inl listFailed) 50
    (typesStore (getMetadataTypes false cacheOn (Some "00Dxx") 20 (inr None) 30
                   (loaded ∅)))
  = mkTypesCall (inr []) false
      (typesStore (getMetadataTypes false cacheOn (Some "00Dxx") 20 (inr None) 30
                     (loaded ∅))).
Proof.
  refine (proj2 (getMetadataTypes_then_cached false cacheOn "00Dxx" 20 30 40 50 None
                   (inl listFailed) (loaded ∅) eq_refl _ eq_refl eq_refl)).
  discriminate.
Defined.

(** X14: [getMetadataTypes] never touches the item lists in memory, the
    TTL or the cache directory setting, and on disk at most the catalogue
    file of the organisation. With caching disabled it always invokes sf
    and leaves the store as it is; when it throws, the error is the
    rejection of [runSfJson] and the store is as it was. *)
Theorem getMetadataTypes_frame (useCache : bool) (config : Config) (org : option string)
    (now later : Z) (fetched : SfCliError + option (list MetadataType)) (s : Store) :
  TTL_MS (typesStore (getMetadataTypes useCache config org now fetched later s))
  = TTL_MS s
  ∧ metadataItemsCache (typesStore (getMetadataTypes useCache config org now fetched later s))
    = metadataItemsCache s
  ∧ cacheDirectory (typesStore (getMetadataTypes useCache config org now fetched later s))
    = cacheDirectory s
  ∧ (∀ p, (∀ o, org = Some o → getMetadataTypesCachePath s o ≠ Some p) →
          Fs.readFile p
            (disk (typesStore (getMetadataTypes useCache config org now fetched later s)))
          = Fs.readFile p (disk s))
  ∧ (cachingEnabledIn config = false →
     typesStore (getMetadataTypes useCache config org now fetched later s) = s
     ∧ typesInvoked (getMetadataTypes useCache config org now fetched later s) = true)
  ∧ (∀ e, typesResult (getMetadataTypes useCache config org now fetched later s) = inl e →
          fetched = inl e
          ∧ typesStore (getMetadataTypes useCache config org now fetched later s) = s
          ∧ typesInvoked (getMetadataTypes useCache config org now fetched later s) = true).
Proof.
  unfold getMetadataTypes. cbv zeta.
  repeat match goal with
         | |- context [match ?x with _ => _ end] => destruct x eqn:?; simpl
         end.
  all: repeat match goal with
              | Horg : match ?x with _ => _ end = Some _ |- _ =>
                  apply knownOrg_Some in Horg as [-> ?]
              end.
  all: try match goal with
           | Hb : ?b && cachingEnabledIn _ = true |- _ =>
               apply andb_true_iff in Hb as [-> Hon]
           end.
  all: try match goal with
           | |- context [saveMetadataTypesToDisk ?s1 ?t ?c] =>
               destruct (saveMetadataTypesToDisk_frame s1 t c)
                 as (Httl & _ & Hitems & Hdir & Hdisk)
           end.
  all: repeat split;
         first [ reflexivity | assumption | intros; congruence | intros; discriminate
               | intros p Hp; apply Hdisk, Hp; reflexivity ].
Qed.

Lemma getMetadataTypes_frame_witness :
  typesStore (getMetadataTypes true cacheOff (Some "00Dxx") 20 (inr None) 30 emptyStore)
  = emptyStore
  ∧ typesInvoked (getMetadataTypes true cacheOff (Some "00Dxx") 20 (inr None) 30 emptyStore)
    = true.
Proof.
  exact (proj1 (proj2 (proj2 (proj2 (proj2
           (getMetadataTypes_frame true cacheOff (Some "00Dxx") 20 30 (inr None)
              emptyStore))))) eq_refl).
Defined.

(** ** Invalidation and the read paths *)

Lemma readFile_unlink (p q : Path) (d : gmap string (gmap string FileData)) :
  Fs.readFile q (Fs.unlink p d) = if bool_decide (q = p) then None else Fs.readFile q d.
Proof.
  destruct p as [dir file], q as [dir' file']. unfold Fs.readFile, Fs.unlink. simpl.
  destruct (decide (dir' = dir)) as [->|Hdir].
  - rewrite lookup_alter_eq. destruct (d !! dir) as [listing|]; simpl.
    + destruct (decide (file' = file)) as [->|Hfile].
      * rewrite lookup_delete_eq, bool_decide_eq_true_2; reflexivity.
      * rewrite lookup_delete_ne by congruence.
        rewrite bool_decide_eq_false_2 by congruence. reflexivity.
    + destruct (bool_decide _); reflexivity.
  - rewrite lookup_alter_ne by congruence.
    rewrite bool_decide_eq_false_2 by congruence. reflexivity.
Qed.

Lemma deleteTypesCache_effect (o : string) (s : Store) :
  o ≠ "" →
  TTL_MS (deleteTypesCache (Some o) s) = TTL_MS s
  ∧ cacheDirectory (deleteTypesCache (Some o) s) = cacheDirectory s
  ∧ metadataItemsCache (deleteTypesCache (Some o) s) = metadataItemsCache s
  ∧ metadataTypesCache (deleteTypesCache (Some o) s)
    = (match metadataTypesCache s with
       | Some cached =>
           if String.eqb (CachedMetadataTypes.orgId cached) o then None else Some cached
       | None => None
       end)
  ∧ ∀ p, Fs.readFile p (disk (deleteTypesCache (Some o) s))
         = if bool_decide (getMetadataTypesCachePath s o = Some p)
           then None else Fs.readFile p (disk s).
Proof.
  intros Hne. unfold deleteTypesCache. rewrite (nonEmpty_true o Hne).
  cbn [TTL_MS cacheDirectory metadataItemsCache metadataTypesCache disk].
  repeat (split; [reflexivity|]). intros p.
  destruct (getMetadataTypesCachePath s o) as [cachePath|];
    [|rewrite bool_decide_eq_false_2 by discriminate; reflexivity].
  unfold Fs.existsSync. case_bool_decide as Hex.
  - rewrite readFile_unlink.
    destruct (decide (p = cachePath)) as [->|Hp].
    + rewrite !bool_decide_eq_true_2; reflexivity.
    + rewrite !bool_decide_eq_false_2 by congruence. reflexivity.
  - case_bool_decide as Hp; [|reflexivity].
    injection Hp as <-. destruct (Fs.readFile cachePath (disk s)) eqn:Hread;
      [exfalso; apply Hex; eauto | reflexivity].
Qed.

(** X15: after [deleteTypesCache] for an organisation, the next
    [getMetadataTypes] for it finds neither a memory entry nor a file and
    invokes sf, whatever was cached before. The command leaves the item
    lists, the TTL and every other file alone, and keeps the memory entry of
    another organisation. *)
Theorem deleteTypesCache_then_fetch (o : string) (s : Store) (useCache : bool)
    (config : Config) (now later : Z)
    (fetched : SfCliError + option (list MetadataType)) :
  o ≠ "" →
  typesInvoked (getMetadataTypes useCache config (Some o) now fetched later
                  (deleteTypesCache (Some o) s)) = true
  ∧ metadataItemsCache (deleteTypesCache (Some o) s) = metadataItemsCache s
  ∧ TTL_MS (deleteTypesCache (Some o) s) = TTL_MS s
  ∧ (∀ p, getMetadataTypesCachePath s o ≠ Some p →
          Fs.readFile p (disk (deleteTypesCache (Some o) s)) = Fs.readFile p (disk s))
  ∧ (∀ cached, metadataTypesCache s = Some cached →
               CachedMetadataTypes.orgId cached ≠ o →
               metadataTypesCache (deleteTypesCache (Some o) s) = Some cached).
Proof.
  intros Hne.
  destruct (deleteTypesCache_effect o s Hne) as (Httl & Hdir & Hitems & Hmem & Hdisk).
  split; [|split; [exact Hitems|split; [exact Httl|split]]].
  - destruct (typesInvoked _) eqn:Hinvoked; [reflexivity|]. exfalso.
    apply getMetadataTypes_hit in Hinvoked
      as (_ & _ & o' & entry & [= <-] & _ & _ & _ & [(Hentry & Horg & _)|(Hload & _)]).
    + rewrite Hmem in Hentry. destruct (metadataTypesCache s) as [cached|]; [|discriminate].
      destruct (String.eqb (CachedMetadataTypes.orgId cached) o) eqn:Heq; [discriminate|].
      injection Hentry as ->. apply String.eqb_neq in Heq. contradiction.
    + unfold loadMetadataTypesFromDisk in Hload.
      assert (Hpath : getMetadataTypesCachePath (deleteTypesCache (Some o) s) o
                      = getMetadataTypesCachePath s o).
      { unfold getMetadataTypesCachePath. rewrite Hdir. reflexivity. }
      rewrite Hpath in Hload.
      destruct (getMetadataTypesCachePath s o) as [p|] eqn:Hp; [|discriminate].
      rewrite Hdisk, bool_decide_eq_true_2 in Hload by reflexivity. discriminate.
  - intros p Hp. rewrite Hdisk, bool_decide_eq_false_2 by exact Hp. reflexivity.
  - intros cached Hcached Horg. rewrite Hmem, Hcached.
    apply String.eqb_neq in Horg. rewrite Horg. reflexivity.
Qed.

Lemma deleteTypesCache_then_fetch_witness :
  typesInvoked
    (getMetadataTypes true cacheOn (Some "00Dxx") 40 (inr None) 50
       (deleteTypesCache (Some "00Dxx")
          (typesStore (getMetadataTypes true cacheOn (Some "00Dxx") 20 (inr None) 30
                         emptyStore)))) = true.
Proof.
  refine (proj1 (deleteTypesCache_then_fetch "00Dxx"
                   (typesStore (getMetadataTypes true cacheOn (Some "00Dxx") 20 (inr None)
                                  30 emptyStore))
                   true cacheOn 40 50 (inr None) _)).
  discriminate.
Defined.

(** X16: after [deleteItemsCache] for an organisation,
    [loadMetadataItemsFromDisk] finds no file for any type of that
    organisation, so the disk read path of [getMetadataItems] misses. *)
Theorem deleteItemsCache_then_disk_miss (org metadataType : string) (s : Store) (now : Z) :
  org ≠ "" → cacheDirectory s ≠ Some "" →
  loadMetadataItemsFromDisk (deleteItemsCache (Some org) s) now org metadataType = None.
Proof.
  intros Hne Hdir. unfold loadMetadataItemsFromDisk, getMetadataItemsCachePath.
  assert (Hsame : cacheDirectory (deleteItemsCache (Some org) s) = cacheDirectory s).
  { unfold deleteItemsCache. rewrite (nonEmpty_true org Hne). reflexivity. }
  rewrite Hsame. destruct (cacheDirectory s) as [dir|] eqn:Hcache; [|reflexivity].
  cbn [mbind option_bind].
  rewrite (deleteItemsCache_disk s org dir _ Hne Hcache) by congruence.
  unfold isItemsFileOf.
  replace ("metadata-items-" ++ org ++ "-" ++ JsString.sanitize metadataType ++ ".json")
    with (("metadata-items-" ++ org ++ "-") ++ JsString.sanitize metadataType ++ ".json")
    by (rewrite !string_app_assoc; reflexivity).
  rewrite startsWith_app.
  rewrite <- (string_app_assoc _ (JsString.sanitize metadataType) ".json").
  rewrite endsWith_app. reflexivity.
Qed.

Lemma deleteItemsCache_then_disk_miss_witness :
  loadMetadataItemsFromDisk (deleteItemsCache (Some "00Dxx") twoOrgStore) 20 "00Dxx" "A"
  = None.
Proof.
  apply deleteItemsCache_then_disk_miss; [discriminate | vm_compute; discriminate].
Defined.

(** ** Settings applied more than once *)

Lemma unlinkWhere_nothing (doomed : string → bool) (dir : string) (files : list string)
    (d : gmap string (gmap string FileData)) :
  Forall (fun f => doomed f = false) files → Fs.unlinkWhere doomed dir files d = d.
Proof.
  unfold Fs.unlinkWhere. revert d.
  induction files as [|f files IH]; intros d Hall; simpl; [reflexivity|].
  rewrite (Forall_inv Hall). apply IH. exact (Forall_inv_tail Hall).
Qed.

Lemma readdir_unlinkWhere (doomed : string → bool) (dir : string)
    (d : gmap string (gmap string FileData)) :
  Forall (fun f => doomed f = false)
    (Fs.readdir dir (Fs.unlinkWhere doomed dir (Fs.readdir dir d) d)).
Proof.
  apply Forall_forall. intros f Hin.
  assert (Hsome : is_Some (Fs.readFile (dir, f)
                             (Fs.unlinkWhere doomed dir (Fs.readdir dir d) d))).
  { unfold Fs.readdir in Hin at 1. unfold Fs.readFile. simpl.
    destruct (Fs.unlinkWhere doomed dir (Fs.readdir dir d) d !! dir) as [listing|];
      [|apply elem_of_nil in Hin; contradiction].
    apply list_elem_of_fmap in Hin as ([f' data] & -> & Hin).
    apply elem_of_map_to_list in Hin. simpl. eauto. }
  rewrite readFile_unlinkWhere in Hsome.
  destruct (doomed f); [destruct Hsome; discriminate | reflexivity].
Qed.

Lemma existsDir_unlinkWhere (doomed : string → bool) (dir : string) (files : list string)
    (d : gmap string (gmap string FileData)) :
  Fs.existsDir dir (Fs.unlinkWhere doomed dir files d) = Fs.existsDir dir d.
Proof.
  unfold Fs.existsDir. f_equal. apply bool_decide_ext.
  rewrite unlinkWhere_listing. destruct (d !! dir); simpl; split; intros [x H]; eauto;
    discriminate.
Qed.

(** X17: applying settings twice gives what the second application alone
    gives, unless caching was disabled by the first and is enabled by the
    second: the last configuration wins, a purge is not repeated on an
    already purged directory, and in particular [applyConfigSettings] is
    idempotent. *)
Theorem applyConfigSettings_last_wins (c1 c2 : Config) (s : Store) :
  cachingEnabledIn c1 = true ∨ cachingEnabledIn c2 = false →
  applyConfigSettings c2 (applyConfigSettings c1 s) = applyConfigSettings c2 s.
Proof.
  intros Hcase. unfold applyConfigSettings.
  destruct (cachingEnabledIn c1) eqn:H1; [reflexivity|].
  destruct Hcase as [Hcase|H2]; [discriminate|]. rewrite H2.
  cbn [TTL_MS metadataTypesCache metadataItemsCache cacheDirectory disk]. f_equal.
  destruct (cacheDirectory s) as [dir|]; [|reflexivity].
  destruct (JsString.nonEmpty dir); simpl; [|reflexivity].
  destruct (Fs.existsDir dir (disk s)) eqn:Hex; [|rewrite Hex; reflexivity].
  rewrite existsDir_unlinkWhere, Hex.
  apply unlinkWhere_nothing, readdir_unlinkWhere.
Qed.

Lemma applyConfigSettings_last_wins_witness :
  applyConfigSettings cacheOff (applyConfigSettings cacheOff twoOrgStore)
  = applyConfigSettings cacheOff twoOrgStore.
Proof.
  apply applyConfigSettings_last_wins. right. reflexivity.
Defined.

(** X18: whatever the settings, once [applyConfigSettings] has run an
    entry written less than one day ago is fresh, and an entry with a
    non-zero timestamp written thirty days ago or more is stale. *)
Theorem isFresh_between_one_and_thirty_days (config : Config) (s : Store) (now ts : Z) :
  (now - ts < 24 * 60 * 60 * 1000 →
   isFresh (applyConfigSettings config s) now (Some ts) = true)
  ∧ (ts ≠ 0 → 30 * 24 * 60 * 60 * 1000 ≤ now - ts →
     isFresh (applyConfigSettings config s) now (Some ts) = false).
Proof.
  assert (Httl : TTL_MS (applyConfigSettings config s)
                 = ttlDays config * 24 * 60 * 60 * 1000).
  { unfold applyConfigSettings. destruct (cachingEnabledIn config); reflexivity. }
  assert (Hdays : 1 ≤ ttlDays config ≤ 30) by (unfold ttlDays; lia).
  unfold isFresh. rewrite Httl. split.
  - intros Hrecent. destruct (ts =? 0); [reflexivity|]. apply Z.ltb_lt. lia.
  - intros Hts Hold. destruct (Z.eqb_spec ts 0) as [->|_]; [contradiction|].
    apply Z.ltb_ge. lia.
Qed.

Lemma isFresh_between_one_and_thirty_days_witness :
  isFresh (applyConfigSettings cacheOff emptyStore) 86400000 (Some 1) = true
  ∧ isFresh (applyConfigSettings cacheOn emptyStore) 2592000001 (Some 1) = false.
Proof.
  split.
  - apply (proj1 (isFresh_between_one_and_thirty_days cacheOff emptyStore 86400000 1)).
    lia.
  - apply (proj2 (isFresh_between_one_and_thirty_days cacheOn emptyStore 2592000001 1));
      lia.
Defined.

(** ** [inflightItems] is released *)

Lemma registered_update_call (w w' : World) (i : nat) (c c' : Call) :
  registered w → calls w !! i = Some c →
  (∀ k p, callCaching c = true → callPhase c ≠ Awaiting (Some k) p true) →
  (∀ k p, inflightItems w' !! k = Some p → inflightItems w !! k = Some p) →
  fetches w' = fetches w → calls w' = <[i := c']> (calls w) →
  registered w'.
Proof.
  intros Hreg Hc Hfree Hin Hfs Hcs k p Hk.
  destruct (Hreg k p (Hin k p Hk)) as (f & c0 & Hf & Hkey & Hc0 & Hcaching & Hph).
  exists f, c0. rewrite Hfs, Hcs. split; [exact Hf|]. split; [exact Hkey|].
  split; [|split; assumption].
  rewrite list_lookup_insert_ne; [exact Hc0|].
  intros Heq. rewrite <- Heq, Hc in Hc0. injection Hc0 as <-.
  exact (Hfree k p Hcaching Hph).
Qed.

Lemma registered_startOrJoin (w : World) (i : nat) (c : Call) (org key : option string) :
  registered w → calls w !! i = Some c → beforeFetch (callPhase c) →
  registered (startOrJoin i c org key w).
Proof.
  intros Hreg Hc Hbefore.
  assert (Hfree : ∀ k p, callCaching c = true → callPhase c ≠ Awaiting (Some k) p true).
  { intros k p _ Hph. rewrite Hph in Hbefore. exact Hbefore. }
  unfold startOrJoin. destruct (key ≫= _) as [p|] eqn:Hjoin.
  - eapply (registered_update_call w _ i c _ Hreg Hc Hfree); [intros k0 p0 Hk0; exact Hk0 | reflexivity..].
  - intros k p Hk. cbn [inflightItems fetches calls] in *.
    assert (Hold : inflightItems w !! k = Some p →
              ∃ f c0, (fetches w ++ [mkFetch key org (callType c) (callCaching c) i Spawned])%list
                      !! p = Some f
                      ∧ fetchKey f = Some k
                      ∧ <[i := mkCall (callType c) (callCaching c)
                                 (Awaiting key (length (fetches w)) true)]> (calls w)
                        !! fetchOwner f = Some c0
                      ∧ callCaching c0 = true
                      ∧ callPhase c0 = Awaiting (Some k) p true).
    { intros Hk'. destruct (Hreg k p Hk') as (f & c0 & Hf & Hkey & Hc0 & Hcaching & Hph).
      exists f, c0. split; [apply lookup_app_l_Some; exact Hf|]. split; [exact Hkey|].
      split; [|split; assumption].
      rewrite list_lookup_insert_ne; [exact Hc0|].
      intros Heq. rewrite <- Heq, Hc in Hc0. injection Hc0 as <-.
      exact (Hfree k p Hcaching Hph). }
    destruct key as [k0|]; [|exact (Hold Hk)].
    destruct (callCaching c) eqn:Hcaching; [|exact (Hold Hk)].
    destruct (decide (k = k0)) as [->|Hne].
    + rewrite lookup_insert_eq in Hk. injection Hk as <-.
      eexists _, _. split; [apply list_lookup_middle; reflexivity|].
      split; [reflexivity|]. cbn [fetchOwner].
      split; [apply list_lookup_insert_eq, (lookup_lt_Some _ _ _ Hc)|].
      split; reflexivity.
    + rewrite lookup_insert_ne in Hk by congruence. exact (Hold Hk).
Qed.

Lemma registered_setFetch (w : World) (p : nat) (f : Fetch) (st : FetchState) (s : Store) :
  registered w → fetches w !! p = Some f → registered (setFetch p f st s w).
Proof.
  intros Hreg Hf k q Hk. cbn [setFetch inflightItems fetches calls] in *.
  destruct (Hreg k q Hk) as (f0 & c0 & Hf0 & Hkey & Hc0 & Hrest).
  destruct (decide (q = p)) as [->|Hne].
  - rewrite Hf in Hf0. injection Hf0 as <-.
    eexists _, c0. split; [apply list_lookup_insert_eq, (lookup_lt_Some _ _ _ Hf)|].
    cbn [fetchKey fetchOwner]. auto.
  - exists f0, c0. split; [rewrite list_lookup_insert_ne by congruence; exact Hf0|]. auto.
Qed.

Lemma registered_afterFetch (w : World) (i : nat) (c : Call) (key : option string)
    (p : nat) (owner : bool) (o : Outcome) :
  registered w → calls w !! i = Some c → callPhase c = Awaiting key p owner →
  registered (afterFetch i c key p owner o w).
Proof.
  intros Hreg Hc Hph k q Hk.
  assert (Hold : inflightItems w !! k = Some q →
            (key = Some k → owner && callCaching c = false) →
            ∃ f c0, fetches w !! q = Some f ∧ fetchKey f = Some k
                    ∧ <[i := mkCall (callType c) (callCaching c) (Returned (Promise p) o)]>
                        (calls w) !! fetchOwner f = Some c0
                    ∧ callCaching c0 = true
                    ∧ callPhase c0 = Awaiting (Some k) q true).
  { intros Hk' Hother.
    destruct (Hreg k q Hk') as (f & c0 & Hf & Hkey & Hc0 & Hcaching & Hph0).
    exists f, c0. split; [exact Hf|]. split; [exact Hkey|]. split; [|split; assumption].
    rewrite list_lookup_insert_ne; [exact Hc0|].
    intros Heq. rewrite <- Heq, Hc in Hc0. injection Hc0 as <-.
    rewrite Hph in Hph0. injection Hph0 as -> -> ->.
    specialize (Hother eq_refl). rewrite Hcaching in Hother. discriminate. }
  unfold afterFetch in *. destruct key as [k0|].
  - destruct (owner && callCaching c) eqn:Hrelease;
      cbn [setPhase inflightItems fetches calls] in *.
    + destruct (decide (k = k0)) as [->|Hne];
        [rewrite lookup_delete_eq in Hk; discriminate|].
      rewrite lookup_delete_ne in Hk by congruence.
      apply Hold; [exact Hk | congruence].
    + apply Hold; [exact Hk | intros _; reflexivity].
  - cbn [setPhase inflightItems fetches calls] in *.
    apply Hold; [exact Hk | discriminate].
Qed.

Lemma registered_step (e : Event) (w w' : World) :
  registered w → step e w = Some w' → registered w'.
Proof.
  intros Hreg Hstep. destruct e as [ty|i org|i|p r|p|i|ms|cfg]; simpl in Hstep.
  - injection Hstep as <-. intros k p Hk.
    destruct (Hreg k p Hk) as (f & c & Hf & Hkey & Hc & Hrest).
    exists f, c. split; [exact Hf|]. split; [exact Hkey|].
    split; [apply lookup_app_l_Some; exact Hc | exact Hrest].
  - destruct (calls w !! i) as [c|] eqn:Hc; [|discriminate]. simpl in Hstep.
    destruct (callPhase c) eqn:Hph; try discriminate. injection Hstep as <-.
    assert (Hbefore : beforeFetch (callPhase c)) by (rewrite Hph; exact I).
    assert (Hfree : ∀ k p, callPhase c ≠ Awaiting (Some k) p true)
      by (intros k p; rewrite Hph; discriminate).
    unfold afterOrg.
    destruct (cacheKeyFor org (callType c)) as [key|];
      [destruct org as [o|]|];
      try (apply registered_startOrJoin; assumption).
    destruct (callCaching c); [|apply registered_startOrJoin; assumption].
    destruct (memoryHit (store w) (clock w) key);
      (eapply (registered_update_call w _ i c _ Hreg Hc (fun k p _ => Hfree k p));
       [intros k0 p0 Hk0; exact Hk0 | reflexivity..]).
  - destruct (calls w !! i) as [c|] eqn:Hc; [|discriminate]. simpl in Hstep.
    destruct (callPhase c) eqn:Hph; try discriminate. injection Hstep as <-.
    assert (Hbefore : beforeFetch (callPhase c)) by (rewrite Hph; exact I).
    assert (Hfree : ∀ k p, callPhase c ≠ Awaiting (Some k) p true)
      by (intros k p; rewrite Hph; discriminate).
    unfold afterDisk.
    destruct (if existed then _ else None) as [diskCache|].
    + eapply (registered_update_call w _ i c _ Hreg Hc (fun k p _ => Hfree k p));
        [intros k0 p0 Hk0; exact Hk0 | reflexivity..].
    + apply registered_startOrJoin; assumption.
  - destruct (fetches w !! p) as [f|] eqn:Hf; [|discriminate]. simpl in Hstep.
    destruct (fetchState f) eqn:Hst; try discriminate. injection Hstep as <-.
    unfold afterProcess.
    destruct r as [err|result];
      [|destruct (fetchKey f), (fetchOrg f); [destruct (fetchCaching f)| | |]];
      apply registered_setFetch; assumption.
  - destruct (fetches w !! p) as [f|] eqn:Hf; [|discriminate]. simpl in Hstep.
    destruct (fetchState f) eqn:Hst; try discriminate. injection Hstep as <-.
    apply registered_setFetch; assumption.
  - destruct (calls w !! i) as [c|] eqn:Hc; [|discriminate]. simpl in Hstep.
    destruct (callPhase c) eqn:Hph; try discriminate.
    destruct (fetches w !! p) as [f|] eqn:Hf; [|discriminate]. simpl in Hstep.
    destruct (fetchState f) eqn:Hst; try discriminate. injection Hstep as <-.
    apply registered_afterFetch; assumption.
  - injection Hstep as <-. exact Hreg.
  - injection Hstep as <-. exact Hreg.
Qed.

Lemma registered_run (events : list Event) (w w' : World) :
  registered w → run events w = Some w' → registered w'.
Proof.
  revert w. induction events as [|e events IH]; intros w Hreg; simpl.
  - intros [= <-]. exact Hreg.
  - destruct (step e w) as [w1|] eqn:Hstep; [|discriminate].
    apply IH. exact (registered_step e w w1 Hreg Hstep).
Qed.

(** X19: at every point of every run of the event loop, each entry of
    [inflightItems] names a promise of its own key whose creating call was
    made with caching enabled and still awaits that promise: no entry
    outlives the call that made it, so once every call has returned,
    [inflightItems] is empty, whether the fetches were fulfilled or
    rejected. *)
Theorem inflightItems_released (events : list Event) (s : Store) (cfg : Config) (now : Z)
    (w : World) :
  run events (idle s cfg now) = Some w →
  registered w
  ∧ ((∀ i c, calls w !! i = Some c → ∃ src o, callPhase c = Returned src o) →
     inflightItems w = ∅).
Proof.
  intros Hrun.
  assert (Hreg : registered w).
  { apply (registered_run events (idle s cfg now) w); [|exact Hrun].
    intros k p Hk. simpl in Hk. rewrite lookup_empty in Hk. discriminate. }
  split; [exact Hreg|]. intros Hdone. apply map_empty. intros k.
  destruct (inflightItems w !! k) as [p|] eqn:Hk; [|reflexivity].
  destruct (Hreg k p Hk) as (f & c & _ & _ & Hc & _ & Hph).
  destruct (Hdone _ c Hc) as (src & o & Hret). congruence.
Qed.

(** The first call's fetch is rejected, the second call fetches again; when
    both have returned nothing is in flight. *)
Lemma inflightItems_released_witness :
  ∃ w, run lateSecondCall (idle emptyStore cacheOn 1000) = Some w ∧ inflightItems w = ∅.
Proof.
  destruct (run lateSecondCall (idle emptyStore cacheOn 1000)) as [w|] eqn:Hrun;
    [|vm_compute in Hrun; discriminate].
  exists w. split; [reflexivity|].
  apply (proj2 (inflightItems_released lateSecondCall emptyStore cacheOn 1000 w Hrun)).
  vm_compute in Hrun. injection Hrun as <-. intros i c Hc.
  destruct i as [|[|i]]; simpl in Hc; [| |discriminate];
    injection Hc as <-; eauto.
Defined.

(** ** Caching disabled from the start *)

Lemma servedByOwnFetch_app (fs more : list Fetch) (i : nat) (ph : Phase) :
  servedByOwnFetch fs i ph → servedByOwnFetch (fs ++ more) i ph.
Proof.
  destruct ph as [| |key p owner|[| |p] o]; simpl; auto.
  - intros [Howner (f & Hf & Hi)]. split; [exact Howner|].
    exists f. split; [apply lookup_app_l_Some; exact Hf | exact Hi].
  - intros (f & Hf & Hi). exists f. split; [apply lookup_app_l_Some; exact Hf | exact Hi].
Qed.

Lemma servedByOwnFetch_insert (fs : list Fetch) (p : nat) (f : Fetch) (st : FetchState)
    (i : nat) (ph : Phase) :
  fs !! p = Some f →
  servedByOwnFetch fs i ph →
  servedByOwnFetch
    (<[p := mkFetch (fetchKey f) (fetchOrg f) (fetchType f) (fetchCaching f)
              (fetchOwner f) st]> fs) i ph.
Proof.
  intros Hf.
  assert (Hkeep : ∀ q, (∃ g, fs !! q = Some g ∧ fetchOwner g = i) →
            ∃ g, <[p := mkFetch (fetchKey f) (fetchOrg f) (fetchType f) (fetchCaching f)
                           (fetchOwner f) st]> fs !! q = Some g ∧ fetchOwner g = i).
  { intros q (g & Hg & Hi). destruct (decide (q = p)) as [->|Hne].
    - rewrite Hf in Hg. injection Hg as <-. eexists.
      split; [apply list_lookup_insert_eq, (lookup_lt_Some _ _ _ Hf) | exact Hi].
    - exists g. split; [rewrite list_lookup_insert_ne by congruence; exact Hg | exact Hi]. }
  destruct ph as [| |key q owner|[| |q] o]; simpl; auto.
  intros [Howner Hq]. split; [exact Howner | apply Hkeep; exact Hq].
Qed.

Lemma uncached_step (s : Store) (cfg : Config) (e : Event) (w w' : World) :
  cachingEnabledIn cfg = false →
  (∀ c, e ≠ ConfigChanged c) →
  uncached s cfg w → step e w = Some w' → uncached s cfg w'.
Proof.
  intros Hoff Hkept (Hcfg & Hstore & Hin & Hcalls & Hfetches) Hstep.
  destruct e as [ty|i org|i|p r|p|i|ms|c0]; simpl in Hstep.
  - injection Hstep as <-. repeat (split; [assumption|]). split; [|exact Hfetches].
    intros i c Hc. cbn [calls fetches] in *.
    apply lookup_app_Some in Hc as [Hc|[_ Hc]]; [exact (Hcalls i c Hc)|].
    destruct (i - length (calls w))%nat as [|n]; [|destruct n; discriminate].
    injection Hc as <-. rewrite Hcfg, Hoff. split; [reflexivity | exact I].
  - destruct (calls w !! i) as [c|] eqn:Hc; [|discriminate]. simpl in Hstep.
    destruct (callPhase c) eqn:Hph; try discriminate. injection Hstep as <-.
    destruct (Hcalls i c Hc) as [Hcaching _].
    assert (Hstart : ∀ key, uncached s cfg (startOrJoin i c org key w)).
    { intros key. unfold startOrJoin.
      assert (Hnone : key ≫= (fun k => inflightItems w !! k) = None).
      { destruct key; [simpl; rewrite Hin; apply lookup_empty | reflexivity]. }
      rewrite Hnone, Hcaching. split; [exact Hcfg|]. split; [exact Hstore|].
      split; [destruct key; exact Hin|]. cbn [calls fetches]. split.
      - intros j cj Hcj. apply list_lookup_insert_Some in Hcj as [(<- & <- & _)|[Hne Hcj]].
        + split; [reflexivity|]. simpl. split; [reflexivity|].
          eexists. split; [apply list_lookup_middle; reflexivity | reflexivity].
        + destruct (Hcalls j cj Hcj) as [Hoffj Hserved].
          split; [exact Hoffj | apply servedByOwnFetch_app; exact Hserved].
      - intros p f Hf. apply lookup_app_Some in Hf as [Hf|[_ Hf]];
          [exact (Hfetches p f Hf)|].
        destruct (p - length (fetches w))%nat as [|n]; [|destruct n; discriminate].
        injection Hf as <-. split; [reflexivity | discriminate]. }
    unfold afterOrg. rewrite Hcaching.
    destruct (cacheKeyFor org (callType c)); [destruct org|]; apply Hstart.
  - destruct (calls w !! i) as [c|] eqn:Hc; [|discriminate]. simpl in Hstep.
    destruct (callPhase c) eqn:Hph; try discriminate.
    destruct (Hcalls i c Hc) as [_ Hserved]. rewrite Hph in Hserved. destruct Hserved.
  - destruct (fetches w !! p) as [f|] eqn:Hf; [|discriminate]. simpl in Hstep.
    destruct (fetchState f) eqn:Hst; try discriminate. injection Hstep as <-.
    destruct (Hfetches p f Hf) as [Hcaching _].
    assert (Hset : ∀ o, uncached s cfg (setFetch p f (Finished o) (store w) w)).
    { intros o. split; [exact Hcfg|]. split; [exact Hstore|]. split; [exact Hin|].
      cbn [setFetch calls fetches]. split.
      - intros j cj Hcj. destruct (Hcalls j cj Hcj) as [Hoffj Hserved].
        split; [exact Hoffj | apply servedByOwnFetch_insert; assumption].
      - intros q g Hg. apply list_lookup_insert_Some in Hg as [(<- & <- & _)|[Hne Hg]];
          [split; [exact Hcaching | discriminate] | exact (Hfetches q g Hg)]. }
    unfold afterProcess. rewrite Hcaching.
    destruct r as [err|result]; [|destruct (fetchKey f), (fetchOrg f)]; apply Hset.
  - destruct (fetches w !! p) as [f|] eqn:Hf; [|discriminate]. simpl in Hstep.
    destruct (fetchState f) eqn:Hst; try discriminate.
    destruct (Hfetches p f Hf) as [_ Hnot]. destruct (Hnot _ _ Hst).
  - destruct (calls w !! i) as [c|] eqn:Hc; [|discriminate]. simpl in Hstep.
    destruct (callPhase c) eqn:Hph; try discriminate.
    destruct (fetches w !! p) as [f|] eqn:Hf; [|discriminate]. simpl in Hstep.
    destruct (fetchState f) eqn:Hst; try discriminate. injection Hstep as <-.
    destruct (Hcalls i c Hc) as [Hcaching Hserved]. rewrite Hph in Hserved.
    destruct Hserved as [_ Hown].
    assert (Hret : uncached s cfg (setPhase i c (Returned (Promise p) o) w)).
    { split; [exact Hcfg|]. split; [exact Hstore|]. split; [exact Hin|].
      cbn [setPhase calls fetches]. split; [|exact Hfetches].
      intros j cj Hcj. apply list_lookup_insert_Some in Hcj as [(<- & <- & _)|[Hne Hcj]];
        [split; [exact Hcaching | exact Hown] | exact (Hcalls j cj Hcj)]. }
    unfold afterFetch. rewrite Hcaching, andb_false_r. destruct key; exact Hret.
  - injection Hstep as <-. repeat (split; [assumption|]). assumption.
  - destruct (Hkept c0 eq_refl).
Qed.

(** X20: when caching is disabled and the settings do not change during
    the run, [getMetadataItems] bypasses cache and coalescer entirely: the
    store is never read into a result nor written, [inflightItems] stays
    empty, and every call past the resolution of the organisation awaits or
    has returned the outcome of a promise that it created itself, so each
    call makes its own sf invocation. *)
Theorem disabled_run_bypasses_cache (events : list Event) (s : Store) (cfg : Config)
    (now : Z) (w : World) :
  cachingEnabledIn cfg = false →
  settingsKept events = true →
  run events (idle s cfg now) = Some w →
  store w = s ∧ inflightItems w = ∅
  ∧ ∀ i c, calls w !! i = Some c → servedByOwnFetch (fetches w) i (callPhase c).
Proof.
  intros Hoff Hkept Hrun.
  assert (Hinv : uncached s cfg w).
  { assert (Hidle : uncached s cfg (idle s cfg now)).
    { repeat (split; [reflexivity|]). split; intros i c Hc; discriminate. }
    revert Hkept Hrun Hidle. generalize (idle s cfg now).
    induction events as [|e events IH]; intros w0 Hkept Hrun Hinv; simpl in *.
    - injection Hrun as <-. exact Hinv.
    - apply andb_true_iff in Hkept as [He Hkept].
      destruct (step e w0) as [w1|] eqn:Hstep; [|discriminate].
      apply (IH w1 Hkept Hrun). apply (uncached_step s cfg e w0 w1 Hoff); auto.
      intros c ->. discriminate. }
  destruct Hinv as (_ & Hstore & Hin & Hcalls & _).
  split; [exact Hstore|]. split; [exact Hin|].
  intros i c Hc. exact (proj2 (Hcalls i c Hc)).
Qed.

(** Two calls for one type with caching disabled: two promises. *)
Lemma disabled_run_bypasses_cache_witness :
  ∃ w, run [Invoke "ApexClass"; Invoke "ApexClass"; OrgResolved 0 (Some "00Dxx");
            OrgResolved 1 (Some "00Dxx"); ProcessClosed 1 (inr (Some [item "Foo"]));
            Resumed 1]
         (idle twoOrgStore cacheOff 1000) = Some w
       ∧ store w = twoOrgStore ∧ inflightItems w = ∅ ∧ length (fetches w) = 2%nat.
Proof.
  destruct (run [Invoke "ApexClass"; Invoke "ApexClass"; OrgResolved 0 (Some "00Dxx");
                 OrgResolved 1 (Some "00Dxx"); ProcessClosed 1 (inr (Some [item "Foo"]));
                 Resumed 1] (idle twoOrgStore cacheOff 1000)) as [w|] eqn:Hrun;
    [|vm_compute in Hrun; discriminate].
  exists w. split; [reflexivity|].
  destruct (disabled_run_bypasses_cache
              [Invoke "ApexClass"; Invoke "ApexClass"; OrgResolved 0 (Some "00Dxx");
               OrgResolved 1 (Some "00Dxx"); ProcessClosed 1 (inr (Some [item "Foo"]));
               Resumed 1]
              twoOrgStore cacheOff 1000 w eq_refl eq_refl Hrun)
    as (Hstore & Hin & _).
  split; [exact Hstore|]. split; [exact Hin|].
  vm_compute in Hrun. injection Hrun as <-. reflexivity.
Defined.

(** ** The write path and the next call *)

(** X21: when the process of a caching fetch closes with a list, the list
    is in the memory tier at once: a call for the same organisation and
    type made next returns it from memory within the TTL, while the disk
    write of the fetch is still pending and before the fetching call has
    resumed, and no further sf invocation is made. *)
Theorem fetched_items_served_from_memory (w : World) (p : nat) (f : Fetch)
    (o ty : string) (result : option (list MetadataItem)) (ms : N) :
  fetches w !! p = Some f → fetchState f = Spawned →
  fetchKey f = Some (cacheKeyOf o ty) → fetchOrg f = Some o → fetchCaching f = true →
  o ≠ "" → cachingEnabledIn (config w) = true →
  Z.of_N ms < TTL_MS (store w) →
  ∃ w', run [ProcessClosed p (inr result); Invoke ty; Tick ms;
             OrgResolved (length (calls w)) (Some o)] w = Some w'
        ∧ calls w' !! length (calls w)
          = Some (mkCall ty true (Returned Memory (Fulfilled (default [] result))))
        ∧ length (fetches w') = length (fetches w)
        ∧ ∃ g write, fetches w' !! p = Some g
                     ∧ fetchState g = Saving (default [] result) write.
Proof.
  intros Hf Hst Hkey Horg Hcaching Hne Hon Hms.
  pose (cacheData := CachedMetadataItems.mk o (fetchType f) (default [] result)
                       (Some (clock w))).
  pose (s1 := withItemsCache (store w)
                (<[cacheKeyOf o ty := cacheData]> (metadataItemsCache (store w)))).
  pose (w1 := setFetch p f (Saving (default [] result) (pendingWrite s1 (clock w) cacheData))
                s1 w).
  pose (c := mkCall ty true ResolvingOrg).
  pose (w3 := mkWorld s1 (config w) (inflightItems w) (fetches w1) (calls w ++ [c])
                (clock w + Z.of_N ms)).
  assert (H1 : step (ProcessClosed p (inr result)) w = Some w1).
  { simpl. rewrite Hf. simpl. rewrite Hst. unfold afterProcess.
    rewrite Hkey, Horg, Hcaching. reflexivity. }
  assert (H2 : run [Invoke ty; Tick ms] w1 = Some w3).
  { simpl. rewrite Hon. reflexivity. }
  assert (Hc : calls w3 !! length (calls w) = Some c).
  { apply list_lookup_middle. reflexivity. }
  assert (Hhit : memoryHit s1 (clock w + Z.of_N ms) (cacheKeyOf o ty)
                 = Some (default [] result)).
  { unfold memoryHit, s1. cbn [metadataItemsCache withItemsCache].
    rewrite lookup_insert_eq. cbn [CachedMetadataItems.ts CachedMetadataItems.items cacheData].
    unfold isFresh. cbn [TTL_MS withItemsCache].
    destruct (clock w =? 0); [reflexivity|].
    replace (clock w + Z.of_N ms - clock w) with (Z.of_N ms) by lia.
    rewrite (proj2 (Z.ltb_lt _ _) Hms). reflexivity. }
  assert (H4 : step (OrgResolved (length (calls w)) (Some o)) w3
               = Some (setPhase (length (calls w)) c
                         (Returned Memory (Fulfilled (default [] result))) w3)).
  { cbn [step]. rewrite Hc. cbn [mbind option_bind callPhase c]. unfold afterOrg.
    cbn [cacheKeyFor callType callCaching c store clock w3].
    rewrite (nonEmpty_true o Hne), Hhit. reflexivity. }
  eexists. split.
  { change [ProcessClosed p (inr result); Invoke ty; Tick ms;
            OrgResolved (length (calls w)) (Some o)]
      with ([ProcessClosed p (inr result)]
            ++ [Invoke ty; Tick ms] ++ [OrgResolved (length (calls w)) (Some o)])%list.
    cbn [run app]. rewrite H1. cbn [run] in H2. cbn [run].
    destruct (step (Invoke ty) w1) as [w2|]; [|discriminate].
    destruct (step (Tick ms) w2) as [w3'|]; [|discriminate].
    injection H2 as ->. rewrite H4. reflexivity. }
  cbn [setPhase calls fetches w3 w1 setFetch].
  split; [apply list_lookup_insert_eq; rewrite length_app; simpl; lia|].
  split; [apply length_insert|].
  eexists _, _. split; [apply list_lookup_insert_eq, (lookup_lt_Some _ _ _ Hf)|].
  reflexivity.
Qed.

Lemma fetched_items_served_from_memory_witness :
  ∃ w', run [ProcessClosed 0 (inr (Some [item "Foo"])); Invoke "ApexClass"; Tick 5;
             OrgResolved (length (calls threeWaiting)) (Some "00Dxx")] threeWaiting
        = Some w'
        ∧ calls w' !! length (calls threeWaiting)
          = Some (mkCall "ApexClass" true (Returned Memory (Fulfilled [item "Foo"]))).
Proof.
  destruct (fetched_items_served_from_memory threeWaiting 0
              (mkFetch (Some "00Dxx:ApexClass") (Some "00Dxx") "ApexClass" true 0 Spawned)
              "00Dxx" "ApexClass" (Some [item "Foo"]) 5
              eq_refl eq_refl eq_refl eq_refl eq_refl
              ltac:(discriminate) eq_refl eq_refl)
    as (w' & Hrun & Hcall & _).
  exists w'. split; [exact Hrun | exact Hcall].
Defined.

(** ** The type catalogue across a restart *)

Lemma activate_store (config : Config) (dir : string) (now : Z)
    (d : gmap string (gmap string FileData)) :
  is_Some (d !! dir) →
  TTL_MS (activate config dir now (loaded d)) = ttlDays config * 24 * 60 * 60 * 1000
  ∧ metadataTypesCache (activate config dir now (loaded d)) = None
  ∧ cacheDirectory (activate config dir now (loaded d)) = Some dir
  ∧ disk (activate config dir now (loaded d)) = d.
Proof.
  intros Hdir.
  assert (Happly : applyConfigSettings config (loaded d)
                   = mkStore (ttlDays config * 24 * 60 * 60 * 1000) None ∅ None d).
  { unfold applyConfigSettings. destruct (cachingEnabledIn config); reflexivity. }
  unfold activate. rewrite Happly. unfold initializeCacheDirectory, loadAllCachesFromDisk.
  cbn [TTL_MS metadataTypesCache metadataItemsCache cacheDirectory disk].
  rewrite (bool_decide_eq_true_2 _ Hdir).
  destruct (Fs.existsDir dir d); repeat split; reflexivity.
Qed.

(** X22: a catalogue fetched with caching enabled survives a restart on
    disk: in the process started next on the same disk, whose memory entry
    is empty, the first [getMetadataTypes] for the organisation reads the
    file, returns the fetched list without invoking sf, as long as the
    time of the fetch is fresh under the TTL of the new process, and makes
    the entry of the file the memory entry. *)
Theorem getMetadataTypes_after_restart (useCache : bool) (config config' : Config)
    (o dir : string) (now later started now2 later2 : Z)
    (metadataObjects : option (list MetadataType))
    (fetched2 : SfCliError + option (list MetadataType)) (s : Store) :
  cacheDirectory s = Some dir → is_Some (disk s !! dir) →
  cachingEnabledIn config = true → cachingEnabledIn config' = true → o ≠ "" →
  typesInvoked (getMetadataTypes useCache config (Some o) now (inr metadataObjects) later s)
  = true →
  isFresh (applyConfigSettings config' s) now2 (Some later) = true →
  getMetadataTypes true config' (Some o) now2 fetched2 later2
    (activate config' dir started
       (loaded (disk (typesStore (getMetadataTypes useCache config (Some o) now
                                    (inr metadataObjects) later s)))))
  = mkTypesCall (inr (default [] metadataObjects)) false
      (withTypesCache
         (activate config' dir started
            (loaded (disk (typesStore (getMetadataTypes useCache config (Some o) now
                                         (inr metadataObjects) later s)))))
         (Some (CachedMetadataTypes.mk o (default [] metadataObjects) (Some later)))).
Proof.
  intros Hdir [listing Hlisting] Hon Hon' Hne Hinvoked Hfresh.
  pose (cache := CachedMetadataTypes.mk o (default [] metadataObjects) (Some later)).
  assert (Hfirst : typesStore (getMetadataTypes useCache config (Some o) now
                                 (inr metadataObjects) later s)
                   = saveMetadataTypesToDisk (withTypesCache s (Some cache)) later cache).
  { revert Hinvoked. unfold getMetadataTypes. cbv zeta.
    rewrite (nonEmpty_true o Hne), Hon.
    destruct useCache; simpl; [|reflexivity].
    destruct (metadataTypesCache s) as [cached|]; [
      destruct (String.eqb (CachedMetadataTypes.orgId cached) o
                && isFresh s now (CachedMetadataTypes.ts cached)); [discriminate|]|];
      (destruct (loadMetadataTypesFromDisk s now o); [discriminate | reflexivity]). }
  rewrite Hfirst.
  assert (Hdisk : disk (saveMetadataTypesToDisk (withTypesCache s (Some cache)) later cache)
                  = <[dir := <["metadata-types-" ++ o ++ ".json" := TypesJson cache]> listing]>
                      (disk s)).
  { unfold saveMetadataTypesToDisk, getMetadataTypesCachePath.
    cbn [cacheDirectory withTypesCache CachedMetadataTypes.orgId cache]. rewrite Hdir.
    cbn [mbind option_bind]. unfold Fs.writeFile.
    cbn [fst snd disk withTypesCache]. rewrite Hlisting. reflexivity. }
  rewrite Hdisk.
  destruct (activate_store config' dir started
              (<[dir := <["metadata-types-" ++ o ++ ".json" := TypesJson cache]> listing]>
                 (disk s)))
    as (Httl & Hmem & Hcache & Hd); [rewrite lookup_insert_eq; eauto|].
  unfold getMetadataTypes. cbv zeta. rewrite (nonEmpty_true o Hne), Hon'.
  cbn [andb]. rewrite Hmem.
  assert (Hload : loadMetadataTypesFromDisk
                    (activate config' dir started
                       (loaded (<[dir := <["metadata-types-" ++ o ++ ".json"
                                             := TypesJson cache]> listing]> (disk s))))
                    now2 o = Some cache).
  { unfold loadMetadataTypesFromDisk, getMetadataTypesCachePath. rewrite Hcache, Hd.
    cbn [mbind option_bind]. unfold Fs.readFile. cbn [fst snd].
    rewrite lookup_insert_eq. cbn [mbind option_bind]. rewrite lookup_insert_eq.
    cbn [CachedMetadataTypes.ts cache].
    erewrite isFresh_TTL; [rewrite Hfresh; reflexivity|].
    rewrite Httl. unfold applyConfigSettings. rewrite Hon'. reflexivity. }
  rewrite Hload. reflexivity.
Qed.

Lemma getMetadataTypes_after_restart_witness :
  typesInvoked
    (getMetadataTypes true cacheOn (Some "00Dxx") 40 (inl listFailed) 50
       (activate cacheOn "/storage/cache" 35
          (loaded (disk (typesStore (getMetadataTypes false cacheOn (Some "00Dxx") 20
                                       (inr None) 30 emptyStore))))))
  = false.
Proof.
  rewrite (getMetadataTypes_after_restart false cacheOn cacheOn "00Dxx" "/storage/cache"
             20 30 35 40 50 None (inl listFailed) emptyStore eq_refl
             (ex_intro _ ∅ eq_refl) eq_refl eq_refl ltac:(discriminate) eq_refl eq_refl).
  reflexivity.
Defined.
